(** * API endpoint mapper: crawl engine, endpoint registry and classifiers

    A shallow embedding of the TypeScript sources

    - [src/lib/spider-crawler.ts]  (class [SpiderCrawler]),
    - [src/lib/pattern-matcher.ts] (class [PatternMatcher]),
    - [src/lib/wasm-pattern-matcher.ts] (class [WASMPatternMatcherImpl]),
    - [src/lib/utils.ts] ([isValidDomain]),

    together with the properties stated about them.

    Conventions.  A JavaScript string is modelled by [string] (the inputs
    considered are ASCII, so a UTF-16 code unit is one [ascii]); a JavaScript
    [number] is an IEEE-754 binary64 value, modelled by Rocq's primitive
    [float], except where the source only uses it as a counter, where it is
    a [nat] or a [Z]; [Set<string>] is [gset string] and
    [Map<string, Endpoint>] is [gmap string Endpoint]. *)

From Stdlib Require Import ZArith NArith Ascii Lia Bool.
From Stdlib Require Import PrimFloat SpecFloat.
From stdpp Require Import gmap strings list.

Set Default Proof Using "Type".
Set Warnings "-inexact-float,-abstract-large-number".

(* ===================================================================== *)
(** * JavaScript string primitives *)
(* ===================================================================== *)

Module Str.

Definition code (c : ascii) : N := N_of_ascii c.

Definition between (lo hi c : ascii) : bool :=
  ((code lo <=? code c) && (code c <=? code hi))%N.

Definition is_digit (c : ascii) : bool := between "0" "9" c.
Definition is_upper (c : ascii) : bool := between "A" "Z" c.
Definition is_lower (c : ascii) : bool := between "a" "z" c.
Definition is_alpha (c : ascii) : bool := is_upper c || is_lower c.
Definition is_alnum (c : ascii) : bool := is_alpha c || is_digit c.

(** [\w] of a JavaScript regular expression. *)
Definition is_word (c : ascii) : bool := is_alnum c || Ascii.eqb c "_".

(** Line terminators, the characters [.] does not match. *)
Definition is_newline (c : ascii) : bool :=
  Ascii.eqb c "010" || Ascii.eqb c "013".

Definition lower_char (c : ascii) : ascii :=
  if is_upper c then ascii_of_N (code c + 32) else c.

(** [s.toLowerCase()] *)
Fixpoint toLowerCase (s : string) : string :=
  match s with
  | EmptyString => EmptyString
  | String c s' => String (lower_char c) (toLowerCase s')
  end.

(** [s.startsWith(p)] *)
Fixpoint startsWith (s p : string) {struct p} : bool :=
  match p, s with
  | EmptyString, _ => true
  | String _ _, EmptyString => false
  | String a p', String b s' => Ascii.eqb a b && startsWith s' p'
  end.

(** [s.includes(p)] *)
Fixpoint includes (s p : string) : bool :=
  startsWith s p ||
  match s with
  | EmptyString => false
  | String _ s' => includes s' p
  end.

(** [s.endsWith(p)] *)
Fixpoint endsWith (s p : string) : bool :=
  String.eqb s p ||
  match s with
  | EmptyString => false
  | String _ s' => endsWith s' p
  end.

(** [s.split(c)] for a one-character separator. *)
Fixpoint split (c : ascii) (s : string) : list string :=
  match s with
  | EmptyString => [EmptyString]
  | String a s' =>
      if Ascii.eqb a c then EmptyString :: split c s'
      else match split c s' with
           | [] => [String a EmptyString]
           | w :: ws => String a w :: ws
           end
  end.

(** The first [n] characters and what follows them. *)
Fixpoint take (n : nat) (s : string) : string :=
  match n, s with
  | S n', String a s' => String a (take n' s')
  | _, _ => EmptyString
  end.

Fixpoint drop (n : nat) (s : string) : string :=
  match n, s with
  | S n', String _ s' => drop n' s'
  | _, _ => s
  end.

End Str.

(* ===================================================================== *)
(** * JavaScript regular expressions *)
(* ===================================================================== *)

(** The regular expressions of the sources are kept as syntax trees and run
    by a backtracking matcher.  A match attempt returns every cursor at
    which the expression can end, in the order in which a backtracking
    engine tries them (greedy repetition first, left alternative first), so
    that the head of the list is the match JavaScript reports. *)

Module Regex.

Inductive re : Type :=
| Eps                          (* the empty expression *)
| Chr (p : ascii -> bool)      (* one character of a class *)
| Cat (r1 r2 : re)             (* r1 r2 *)
| Alt (r1 r2 : re)             (* r1|r2 *)
| Star (r : re)                (* r*, greedy *)
| Bol                          (* ^ *)
| Eol                          (* $ (no m flag) *)
| WordB.                       (* \b *)

(** A position in the subject: the character just before it (if any) and
    the text that follows. *)
Definition cursor : Type := option ascii * string.

Definition word_before (c : cursor) : bool :=
  match c.1 with Some a => Str.is_word a | None => false end.

Definition word_after (c : cursor) : bool :=
  match c.2 with String a _ => Str.is_word a | EmptyString => false end.

Fixpoint run (r : re) (c : cursor) : list cursor :=
  match r with
  | Eps => [c]
  | Chr p =>
      match c.2 with
      | String a s => if p a then [(Some a, s)] else []
      | EmptyString => []
      end
  | Cat r1 r2 => c1 ← run r1 c; run r2 c1
  | Alt r1 r2 => run r1 c ++ run r2 c
  | Star r1 =>
      (* an iteration that consumes nothing is not repeated *)
      (fix iter (fuel : nat) (c : cursor) : list cursor :=
         match fuel with
         | O => [c]
         | S fuel' =>
             (c1 ← run r1 c;
              if bool_decide (String.length c1.2 < String.length c.2)
              then iter fuel' c1 else [])
             ++ [c]
         end) (String.length c.2) c
  | Bol => match c.1 with None => [c] | Some _ => [] end
  | Eol => match c.2 with EmptyString => [c] | String _ _ => [] end
  | WordB => if xorb (word_before c) (word_after c) then [c] else []
  end.

(** ** Derived forms *)

Definition lit (a : ascii) : re := Chr (Ascii.eqb a).

(** A literal under the [i] flag. *)
Definition liti (a : ascii) : re :=
  Chr (fun x => Ascii.eqb (Str.lower_char x) (Str.lower_char a)).

Fixpoint str (s : string) : re :=
  match s with
  | EmptyString => Eps
  | String a s' => Cat (lit a) (str s')
  end.

Fixpoint stri (s : string) : re :=
  match s with
  | EmptyString => Eps
  | String a s' => Cat (liti a) (stri s')
  end.

Definition opt (r : re) : re := Alt r Eps.            (* r? *)
Definition plus (r : re) : re := Cat r (Star r).      (* r+ *)

Fixpoint alts (l : list re) : re :=
  match l with
  | [] => Chr (fun _ => false)
  | [r] => r
  | r :: l' => Alt r (alts l')
  end.

Fixpoint cats (l : list re) : re :=
  match l with
  | [] => Eps
  | r :: l' => Cat r (cats l')
  end.

(** [r{n}] *)
Fixpoint rep (n : nat) (r : re) : re :=
  match n with
  | O => Eps
  | S n' => Cat r (rep n' r)
  end.

(** [r{0,n}] *)
Fixpoint upto (n : nat) (r : re) : re :=
  match n with
  | O => Eps
  | S n' => opt (Cat r (upto n' r))
  end.

(** [r{lo,hi}] *)
Definition range (lo hi : nat) (r : re) : re :=
  Cat (rep lo r) (upto (hi - lo) r).

Definition digit : re := Chr Str.is_digit.                 (* \d, [0-9] *)
Definition word : re := Chr Str.is_word.                   (* \w *)
Definition dot : re := Chr (fun a => negb (Str.is_newline a)).  (* . *)
Definition oneof (s : string) : re :=                      (* [abc] *)
  Chr (fun a => Str.includes s (String a EmptyString)).

(** ** Searching *)

(** The leftmost match at or after the cursor [(prev, s)]: the text it
    starts at and the cursor it ends at. *)
Fixpoint find (r : re) (prev : option ascii) (s : string)
  : option (string * cursor) :=
  match run r (prev, s) with
  | c :: _ => Some (s, c)
  | [] =>
      match s with
      | String a s' => find r (Some a) s'
      | EmptyString => None
      end
  end.

(** The text matched between a start and an end cursor. *)
Definition matched (start : string) (stop : cursor) : string :=
  Str.take (String.length start - String.length stop.2) start.

(** [r.test(s)] *)
Definition test (r : re) (s : string) : bool :=
  match find r None s with Some _ => true | None => false end.

(** [s.match(r)] for a regular expression with the [g] flag: all the
    matches, left to right; after an empty match the search resumes one
    character further.  ([null] is the empty list.) *)
Fixpoint match_all_from (fuel : nat) (r : re) (prev : option ascii)
  (s : string) : list string :=
  match fuel with
  | O => []
  | S fuel' =>
      match find r prev s with
      | None => []
      | Some (start, stop) =>
          let m := matched start stop in
          m :: match m, start with
               | EmptyString, String a s' =>
                   match_all_from fuel' r (Some a) s'
               | EmptyString, EmptyString => []
               | String _ _, _ => match_all_from fuel' r stop.1 stop.2
               end
      end
  end.

Definition match_all (r : re) (s : string) : list string :=
  match_all_from (S (String.length s)) r None s.

(** [s.replace(r, by)] for a regular expression without the [g] flag:
    only the first match is replaced. *)
Definition replace (r : re) (by_ : string) (s : string) : string :=
  match find r None s with
  | None => s
  | Some (start, stop) =>
      Str.take (String.length s - String.length start) s
        +:+ by_ +:+ stop.2
  end.

(** [s.replace(/[cs]/g, '')]: every character of the class is dropped. *)
Fixpoint remove_all (p : ascii -> bool) (s : string) : string :=
  match s with
  | EmptyString => EmptyString
  | String a s' =>
      if p a then remove_all p s' else String a (remove_all p s')
  end.

End Regex.

(* ===================================================================== *)
(** * [src/lib/utils.ts] *)
(* ===================================================================== *)

Module Utils.
Import Regex.

(** [[a-zA-Z0-9]] and [[a-zA-Z0-9-]] *)
Definition alnum : re := Chr Str.is_alnum.
Definition alnum_dash : re :=
  Chr (fun a => Str.is_alnum a || Ascii.eqb a "-").

(** [/^https?:\/\//] *)
Definition protocolRegex : re :=
  cats [Bol; str "http"; opt (lit "s"); str "://"].

(** [/\/.*$/] *)
Definition pathRegex : re := cats [lit "/"; Star dot; Eol].

(** [/^(?:[0-9]{1,3}\.){3}[0-9]{1,3}$/] *)
Definition ipRegex : re :=
  cats [Bol; rep 3 (Cat (range 1 3 digit) (lit "."));
        range 1 3 digit; Eol].

(** [[a-zA-Z0-9]([a-zA-Z0-9-]{0,61}[a-zA-Z0-9])?] *)
Definition label : re :=
  Cat alnum (opt (Cat (range 0 61 alnum_dash) alnum)).

(** [/^[a-zA-Z0-9]([a-zA-Z0-9-]{0,61}[a-zA-Z0-9])?(\.[a-zA-Z0-9]([a-zA-Z0-9-]{0,61}[a-zA-Z0-9])?)*$/] *)
Definition domainRegex : re :=
  cats [Bol; label; Star (Cat (lit ".") label); Eol].

(** [/^[a-zA-Z0-9][a-zA-Z0-9-]*[a-zA-Z0-9]*$/] *)
Definition singleWordRegex : re :=
  cats [Bol; alnum; Star alnum_dash; Star alnum; Eol].

Definition isValidDomain (domain : string) : bool :=
  (* Remove protocol and path if present *)
  let cleanDomain :=
    hd EmptyString
      (Str.split ":"
         (replace pathRegex "" (replace protocolRegex "" domain))) in
  (* Allow localhost *)
  if String.eqb cleanDomain "localhost" then true
  (* Allow IP addresses (basic check) *)
  else if test ipRegex cleanDomain then true
  (* Allow standard domain names with subdomains *)
  else if test domainRegex cleanDomain && Str.includes cleanDomain "." then true
  (* Allow single word domains (for testing) *)
  else if test singleWordRegex cleanDomain
          && bool_decide (2 <= String.length cleanDomain) then true
  else false.

End Utils.

(* ===================================================================== *)
(** * [src/lib/wasm-pattern-matcher.ts] *)
(* ===================================================================== *)

Module Wasm.
Local Open Scope float_scope.

(** [Math.min(a, b)] on two numbers. *)
Definition Math_min (a b : float) : float :=
  if is_nan a || is_nan b then nan
  else if a <? b then a
  else if b <? a then b
  else if get_sign a then a else b.

(** [WASMPatternMatcherImpl.calculateConfidence]; the two counts are
    integers, the result is a binary64 number. *)
Definition calculateConfidence (patternCount matchCount : Z) : float :=
  if (matchCount =? 0)%Z then 0.0
  else
    let confidence := 0.3 in (* Base confidence *)
    (* More matches = higher confidence *)
    let confidence :=
      if (matchCount >? 1)%Z then confidence + 0.2 else confidence in
    let confidence :=
      if (matchCount >? 5)%Z then confidence + 0.2 else confidence in
    let confidence :=
      if (matchCount >? 10)%Z then confidence + 0.1 else confidence in
    (* Pattern diversity increases confidence *)
    let confidence :=
      if (patternCount >? 2)%Z then confidence + 0.2 else confidence in
    Math_min confidence 1.0.

(** The scoring rule as the specification words it: a sum of a base and
    of the bonuses that apply, clamped to the unit interval. *)
Definition bonus (applies : bool) (amount : float) : float :=
  if applies then amount else 0.0.

Definition clamp01 (x : float) : float :=
  if x <? 0.0 then 0.0 else if 1.0 <? x then 1.0 else x.

Definition confidence_spec (patternCount matchCount : Z) : float :=
  if (matchCount =? 0)%Z then 0.0
  else clamp01 (0.3 + bonus (1 <? matchCount)%Z 0.2
                    + bonus (5 <? matchCount)%Z 0.2
                    + bonus (10 <? matchCount)%Z 0.1
                    + bonus (2 <? patternCount)%Z 0.2).

End Wasm.


(* ===================================================================== *)
(** * [wasm/assembly/index.ts] *)
(* ===================================================================== *)

(** The AssemblyScript twin of the scorer works on [i32] counts and in
    binary32 arithmetic, modelled with the specification floats of the
    standard library at precision 24. *)

Module AssemblyScript.

Definition prec : Z := 24.
Definition emax : Z := 128.

Definition f32 : Type := spec_float.

Definition of_Z (n : Z) : f32 := binary_normalize prec emax n 0 false.

(** The literal [num/den], rounded to the nearest binary32 value. *)
Definition literal (num den : Z) : f32 :=
  SFdiv prec emax (of_Z num) (of_Z den).

Definition add (x y : f32) : f32 := SFadd prec emax x y.

(** [Math.min(x, 1.0) as f32] on numbers that are not NaN: the widening to
    binary64 and the narrowing back are exact. *)
Definition min (x y : f32) : f32 := if SFltb x y then x else y.

Definition calculateConfidence (patternCount matchCount : Z) : f32 :=
  if (matchCount =? 0)%Z then of_Z 0
  else
    let confidence := literal 3 10 in (* Base confidence *)
    (* More matches = higher confidence *)
    let confidence :=
      if (matchCount >? 1)%Z then add confidence (literal 2 10)
      else confidence in
    let confidence :=
      if (matchCount >? 5)%Z then add confidence (literal 2 10)
      else confidence in
    let confidence :=
      if (matchCount >? 10)%Z then add confidence (literal 1 10)
      else confidence in
    (* Pattern diversity increases confidence *)
    let confidence :=
      if (patternCount >? 2)%Z then add confidence (literal 2 10)
      else confidence in
    min confidence (of_Z 1).

(** The scoring rule in the words of the specification, in binary32. *)
Definition bonus (applies : bool) (amount : f32) : f32 :=
  if applies then amount else of_Z 0.

Definition clamp01 (x : f32) : f32 :=
  if SFltb x (of_Z 0) then of_Z 0
  else if SFltb (of_Z 1) x then of_Z 1 else x.

Definition confidence_spec (patternCount matchCount : Z) : f32 :=
  if (matchCount =? 0)%Z then of_Z 0
  else clamp01
         (add (add (add (add (literal 3 10)
                           (bonus (1 <? matchCount)%Z (literal 2 10)))
                      (bonus (5 <? matchCount)%Z (literal 2 10)))
                 (bonus (10 <? matchCount)%Z (literal 1 10)))
            (bonus (2 <? patternCount)%Z (literal 2 10))).

End AssemblyScript.

(* ===================================================================== *)
(** * The platform's [URL] class *)
(* ===================================================================== *)

Module Url.

(** The fields of a parsed [URL] object that the sources read;
    [searchParamsKeys] lists the keys [urlObj.searchParams.forEach]
    visits, in order. *)
Record URL : Type := mkURL {
  protocol : string;
  host : string;
  hostname : string;
  pathname : string;
  search : string;
  hash : string;
  searchParamsKeys : list string
}.

(** [new URL(s)]: the parsed object, or [None] when the constructor throws.
    The parser belongs to the JavaScript runtime, not to this repository:
    the crawler is modelled over any parser. *)
Class Parser : Type := new_URL : string -> option URL.

(** ** A reference parser for plain http(s) URLs

    It follows the WHATWG algorithm on URLs of the shape
    [http(s)://host[:port][/path][?query][#fragment]] whose host is made of
    letters, digits, [.] and [-], and whose path, query and fragment need no
    normalisation apart from the percent-encoding of braces in the path.
    It answers [None] for everything else, so it is only used to evaluate
    the crawler on concrete URLs of that shape. *)

Definition all_chars (p : ascii -> bool) (s : string) : bool :=
  forallb p (String.list_ascii_of_string s).

(** The prefix of [s] before the first character satisfying [p], and the
    rest (starting with that character). *)
Fixpoint span_until (p : ascii -> bool) (s : string) : string * string :=
  match s with
  | EmptyString => (EmptyString, EmptyString)
  | String a s' =>
      if p a then (EmptyString, s)
      else let '(u, v) := span_until p s' in (String a u, v)
  end.

Definition is_one_of (set : string) (a : ascii) : bool :=
  Str.includes set (String a EmptyString).

Definition host_char (a : ascii) : bool :=
  Str.is_alnum a || is_one_of ".-" a.

Definition path_char (a : ascii) : bool :=
  Str.is_alnum a || is_one_of "/-._~!$&'()*+,;=:@{}" a.

Definition query_char (a : ascii) : bool :=
  Str.is_alnum a || is_one_of "/-._~!$&()*,;=:@?" a.

Definition fragment_char (a : ascii) : bool :=
  Str.is_alnum a || is_one_of "/-._~!$&'()*+,;=:@?" a.

(** Braces are in the path percent-encode set. *)
Fixpoint encode_path (s : string) : string :=
  match s with
  | EmptyString => EmptyString
  | String a s' =>
      if Ascii.eqb a "{" then "%7B" +:+ encode_path s'
      else if Ascii.eqb a "}" then "%7D" +:+ encode_path s'
      else String a (encode_path s')
  end.

Fixpoint strip_zeros (s : string) : string :=
  match s with
  | String "0" (String b s' as t) => strip_zeros t
  | _ => s
  end.

Definition decimal_value (s : string) : N :=
  fold_left (fun acc a => (10 * acc + (Str.code a - 48))%N)
    (String.list_ascii_of_string s) 0%N.

(** A host whose last label begins with a digit must be a dotted quad in
    canonical form. *)
Definition canonical_octet (s : string) : bool :=
  negb (String.eqb s "") && all_chars Str.is_digit s
  && String.eqb (strip_zeros s) s && (decimal_value s <=? 255)%N.

Definition host_ok (h : string) : bool :=
  let labels := Str.split "." h in
  negb (String.eqb h "") && all_chars host_char h
  && forallb (fun l => negb (String.eqb l "")) labels
  && match last labels with
     | Some (String a _) =>
         if Str.is_digit a
         then bool_decide (length labels = 4) && forallb canonical_octet labels
         else true
     | _ => false
     end.

Definition has_dot_segment (path : string) : bool :=
  existsb (fun seg => String.eqb seg "." || String.eqb seg "..")
    (Str.split "/" path).

(** The keys of a query string: its [&]-separated pieces, each cut at its
    first [=]. *)
Definition query_keys (q : string) : list string :=
  map (fun piece => (span_until (Ascii.eqb "=") piece).1)
    (filter (fun piece => piece <> EmptyString) (Str.split "&" q)).

Definition parse_http (s : string) : option URL :=
  let scheme :=
    if Str.startsWith s "https://" then Some ("https:", "443", Str.drop 8 s)
    else if Str.startsWith s "http://" then Some ("http:", "80", Str.drop 7 s)
    else None in
  match scheme with
  | None => None
  | Some (proto, default_port, after) =>
      let '(authority, rest) := span_until (is_one_of "/?#") after in
      let '(path, rest) := span_until (is_one_of "?#") rest in
      let '(query, fragment) := span_until (Ascii.eqb "#") rest in
      let query := Str.drop 1 query in
      let fragment := Str.drop 1 fragment in
      let '(name, port) := span_until (Ascii.eqb ":") authority in
      let port_given := negb (String.eqb port "") in
      let port := strip_zeros (Str.drop 1 port) in
      if host_ok name
         && (negb port_given
             || (negb (String.eqb port "") && all_chars Str.is_digit port
                 && (decimal_value port <=? 65535)%N
                 && bool_decide (String.length port <= 5)))
         && all_chars path_char path && negb (has_dot_segment path)
         && all_chars query_char query && all_chars fragment_char fragment
      then
        let name := Str.toLowerCase name in
        Some {|
          protocol := proto;
          hostname := name;
          host := if port_given && negb (String.eqb port default_port)
                  then name +:+ ":" +:+ port else name;
          pathname := if String.eqb path "" then "/" else encode_path path;
          search := if String.eqb query "" then "" else "?" +:+ query;
          hash := if String.eqb fragment "" then "" else "#" +:+ fragment;
          searchParamsKeys := query_keys query
        |}
      else None
  end.

End Url.

(* ===================================================================== *)
(** * [src/lib/types.ts] *)
(* ===================================================================== *)

Module Types.

Inductive ParamType : Type := query | path | body | header.

Inductive Severity : Type := low | medium | high | critical.

Inductive Source : Type := crawl | js | html | sitemap | robots.

Inductive Stage : Type :=
  initializing | crawling | analyzing | processing | completed | error.

#[global] Instance ParamType_eq_dec : EqDecision ParamType.
Proof. solve_decision. Defined.
#[global] Instance Severity_eq_dec : EqDecision Severity.
Proof. solve_decision. Defined.
#[global] Instance Source_eq_dec : EqDecision Source.
Proof. solve_decision. Defined.
#[global] Instance Stage_eq_dec : EqDecision Stage.
Proof. solve_decision. Defined.

(** [Parameter] of the source ([Parameter] is a reserved word here). *)
Record Param : Type := mkParam {
  name : string;
  type : ParamType;
  required : bool
}.

Record Header : Type := mkHeader {
  header_name : string;
  header_value : string
}.

Record SecurityVulnerability : Type := mkVulnerability {
  vuln_type : string;
  severity : Severity;
  description : string;
  recommendation : option string
}.

Record SecurityAnalysis : Type := mkSecurityAnalysis {
  hasAuth : bool;
  vulnerabilities : list SecurityVulnerability;
  riskLevel : Severity
}.

Record Endpoint : Type := mkEndpoint {
  id : string;
  url : string;
  method : string;
  parameters : list Param;
  headers : list Header;
  responseTime : option Z;
  depth : nat;
  source : Source;
  security : option SecurityAnalysis
}.

Record ScanProgress : Type := mkScanProgress {
  stage : Stage;
  progress : Z;
  currentUrl : option string;
  pagesScanned : nat;
  endpointsFound : nat;
  message : string
}.

Record ScannerConfig : Type := mkScannerConfig {
  maxDepth : nat;
  maxPages : nat;
  respectRobots : bool;
  includeExternalLinks : bool;
  crawlDelay : nat;
  userAgent : string;
  enableJavaScript : bool;
  timeout : nat
}.

Record CrawlError : Type := mkCrawlError {
  error_url : string;
  error_message : string
}.

(** The order [low < medium < high < critical] of severities. *)
Definition severity_rank (s : Severity) : nat :=
  match s with low => 0 | medium => 1 | high => 2 | critical => 3 end.

Definition severity_le (s1 s2 : Severity) : Prop :=
  severity_rank s1 <= severity_rank s2.

Definition severity_max (s1 s2 : Severity) : Severity :=
  if bool_decide (severity_rank s1 <= severity_rank s2) then s2 else s1.

(** The greatest severity of a list of findings ([low] when there is none). *)
Definition max_severity (vs : list SecurityVulnerability) : Severity :=
  foldr (fun v acc => severity_max (severity v) acc) low vs.

End Types.
Export Types.

(* ===================================================================== *)
(** * [src/lib/pattern-matcher.ts] *)
(* ===================================================================== *)

Module PatternMatcher.
Import Regex.

(** What [extractParameters] returns: [{ name, type }] with [type]
    either ['query'] or ['path']. *)
Record Extracted : Type := mkExtracted {
  ex_name : string;
  ex_type : ParamType
}.

(** [/\{(\w+)\}|:(\w+)/g] *)
Definition pathParamRegex : re :=
  Alt (cats [lit "{"; plus word; lit "}"]) (Cat (lit ":") (plus word)).

(** [param.replace(/[{}:]/g, '')] *)
Definition cleanParam (param : string) : string :=
  remove_all (Url.is_one_of "{}:") param.

Definition extractParameters `{parser : Url.Parser} (url : string) : list Extracted :=
  match Url.new_URL url with
  | None => [] (* Invalid URL, skip parameter extraction *)
  | Some urlObj =>
      (* Extract query parameters *)
      map (fun key => mkExtracted key query) (Url.searchParamsKeys urlObj)
      (* Extract path parameters (simple heuristics) *)
      ++ map (fun param => mkExtracted (cleanParam param) path)
           (match_all pathParamRegex url)
  end.

(** [PatternMatcher.calculateConfidence(pattern, matches)], the score of
    the regular-expression matcher: it is computed from the source text of
    the pattern and from the number of matches. *)
Definition calculateConfidence (pattern_source : string) (matches : nat)
  : float :=
  let confidence := 0.5%float in
  let confidence :=
    if Str.includes pattern_source "api" then (confidence + 0.3)%float
    else confidence in
  let confidence :=
    if Str.includes pattern_source "rest" then (confidence + 0.2)%float
    else confidence in
  let confidence :=
    if Str.includes pattern_source "graphql" then (confidence + 0.3)%float
    else confidence in
  let confidence :=
    if bool_decide (1 < matches) then (confidence + 0.1)%float
    else confidence in
  let confidence :=
    if bool_decide (5 < matches) then (confidence + 0.1)%float
    else confidence in
  Wasm.Math_min confidence 1.0%float.

(** The rule this scorer follows, worded like the rule of the two-count
    scorer: a sum of a base and of the bonuses that apply, clamped to the
    unit interval. *)
Definition confidence_spec (pattern_source : string) (matches : nat)
  : float :=
  Wasm.clamp01
    (0.5 + Wasm.bonus (Str.includes pattern_source "api") 0.3
         + Wasm.bonus (Str.includes pattern_source "rest") 0.2
         + Wasm.bonus (Str.includes pattern_source "graphql") 0.3
         + Wasm.bonus (bool_decide (1 < matches)) 0.1
         + Wasm.bonus (bool_decide (5 < matches)) 0.1)%float.

End PatternMatcher.

(* ===================================================================== *)
(** * [src/lib/spider-crawler.ts]: classifiers and the endpoint registry *)
(* ===================================================================== *)

Module SpiderCrawler.
Import Regex.

(** The configuration the constructor installs when none is given. *)
Definition defaultConfig : ScannerConfig := {|
  maxDepth := 8;
  maxPages := 2000;
  respectRobots := false;
  includeExternalLinks := true;
  crawlDelay := 100;
  userAgent :=
    "Mozilla/5.0 (compatible; API-Endpoint-Mapper/3.0; Beast-Mode-Crawler)";
  enableJavaScript := true;
  timeout := 10000
|}.

Definition maxConcurrentCrawls : nat := 16.

(** ** [looksLikeAPI] *)

Definition strongIndicators : list string :=
  ["/api/"; "/rest/"; "/graphql"; "/oauth"; "/auth/"; "/token";
   "/login"; "/register"; "/users"; "/user/"; "/admin/"; "/data/";
   "/search"; "/upload"; "/download"; "/export"; "/import";
   ".json"; ".xml"; ".yaml"; ".yml"].

(** [/\/v\d+\//i], [/\/version\d+\//i], [/\/api\/v\d+/i] *)
Definition versionPatterns : list re :=
  [cats [lit "/"; liti "v"; plus digit; lit "/"];
   cats [lit "/"; stri "version"; plus digit; lit "/"];
   cats [lit "/"; stri "api"; lit "/"; liti "v"; plus digit]].

(** [/\/(get|post|put|patch|delete|head|options)\//i] *)
Definition methodPatterns : list re :=
  [cats [lit "/";
         alts (map stri ["get"; "post"; "put"; "patch"; "delete"; "head";
                         "options"]);
         lit "/"]].

(** [/\/\w+\/\d+/], [/\/\w+\/\{\w+\}/], [/\/\w+\/:\w+/], [/\?[\w=&]+/] *)
Definition resourcePatterns : list re :=
  [cats [lit "/"; plus word; lit "/"; plus digit];
   cats [lit "/"; plus word; lit "/"; lit "{"; plus word; lit "}"];
   cats [lit "/"; plus word; lit "/"; lit ":"; plus word];
   cats [lit "?";
         plus (Chr (fun a => Str.is_word a || Url.is_one_of "=&" a))]].

(** [/\b(api|rest|service|backend|endpoint)\b/i] *)
Definition apiKeywordRegex : re :=
  cats [WordB;
        alts (map stri ["api"; "rest"; "service"; "backend"; "endpoint"]);
        WordB].

Definition apiExtensions : list string :=
  [".json"; ".xml"; ".yaml"; ".yml"; ".rss"; ".atom"].

(** [/\/(200|201|400|401|403|404|500)/] *)
Definition statusCodeRegex : re :=
  Cat (lit "/")
    (alts (map str ["200"; "201"; "400"; "401"; "403"; "404"; "500"])).

Definition looksLikeAPI (url : string) : bool :=
  let lowerUrl := Str.toLowerCase url in
  (* Check strong indicators *)
  if existsb (fun indicator => Str.includes lowerUrl indicator)
       strongIndicators then true
  (* Check version patterns *)
  else if existsb (fun pattern => test pattern url) versionPatterns then true
  (* Check HTTP method patterns *)
  else if existsb (fun pattern => test pattern url) methodPatterns then true
  (* Check resource patterns (be more selective for these) *)
  else if existsb (fun pattern => test pattern url) resourcePatterns
          && test apiKeywordRegex url then true
  (* Check for common API file extensions *)
  else if existsb (fun ext => Str.endsWith lowerUrl ext) apiExtensions
       then true
  (* Check for status codes in URLs (often APIs) *)
  else if test statusCodeRegex url then true
  else false.

(** ** [shouldCrawlUrl] *)

Definition skipExtensions : list string :=
  [".pdf"; ".jpg"; ".jpeg"; ".png"; ".gif"; ".svg"; ".ico"; ".woff";
   ".woff2"; ".ttf"; ".mp4"; ".mp3"; ".zip"; ".exe"].

Definition skippedProtocols : list string :=
  ["mailto:"; "tel:"; "javascript:"; "ftp:"].

(** The test made on a link to another host when external links are not
    followed. *)
Definition isExternalAPI (url : string) (urlObj : Url.URL) : bool :=
  looksLikeAPI url
  && (Str.includes (Url.hostname urlObj) "api"
      || Str.includes (Url.hostname urlObj) "rest"
      || Str.includes (Url.hostname urlObj) "service"
      || Str.includes url "/api/"
      || Str.includes url "/rest/").

(** The path of the URL ends in one of the skipped extensions. *)
Definition hasSkipExtension (urlObj : Url.URL) : bool :=
  let path := Str.toLowerCase (Url.pathname urlObj) in
  existsb (fun ext => Str.endsWith path ext) skipExtensions.

Definition shouldCrawlUrl `{parser : Url.Parser} (config : ScannerConfig)
  (url baseUrl : string) : bool :=
  match Url.new_URL url, Url.new_URL baseUrl with
  | Some urlObj, Some baseObj =>
      (* Follow external API links if they look promising *)
      if negb (includeExternalLinks config)
         && negb (String.eqb (Url.hostname urlObj) (Url.hostname baseObj))
         && negb (isExternalAPI url urlObj)
      then false
      (* Skip obvious non-API files but keep JS *)
      else if hasSkipExtension urlObj then false
      (* Always crawl if it looks like an API *)
      else if looksLikeAPI url then true
      (* Skip mailto, tel, javascript: protocols *)
      else if existsb (fun proto => Str.startsWith url proto)
                skippedProtocols then false
      (* Skip fragments and query-only URLs unless they look like APIs *)
      else if negb (String.eqb (Url.hash urlObj) "")
              && String.eqb (Url.search urlObj) ""
              && negb (looksLikeAPI url) then false
      else true
  | _, _ => false (* catch *)
  end.

(** ** [analyzeEndpointSecurity] *)

Definition insecureProtocol : SecurityVulnerability := {|
  vuln_type := "Insecure Protocol";
  severity := medium;
  description := "Endpoint uses HTTP instead of HTTPS";
  recommendation := Some "Use HTTPS for all API endpoints"
|}.

Definition destructiveOperation : SecurityVulnerability := {|
  vuln_type := "Destructive Operation";
  severity := high;
  description := "Endpoint performs destructive operations";
  recommendation := Some "Ensure proper authentication and authorization"
|}.

Definition analyzeEndpointSecurity (url method : string) : SecurityAnalysis :=
  let vulnerabilities := [] in
  let riskLevel := low in
  (* Basic security analysis *)
  let '(vulnerabilities, riskLevel) :=
    if Str.startsWith url "http://"
    then (vulnerabilities ++ [insecureProtocol], medium)
    else (vulnerabilities, riskLevel) in
  let '(vulnerabilities, riskLevel) :=
    if String.eqb method "DELETE"
    then (vulnerabilities ++ [destructiveOperation], high)
    else (vulnerabilities, riskLevel) in
  {| hasAuth := Str.includes url "/auth" || Str.includes url "/login";
     vulnerabilities := vulnerabilities;
     riskLevel := riskLevel |}.

(** ** [createEndpoint] *)

Definition createEndpoint `{parser : Url.Parser} (url method : string)
  (source : Source) (depth : nat) : option Endpoint :=
  match Url.new_URL url with
  | None => None (* catch *)
  | Some urlObj =>
      let id := method +:+ ":" +:+ url in
      let parameters :=
        map (fun param =>
               {| name := PatternMatcher.ex_name param;
                  type := PatternMatcher.ex_type param;
                  required :=
                    bool_decide (PatternMatcher.ex_type param = path) |})
          (PatternMatcher.extractParameters url) in
      Some {| id := id;
              url := url;
              method := method;
              parameters := parameters;
              headers := [];
              responseTime := None;
              depth := depth;
              source := source;
              security := Some (analyzeEndpointSecurity url method) |}
  end.

(** ** [normalizeUrl] *)

Definition normalizeUrl `{parser : Url.Parser} (url : string) : option string :=
  let url :=
    if negb (Str.startsWith url "http://")
       && negb (Str.startsWith url "https://")
    then "https://" +:+ url else url in
  match Url.new_URL url with
  | Some urlObj => Some (Url.protocol urlObj +:+ "//" +:+ Url.host urlObj)
  | None => None (* catch *)
  end.

(** ** The endpoint registry [foundEndpoints]

    Every write to the map in the class has the shape
    [const endpoint = this.createEndpoint(url, method, source, depth);
     if (endpoint) { (optional changes of responseTime and headers)
                     this.foundEndpoints.set(endpoint.id, endpoint); }]. *)

(** The changes made to a fresh endpoint before it is stored (the
    response handler of the browser fills in a time and a header). *)
Record Annotation : Type := mkAnnotation {
  ann_responseTime : option Z;
  ann_headers : list Header
}.

Definition no_annotation : Annotation := mkAnnotation None [].

Definition annotate (a : Annotation) (endpoint : Endpoint) : Endpoint :=
  {| id := id endpoint;
     url := url endpoint;
     method := method endpoint;
     parameters := parameters endpoint;
     headers := headers endpoint ++ ann_headers a;
     responseTime :=
       match ann_responseTime a with
       | Some t => Some t
       | None => responseTime endpoint
       end;
     depth := depth endpoint;
     source := source endpoint;
     security := security endpoint |}.

(** One discovery: the arguments of [createEndpoint] and the annotation. *)
Record Discovery : Type := mkDiscovery {
  d_url : string;
  d_method : string;
  d_source : Source;
  d_depth : nat;
  d_annotation : Annotation
}.

(** The endpoint a discovery stores, if its URL parses. *)
Definition discovered `{parser : Url.Parser} (d : Discovery) : option Endpoint :=
  annotate (d_annotation d)
    <$> createEndpoint (d_url d) (d_method d) (d_source d) (d_depth d).

Definition record `{parser : Url.Parser} (foundEndpoints : gmap string Endpoint)
  (d : Discovery) : gmap string Endpoint :=
  match discovered d with
  | Some endpoint => <[id endpoint := endpoint]> foundEndpoints
  | None => foundEndpoints
  end.

(** The registry after a session that made the discoveries [ds] in that
    order, starting from the empty map. *)
Definition registry `{parser : Url.Parser} (ds : list Discovery)
  : gmap string Endpoint :=
  foldl record ∅ ds.

(** [Array.from(this.foundEndpoints.values())] *)
Definition endpoints (foundEndpoints : gmap string Endpoint)
  : list Endpoint :=
  (map_to_list foundEndpoints).*2.

(** The (method, url) pair of an endpoint, and the key a pair stands for. *)
Definition identity (e : Endpoint) : string * string := (method e, url e).

Definition key_of (i : string * string) : string := i.1 +:+ ":" +:+ i.2.

Definition discovery_key (d : Discovery) : string :=
  key_of (d_method d, d_url d).

(** Every entry sits under the key made from its own method and URL. *)
Definition well_keyed (reg : gmap string Endpoint) : Prop :=
  forall k e, reg !! k = Some e -> k = key_of (identity e).

End SpiderCrawler.

(* ===================================================================== *)
(** * [src/lib/spider-crawler.ts]: a session and its effects *)
(* ===================================================================== *)

(** The asynchronous methods [initialize], [fetchPageContent], [crawl] and
    [cleanup] are modelled in a state-and-exception monad over the fields of
    the crawler object.  What the world answers (whether the browser
    launches, what a page load or an HTTP request yields) is read from an
    [Environment]; every call that leaves the process is logged as an
    [Event].  The model keeps the control flow and the calls made; what the
    network-interception handlers add to the registry while a page loads is
    left out. *)

Module Session.
Import SpiderCrawler.

Inductive Event : Type :=
| Launch                         (* puppeteer.launch(...) *)
| NewPage                        (* browser.newPage() *)
| Goto (url : string)            (* page.goto(url, ...) *)
| ClosePage                      (* page.close() *)
| HttpGet (url : string)         (* axios.get(url, ...) *)
| Progress (p : ScanProgress)    (* this.onProgress(p) *)
| Warn (msg : string)            (* console.warn(msg, ...) *)
| CloseBrowser.                  (* browser.close() *)


(** What happens when the browser is asked for a page. *)
Inductive Rendering : Type :=
| PageFails (msg : string)         (* browser.newPage() rejects *)
| NavigationFails (msg : string)   (* page.goto(url) rejects *)
| Rendered (content : string).     (* page.content() *)

Record Environment : Type := mkEnvironment {
  launches : bool;                     (* puppeteer.launch resolves *)
  renders : string -> Rendering;
  responds : string -> option string   (* the body axios.get resolves
                                          with; None when it rejects *)
}.

(** The fields of the crawler object. *)
Record Crawler : Type := mkCrawler {
  config : ScannerConfig;
  browser : bool;                           (* this.browser !== null *)
  visitedUrls : gset string;
  foundEndpoints : gmap string Endpoint;
  errors : list CrawlError;
  onProgress : bool;                        (* a callback was given *)
  events : list Event                       (* the log, oldest first *)
}.


Inductive Result (A : Type) : Type :=
| Returned (a : A)
| Thrown (msg : string).
Arguments Returned {A} a.
Arguments Thrown {A} msg.

Definition M (A : Type) : Type := Crawler -> Result A * Crawler.

#[global] Instance M_ret : MRet M := fun A a c => (Returned a, c).

#[global] Instance M_bind : MBind M := fun A B k m c =>
  match m c with
  | (Returned a, c') => k a c'
  | (Thrown msg, c') => (Thrown msg, c')
  end.

Definition throw {A : Type} (msg : string) : M A :=
  fun c => (Thrown msg, c).

Definition get : M Crawler := fun c => (Returned c, c).

Definition modify (f : Crawler -> Crawler) : M unit :=
  fun c => (Returned tt, f c).

(** [try { m } catch (error) { handler(error) }] *)
Definition try_catch {A : Type} (m : M A) (handler : string -> M A) : M A :=
  fun c =>
    match m c with
    | (Returned a, c') => (Returned a, c')
    | (Thrown msg, c') => handler msg c'
    end.

(** [try { m } finally { final }] *)
Definition try_finally {A : Type} (m : M A) (final : M unit) : M A :=
  fun c =>
    let '(r, c') := m c in
    match final c' with
    | (Returned _, c'') => (r, c'')
    | (Thrown msg, c'') => (Thrown msg, c'')
    end.

Definition emit (e : Event) : M unit :=
  modify (fun c =>
    {| config := config c; browser := browser c;
       visitedUrls := visitedUrls c; foundEndpoints := foundEndpoints c;
       errors := errors c; onProgress := onProgress c;
       events := events c ++ [e] |}).

Definition set_browser (b : bool) : M unit :=
  modify (fun c =>
    {| config := config c; browser := b;
       visitedUrls := visitedUrls c; foundEndpoints := foundEndpoints c;
       errors := errors c; onProgress := onProgress c;
       events := events c |}).

(** [this.config.enableJavaScript = false] *)
Definition disable_javascript : M unit :=
  modify (fun c =>
    {| config :=
         {| maxDepth := maxDepth (config c);
            maxPages := maxPages (config c);
            respectRobots := respectRobots (config c);
            includeExternalLinks := includeExternalLinks (config c);
            crawlDelay := crawlDelay (config c);
            userAgent := userAgent (config c);
            enableJavaScript := false;
            timeout := timeout (config c) |};
       browser := browser c;
       visitedUrls := visitedUrls c; foundEndpoints := foundEndpoints c;
       errors := errors c; onProgress := onProgress c;
       events := events c |}).

(** [this.errors.push({ url, error, timestamp })] *)
Definition push_error (url msg : string) : M unit :=
  modify (fun c =>
    {| config := config c; browser := browser c;
       visitedUrls := visitedUrls c; foundEndpoints := foundEndpoints c;
       errors := errors c ++ [mkCrawlError url msg];
       onProgress := onProgress c; events := events c |}).

(** The result of a completed session (the timing and the statistics
    derived from the endpoint list are left out). *)
Record CrawlResult : Type := mkCrawlResult {
  domain : string;
  result_endpoints : list Endpoint;
  totalPages : nat;
  result_errors : list CrawlError
}.

Section Methods.
Context `{parser : Url.Parser}.
Variable env : Environment.

(** The part of [crawl] that follows the validation of the domain: the
    robots.txt check, the discovery strategies, the parallel crawl, the
    analyses and the assembly of the result. *)
Variable stages : string -> M CrawlResult.

Definition updateProgress (p : ScanProgress) : M unit :=
  c ← get;
  if onProgress c then emit (Progress p) else mret tt.

Definition initialize : M unit :=
  c ← get;
  if enableJavaScript (config c) && negb (browser c) then
    try_catch
      (emit Launch;;
       if launches env then set_browser true
       else throw "Failed to launch the browser process")
      (fun _ =>
         emit (Warn "Failed to initialize Puppeteer, falling back to non-JS mode:");;
         disable_javascript)
  else mret tt.

Definition cleanup : M unit :=
  c ← get;
  if browser c then emit CloseBrowser;; set_browser false else mret tt.

Definition fetchWithPuppeteer (url : string) : M string :=
  c ← get;
  if negb (browser c) then throw "Browser not initialized"
  else
    emit NewPage;;
    match renders env url with
    | PageFails msg => throw msg
    | NavigationFails msg =>
        try_finally (emit (Goto url);; throw msg) (emit ClosePage)
    | Rendered content =>
        try_finally (emit (Goto url);; mret content) (emit ClosePage)
    end.

Definition fetchWithAxios (url : string) : M string :=
  emit (HttpGet url);;
  match responds env url with
  | Some data => mret data
  | None => throw "Request failed"
  end.

(** The result is the content, or [None] for [null]. *)
Definition fetchPageContent (url : string) : M (option string) :=
  try_catch
    (c ← get;
     if enableJavaScript (config c) && browser c then
       try_catch
         (content ← fetchWithPuppeteer url; mret (Some content))
         (fun _ =>
            emit (Warn ("Puppeteer failed for " +:+ url +:+ ", falling back to Axios:"));;
            content ← fetchWithAxios url; mret (Some content))
     else
       content ← fetchWithAxios url; mret (Some content))
    (fun msg =>
       push_error url ("Failed to fetch: " +:+ msg);;
       mret None).

Definition crawl (domain : string) : M CrawlResult :=
  try_finally
    (try_catch
       (initialize;;
        updateProgress {|
          stage := initializing; progress := 0; currentUrl := None;
          pagesScanned := 0; endpointsFound := 0;
          message := "Initializing crawler..." |};;
        (* Validate domain *)
        match normalizeUrl domain with
        | None => throw "Invalid domain provided"
        | Some baseUrl => stages baseUrl
        end)
       (fun msg =>
          c ← get;
          updateProgress {|
            stage := error; progress := 0; currentUrl := None;
            pagesScanned := size (visitedUrls c);
            endpointsFound := size (foundEndpoints c);
            message := "Error: " +:+ msg |};;
          throw msg))
    cleanup.

End Methods.

(** A page load that does not produce content. *)
Definition rendering_fails (r : Rendering) : Prop :=
  match r with
  | Rendered _ => False
  | PageFails _ | NavigationFails _ => True
  end.





End Session.

(* ===================================================================== *)
(** * [src/lib/spider-crawler.ts]: a session whose teardown can fail *)
(* ===================================================================== *)

(** The calls that release a resource can reject too: [page.close()] in the
    [finally] of [fetchWithPuppeteer], [browser.close()] in [cleanup], and
    the calls made on a fresh page before it is navigated
    ([setRequestInterception], [setUserAgent], [setViewport]).  This module
    models [fetchWithPuppeteer], [fetchPageContent], [cleanup] and [crawl]
    over a world that decides these as well; with no such fault it is the
    model of [Session]. *)

Module SessionFaults.
Import SpiderCrawler Session.

Record Faults : Type := mkFaults {
  (* a call made on the page of a URL before [page.goto] rejects *)
  setup_fails : string -> option string;
  (* [page.close()] rejects, for the page of a URL *)
  page_close_fails : string -> option string;
  (* [browser.close()] rejects *)
  browser_close_fails : option string
}.

(** The world of [Session]: every one of these calls resolves. *)
Definition none : Faults :=
  {| setup_fails := fun _ => None;
     page_close_fails := fun _ => None;
     browser_close_fails := None |}.

Section Methods.
Context `{parser : Url.Parser}.
Variable env : Environment.
Variable faults : Faults.
Variable stages : string -> M CrawlResult.

(** [await this.browser.close(); this.browser = null;] *)
Definition cleanup : M unit :=
  c ← get;
  if browser c then
    emit CloseBrowser;;
    match browser_close_fails faults with
    | Some msg => throw msg
    | None => set_browser false
    end
  else mret tt.

(** [await page.setRequestInterception(true); ...;
     await page.setUserAgent(...); await page.setViewport(...);] *)
Definition setup (url : string) : M unit :=
  match setup_fails faults url with
  | Some msg => throw msg
  | None => mret tt
  end.

(** [await page.close()] *)
Definition close_page (url : string) : M unit :=
  emit ClosePage;;
  match page_close_fails faults url with
  | Some msg => throw msg
  | None => mret tt
  end.

Definition fetchWithPuppeteer (url : string) : M string :=
  c ← get;
  if negb (browser c) then throw "Browser not initialized"
  else
    emit NewPage;;
    match renders env url with
    | PageFails msg => throw msg
    | NavigationFails msg =>
        try_finally (setup url;; emit (Goto url);; throw msg)
          (close_page url)
    | Rendered content =>
        try_finally (setup url;; emit (Goto url);; mret content)
          (close_page url)
    end.

Definition fetchPageContent (url : string) : M (option string) :=
  try_catch
    (c ← get;
     if enableJavaScript (config c) && browser c then
       try_catch
         (content ← fetchWithPuppeteer url; mret (Some content))
         (fun _ =>
            emit (Warn ("Puppeteer failed for " +:+ url +:+ ", falling back to Axios:"));;
            content ← fetchWithAxios env url; mret (Some content))
     else
       content ← fetchWithAxios env url; mret (Some content))
    (fun msg =>
       push_error url ("Failed to fetch: " +:+ msg);;
       mret None).

(** The [try { ... } catch (error) { ... }] of [crawl]. *)
Definition attempt (domain : string) : M CrawlResult :=
  try_catch
    (initialize env;;
     updateProgress {|
       stage := initializing; progress := 0; currentUrl := None;
       pagesScanned := 0; endpointsFound := 0;
       message := "Initializing crawler..." |};;
     (* Validate domain *)
     match normalizeUrl domain with
     | None => throw "Invalid domain provided"
     | Some baseUrl => stages baseUrl
     end)
    (fun msg =>
       c ← get;
       updateProgress {|
         stage := error; progress := 0; currentUrl := None;
         pagesScanned := size (visitedUrls c);
         endpointsFound := size (foundEndpoints c);
         message := "Error: " +:+ msg |};;
       throw msg).

(** [crawl]: the attempt, and [finally { await this.cleanup(); }]. *)
Definition crawl (domain : string) : M CrawlResult :=
  try_finally (attempt domain) cleanup.

End Methods.





End SessionFaults.

(* ===================================================================== *)
(** * [src/lib/spider-crawler.ts]: the parallel crawl loop *)
(* ===================================================================== *)

(** [crawlParallel] and the calls of [crawlSingle] it starts run on one
    event loop: each runs without interruption up to its next [await], and
    the order in which suspended calls are resumed is decided by the world
    (the rate limiter, the network).  The model is a machine whose state
    holds the fields of the crawler and the point at which every call
    stands; a schedule is the list of resumptions the world makes. *)

Module Parallel.
Import SpiderCrawler.

(** Where a call of [crawlSingle] stands. *)
Inductive Phase : Type :=
| AwaitingRate        (* at [await this.rateLimiter.consume(...)] *)
| AwaitingFetch       (* at [await this.fetchPageContent(url)] *)
| AwaitingExtraction (links : list string)
                      (* at the awaited extractions; [links] is what
                         [this.extractLinks(content, url)] will return *)
| Settling.           (* returned or caught; its [finally] callback, which
                         removes it from [activeCrawls], has not run yet *)

Record Crawl : Type := mkCrawl {
  promise : nat;
  target : string;
  phase : Phase
}.

(** Where [crawlParallel] stands. *)
Inductive Main : Type :=
| Looping      (* about to test the condition of the outer loop *)
| Racing       (* at [await Promise.race(this.activeCrawls)] *)
| Draining     (* at [await Promise.all(this.activeCrawls)] *)
| Finished.

Record State : Type := mkState {
  crawlQueue : list string;
  visitedUrls : gset string;
  activeCrawls : list Crawl;
  errors : list CrawlError;
  main : Main;
  raced : bool;          (* an active crawl has settled since the race began *)
  next_promise : nat
}.

(** What resumes a suspended call of [crawlSingle]. *)
Inductive Wakeup : Type :=
| Granted                                (* the rate limiter resolves *)
| Refused (msg : string)                 (* the rate limiter rejects *)
| Fetched (page : option (list string))  (* the fetch resolves with null,
                                            or with a page and its links *)
| Extracted                              (* the extractions resolve *)
| ExtractionFailed (msg : string)        (* an extraction throws *)
| Settle.                                (* the [finally] callback runs *)

Inductive Action : Type :=
| Wake (p : nat) (w : Wakeup)   (* crawl [p] is resumed *)
| Continue.                     (* [crawlParallel] is resumed *)

(** The state at the call of [crawlParallel]: the discovery strategies and
    [crawl] have filled the queue, nothing has been visited. *)
Definition start (queue : list string) : State :=
  {| crawlQueue := queue; visitedUrls := ∅; activeCrawls := [];
     errors := []; main := Looping; raced := false; next_promise := 0 |}.

Definition with_queue (queue : list string) (st : State) : State :=
  {| crawlQueue := queue; visitedUrls := visitedUrls st;
     activeCrawls := activeCrawls st; errors := errors st;
     main := main st; raced := raced st; next_promise := next_promise st |}.

Definition with_main (m : Main) (r : bool) (st : State) : State :=
  {| crawlQueue := crawlQueue st; visitedUrls := visitedUrls st;
     activeCrawls := activeCrawls st; errors := errors st;
     main := m; raced := r; next_promise := next_promise st |}.

Definition with_active (active : list Crawl) (st : State) : State :=
  {| crawlQueue := crawlQueue st; visitedUrls := visitedUrls st;
     activeCrawls := active; errors := errors st;
     main := main st; raced := raced st; next_promise := next_promise st |}.

(** [this.visitedUrls.add(url)] *)
Definition visit (url : string) (st : State) : State :=
  {| crawlQueue := crawlQueue st; visitedUrls := visitedUrls st ∪ {[url]};
     activeCrawls := activeCrawls st; errors := errors st;
     main := main st; raced := raced st; next_promise := next_promise st |}.

(** [this.errors.push(...)] *)
Definition log_error (url msg : string) (st : State) : State :=
  {| crawlQueue := crawlQueue st; visitedUrls := visitedUrls st;
     activeCrawls := activeCrawls st;
     errors := errors st ++ [mkCrawlError url msg];
     main := main st; raced := raced st; next_promise := next_promise st |}.

Definition set_phase (p : nat) (ph : Phase) (st : State) : State :=
  with_active
    (map (fun c => if bool_decide (promise c = p)
                   then mkCrawl (promise c) (target c) ph else c)
       (activeCrawls st))
    st.

(** [this.activeCrawls.delete(crawlPromise)], which settles the promise. *)
Definition settle (p : nat) (st : State) : State :=
  {| crawlQueue := crawlQueue st; visitedUrls := visitedUrls st;
     activeCrawls :=
       List.filter (fun c => negb (bool_decide (promise c = p)))
         (activeCrawls st);
     errors := errors st; main := main st; raced := true;
     next_promise := next_promise st |}.

Section Machine.
Context `{parser : Url.Parser}.
Variable config : ScannerConfig.

(** The part of [crawlSingle] that runs at the call: the guard. *)
Definition crawlSingle_entry (url : string) (st : State) : Phase :=
  if bool_decide (url ∈ visitedUrls st)
     || bool_decide (maxPages config <= size (visitedUrls st))
  then Settling
  else AwaitingRate.

(** [this.activeCrawls.add(this.crawlSingle(url).finally(...))] *)
Definition launch (url : string) (st : State) : State :=
  {| crawlQueue := crawlQueue st; visitedUrls := visitedUrls st;
     activeCrawls :=
       activeCrawls st
         ++ [mkCrawl (next_promise st) url (crawlSingle_entry url st)];
     errors := errors st; main := main st; raced := raced st;
     next_promise := S (next_promise st) |}.

(** The inner loop of [crawlParallel]: launch concurrent crawls up to the
    limit.  Every turn shifts one URL off the queue, so the length of the
    queue is fuel enough. *)
Fixpoint fill (fuel : nat) (st : State) : State :=
  match fuel with
  | O => st
  | S fuel' =>
      if bool_decide (length (activeCrawls st) < maxConcurrentCrawls) then
        match crawlQueue st with
        | [] => st
        | url :: queue =>
            let st := with_queue queue st in
            fill fuel'
              (if negb (String.eqb url "")
                  && negb (bool_decide (url ∈ visitedUrls st))
               then launch url st else st)
        end
      else st
  end.

(** [crawlParallel] runs up to its next [await]. *)
Definition continue (st : State) : option State :=
  match main st with
  | Looping =>
      if negb (bool_decide (crawlQueue st = []))
         && bool_decide (size (visitedUrls st) < maxPages config)
      then
        let st := fill (length (crawlQueue st)) st in
        (* Wait for at least one crawl to complete *)
        if bool_decide (activeCrawls st = []) then Some st
        else Some (with_main Racing false st)
      else
        (* Wait for all remaining crawls to complete *)
        Some (with_main Draining (raced st) st)
  | Racing =>
      if raced st then Some (with_main Looping false st) else None
  | Draining =>
      if bool_decide (activeCrawls st = [])
      then Some (with_main Finished (raced st) st) else None
  | Finished => None
  end.

(** [crawlSingle] runs from one [await] to the next. *)
Definition resume (c : Crawl) (w : Wakeup) (st : State) : option State :=
  match phase c, w with
  | AwaitingRate, Granted =>
      Some (set_phase (promise c) AwaitingFetch (visit (target c) st))
  | AwaitingRate, Refused msg =>
      Some (set_phase (promise c) Settling (log_error (target c) msg st))
  | AwaitingFetch, Fetched None =>
      Some (set_phase (promise c) Settling st)
  | AwaitingFetch, Fetched (Some links) =>
      Some (set_phase (promise c) (AwaitingExtraction links) st)
  | AwaitingExtraction links, Extracted =>
      (* Extract and queue more links for parallel crawling *)
      let followed :=
        List.filter
          (fun link => shouldCrawlUrl config link (target c)
                       && negb (bool_decide (link ∈ visitedUrls st)))
          links in
      Some (set_phase (promise c) Settling
              (with_queue (crawlQueue st ++ followed) st))
  | AwaitingExtraction _, ExtractionFailed msg =>
      Some (set_phase (promise c) Settling (log_error (target c) msg st))
  | Settling, Settle => Some (settle (promise c) st)
  | _, _ => None
  end.

Definition step (a : Action) (st : State) : option State :=
  match a with
  | Continue => continue st
  | Wake p w =>
      match List.find (fun c => bool_decide (promise c = p))
              (activeCrawls st) with
      | Some c => resume c w st
      | None => None
      end
  end.

(** The state a schedule leads to ([None] if it asks for a resumption that
    is not possible). *)
Fixpoint run (schedule : list Action) (st : State) : option State :=
  match schedule with
  | [] => Some st
  | a :: schedule' =>
      match step a st with
      | Some st' => run schedule' st'
      | None => None
      end
  end.

End Machine.

(** The crawls that are past the guard but have not yet recorded their
    URL as visited. *)
Definition awaiting_rate (c : Crawl) : bool :=
  match phase c with
  | AwaitingRate => true
  | _ => false
  end.

Definition pending (st : State) : nat :=
  length (List.filter awaiting_rate (activeCrawls st)).

(** The invariant of the machine: at most [maxConcurrentCrawls] crawls are
    active, and the visited URLs together with the crawls that have passed
    the guard without having recorded their URL stay within the page budget
    plus the other concurrent slots. *)
Definition within_budget (config : ScannerConfig) (st : State) : Prop :=
  length (activeCrawls st) <= maxConcurrentCrawls /\
  size (visitedUrls st) + pending st
  <= maxPages config + (maxConcurrentCrawls - 1).

End Parallel.

(* ===================================================================== *)
(** * JavaScript array helpers *)
(* ===================================================================== *)

Module Arr.

(** [[...new Set(l)]]: the distinct elements of [l], each at the place of
    its first occurrence. *)
Fixpoint unique_from (seen l : list string) : list string :=
  match l with
  | [] => []
  | x :: l' =>
      if bool_decide (x ∈ seen) then unique_from seen l'
      else x :: unique_from (x :: seen) l'
  end.

Definition unique (l : list string) : list string := unique_from [] l.

(** [l.includes(x)] on strings. *)
Definition includes (l : list string) (x : string) : bool :=
  bool_decide (x ∈ l).

End Arr.

(* ===================================================================== *)
(** * [src/lib/pattern-matcher.ts]: extraction of endpoints from text *)
(* ===================================================================== *)

Module EndpointPatterns.
Import Regex.

(** A regular expression literal and its text, [pattern.source]. *)
Record Pattern : Type := mkPattern {
  source : string;
  expr : re
}.

Definition letter : re := Chr Str.is_alpha.                     (* [a-zA-Z] *)
Definition letter_ : re :=                                      (* [a-zA-Z_] *)
  Chr (fun a => Str.is_alpha a || Ascii.eqb a "_").

(** [ext(\?|$)] *)
Definition extension (ext : string) : re :=
  Cat (str ext) (Alt (lit "?") Eol).

(** Common API endpoint patterns *)
Definition API_PATTERNS : list Pattern :=
  [ (* RESTful patterns *)
    mkPattern "\/api\/v?\d*\/[a-zA-Z]+"
      (cats [str "/api/"; opt (lit "v"); Star digit; lit "/"; plus letter]);
    mkPattern "\/rest\/[a-zA-Z]+" (cats [str "/rest/"; plus letter]);
    mkPattern "\/graphql" (str "/graphql");
    (* Common API paths *)
    mkPattern "\/users?\/?\d*"
      (cats [str "/user"; opt (lit "s"); opt (lit "/"); Star digit]);
    mkPattern "\/auth\/[a-zA-Z]+" (cats [str "/auth/"; plus letter]);
    mkPattern "\/login|\/register|\/logout"
      (alts [str "/login"; str "/register"; str "/logout"]);
    mkPattern "\/search\?" (str "/search?");
    mkPattern "\/upload|\/download" (alts [str "/upload"; str "/download"]);
    (* Parameter patterns *)
    mkPattern "\?[a-zA-Z_]+=|&[a-zA-Z_]+="
      (Alt (cats [lit "?"; plus letter_; lit "="])
           (cats [lit "&"; plus letter_; lit "="]));
    mkPattern "\/\{[a-zA-Z_]+\}" (cats [str "/{"; plus letter_; lit "}"]);
    mkPattern "\/:\w+" (cats [str "/:"; plus word]);
    (* File extensions that might contain APIs *)
    mkPattern "\.json(\?|$)" (extension ".json");
    mkPattern "\.xml(\?|$)" (extension ".xml");
    mkPattern "\.php(\?|$)" (extension ".php");
    mkPattern "\.asp(\?|$)" (extension ".asp");
    mkPattern "\.jsp(\?|$)" (extension ".jsp") ].

(** [PatternMatch] of [types.ts] *)
Record PatternMatch : Type := mkPatternMatch {
  pattern : string;
  matches : list string;
  confidence : float
}.

Definition normalizeEndpoint `{parser : Url.Parser}
  (endpoint baseUrl : string) : option string :=
  (* Handle relative URLs *)
  if Str.startsWith endpoint "/" then
    match Url.new_URL baseUrl with
    | Some base =>
        Some (Url.protocol base +:+ "//" +:+ Url.host base +:+ endpoint)
    | None => None (* catch *)
    end
  (* Handle absolute URLs *)
  else if Str.startsWith endpoint "http" then Some endpoint
  (* Handle relative paths without leading slash *)
  else if negb (Str.includes endpoint "://") then
    match Url.new_URL baseUrl with
    | Some base =>
        Some (Url.protocol base +:+ "//" +:+ Url.host base +:+ "/"
                +:+ endpoint)
    | None => None (* catch *)
    end
  else Some endpoint.

(** [.map(match => this.normalizeEndpoint(match[0], baseUrl))
     .filter(Boolean)]: [null] and the empty string are dropped. *)
Definition normalized_matches `{parser : Url.Parser}
  (p : Pattern) (content baseUrl : string) : list string :=
  List.filter (fun m => negb (String.eqb m ""))
    (omap (fun m => normalizeEndpoint m baseUrl)
       (match_all (expr p) content)).

Definition extractEndpoints `{parser : Url.Parser}
  (content baseUrl : string) : list PatternMatch :=
  flat_map
    (fun p =>
       let matches := normalized_matches p content baseUrl in
       if bool_decide (0 < length matches) then
         [ {| pattern := source p;
              matches := Arr.unique matches; (* Remove duplicates *)
              confidence :=
                PatternMatcher.calculateConfidence (source p)
                  (length matches) |} ]
       else [])
    API_PATTERNS.

End EndpointPatterns.

(* ===================================================================== *)
(** * [src/lib/wasm-pattern-matcher.ts]: pattern positions and URLs *)
(* ===================================================================== *)

Module WasmMatcher.
Import Regex.

Definition patterns : list string :=
  ["/api/"; "/rest/"; "/graphql"; "fetch("; "axios."; ".json"; "/users";
   "/auth/"].

(** The first position at or after [pos] at which [p] occurs, [s] being
    the text from position [pos] on. *)
Fixpoint find_at (p s : string) (pos : nat) : option nat :=
  if Str.startsWith s p then Some pos
  else match s with
       | EmptyString => None
       | String _ s' => find_at p s' (S pos)
       end.

(** [s.indexOf(p, from)]; [None] is [-1]. *)
Definition indexOf (s p : string) (from : nat) : option nat :=
  let from := Nat.min from (String.length s) in
  find_at p (Str.drop from s) from.

(** The loop over one pattern: [index] is where the search resumes.  Every
    turn moves [index] forward, so the length of the content is fuel
    enough. *)
Fixpoint scan (fuel : nat) (content p : string) (patternIndex index : nat)
  : list nat :=
  match fuel with
  | O => []
  | S fuel' =>
      if bool_decide (index < String.length content) then
        match indexOf content p index with
        | None => [] (* break *)
        | Some found =>
            patternIndex :: found
              :: scan fuel' content p patternIndex (found + String.length p)
        end
      else []
  end.

(** The result is a flat array of (pattern index, position) pairs. *)
Definition matchAPIPatterns (content : string) : list nat :=
  concat
    (imap (fun patternIndex p =>
             scan (String.length content) content p patternIndex 0)
       patterns).

(** Reads a flat array two numbers at a time. *)
Fixpoint pairs (l : list nat) : list (nat * nat) :=
  match l with
  | i :: found :: l' => (i, found) :: pairs l'
  | _ => []
  end.

(** [\s] on characters below 256. *)
Definition is_space (a : ascii) : bool :=
  let c := Str.code a in
  ((9 <=? c) && (c <=? 13) || (c =? 32) || (c =? 160))%N.

Definition dquote : ascii := "034".

(** The class of [urlRegex]: anything but white space, a double or single
    quote, a closing parenthesis and a closing brace. *)
Definition url_char (a : ascii) : bool :=
  negb (is_space a || Ascii.eqb a dquote || Ascii.eqb a "'"
        || Ascii.eqb a ")" || Ascii.eqb a "}").

(** [/https?:\/\/CLASS+/g], with the class above. *)
Definition urlRegex : re :=
  cats [str "http"; opt (lit "s"); str "://"; plus (Chr url_char)].

Definition extractURLs (content : string) : list string :=
  Arr.unique (match_all urlRegex content).

End WasmMatcher.

(* ===================================================================== *)
(** * [src/lib/spider-crawler.ts]: the sequential crawl *)
(* ===================================================================== *)

(** [crawlRecursive] awaits every call it makes, so a session of it is one
    sequential computation.  The world decides, call by call, whether the
    rate limiter lets the crawl through and what the fetch and the
    extractions yield.  The progress callback is taken to return. *)

Module Sequential.
Import SpiderCrawler.

(** What happens between the fetch and the loop over the links. *)
Inductive Page : Type :=
| NoContent                        (* [fetchPageContent] returns null *)
| Content (links : list string)    (* a page; [links] is what
                                      [this.extractLinks(content, url)]
                                      returns *)
| ExtractionFails (msg : string).  (* an extraction throws *)

Record World : Type := mkWorld {
  (* the n-th call of [rateLimiter.consume]: resolves, or rejects with a
     message *)
  grants : nat -> option string;
  (* the n-th call of [fetchPageContent], on a URL *)
  responds : nat -> string -> Page
}.

Record State : Type := mkState {
  visitedUrls : gset string;
  errors : list CrawlError;
  consumed : nat;              (* calls of [rateLimiter.consume] so far *)
  fetched : list string;       (* the URLs fetched so far, in order *)
  reported : list nat          (* [pagesScanned] of the progress updates *)
}.

Definition start : State :=
  {| visitedUrls := ∅; errors := []; consumed := 0; fetched := [];
     reported := [] |}.

(** [await this.rateLimiter.consume('spider-crawler')] *)
Definition consume (st : State) : State :=
  {| visitedUrls := visitedUrls st; errors := errors st;
     consumed := S (consumed st); fetched := fetched st;
     reported := reported st |}.

(** [this.visitedUrls.add(url)] followed by [this.updateProgress(...)] *)
Definition visit (url : string) (st : State) : State :=
  {| visitedUrls := visitedUrls st ∪ {[url]}; errors := errors st;
     consumed := consumed st; fetched := fetched st;
     reported := reported st ++ [size (visitedUrls st ∪ {[url]})] |}.

(** [await this.fetchPageContent(url)] *)
Definition fetch (url : string) (st : State) : State :=
  {| visitedUrls := visitedUrls st; errors := errors st;
     consumed := consumed st; fetched := fetched st ++ [url];
     reported := reported st |}.

(** [this.errors.push(...)] *)
Definition log_error (url msg : string) (st : State) : State :=
  {| visitedUrls := visitedUrls st;
     errors := errors st ++ [mkCrawlError url msg];
     consumed := consumed st; fetched := fetched st;
     reported := reported st |}.

(** [for (const link of links) { ... }]; [None] when the body runs out of
    fuel. *)
Fixpoint for_each (body : string -> State -> option State)
  (links : list string) (st : State) : option State :=
  match links with
  | [] => Some st
  | link :: links' =>
      match body link st with
      | Some st' => for_each body links' st'
      | None => None
      end
  end.

Section Crawl.
Context `{parser : Url.Parser}.
Variable config : ScannerConfig.
Variable world : World.

(** Every call below the first is one level deeper, and a call deeper than
    [maxDepth] returns at once: the fuel bounds the depth of the
    recursion.  [None] is a call that ran out of fuel; a call never
    throws. *)
Fixpoint crawlRecursive (fuel : nat) (url : string) (depth : nat)
  (st : State) : option State :=
  match fuel with
  | O => None
  | S fuel' =>
      (* Check limits *)
      if bool_decide (maxDepth config < depth)
         || bool_decide (maxPages config <= size (visitedUrls st))
         || bool_decide (url ∈ visitedUrls st)
      then Some st
      else
        (* Rate limiting *)
        match grants world (consumed st) with
        | Some msg => Some (log_error url msg (consume st))
        | None =>
            let st := visit url (consume st) in
            let page := responds world (length (fetched st)) url in
            let st := fetch url st in
            match page with
            | NoContent => Some st
            | ExtractionFails msg => Some (log_error url msg st)
            | Content links =>
                (* Crawl discovered links *)
                for_each
                  (fun link st =>
                     if shouldCrawlUrl config link url
                     then crawlRecursive fuel' link (S depth) st
                     else Some st)
                  links st
            end
        end
  end.

End Crawl.

(** What a sequential session keeps: the visited URLs are within the page
    budget, they are exactly the URLs fetched, none was fetched twice, and
    no progress update reported more pages than the budget. *)
Definition within_budget (config : ScannerConfig) (st : State) : Prop :=
  size (visitedUrls st) <= maxPages config /\
  NoDup (fetched st) /\
  (forall url, url ∈ fetched st <-> url ∈ visitedUrls st) /\
  Forall (fun pages => pages <= maxPages config) (reported st).

End Sequential.

(* ===================================================================== *)
(** * [src/store/scanner-store.ts]: the graph and the history *)
(* ===================================================================== *)

From stdpp Require Import pretty.

Module ScannerStore.
Import SpiderCrawler.

Inductive NodeType : Type := domain_node | endpoint_node | parameter_node.

Inductive NodeSecurity : Type := safe | warning | danger.

Inductive LinkType : Type := contains | calls | references.

(** [GraphNode] and [GraphLink] of [types.ts] *)
Record GraphNode : Type := mkGraphNode {
  node_id : string;
  node_name : string;
  node_type : NodeType;
  node_method : option string;
  node_statusCode : option Z;
  node_security : option NodeSecurity;
  node_size : nat;
  node_color : string
}.

Record GraphLink : Type := mkGraphLink {
  link_source : string;
  link_target : string;
  link_type : LinkType;
  link_strength : float
}.

Record GraphData : Type := mkGraphData {
  nodes : list GraphNode;
  links : list GraphLink
}.

(** Color by HTTP method *)
Definition getEndpointColor (endpoint : Endpoint) : string :=
  if String.eqb (method endpoint) "GET" then "#10b981"          (* green *)
  else if String.eqb (method endpoint) "POST" then "#f59e0b"    (* yellow *)
  else if String.eqb (method endpoint) "PUT" then "#3b82f6"     (* blue *)
  else if String.eqb (method endpoint) "DELETE" then "#ef4444"  (* red *)
  else if String.eqb (method endpoint) "PATCH" then "#8b5cf6"   (* purple *)
  else "#6b7280".                                               (* gray *)

Definition domainNode (results : Session.CrawlResult) : GraphNode := {|
  node_id := "domain";
  node_name := Session.domain results;
  node_type := domain_node;
  node_method := None;
  node_statusCode := None;
  node_security := None;
  node_size := 20;
  node_color := "#3b82f6"
|}.

(** No endpoint of the crawler carries a status code, so the
    [statusCode] of an endpoint node is undefined. *)
Definition endpointNode (endpoint : Endpoint) (urlObj : Url.URL)
  : GraphNode := {|
  node_id := id endpoint;
  node_name := method endpoint +:+ " " +:+ Url.pathname urlObj;
  node_type := endpoint_node;
  node_method := Some (method endpoint);
  node_statusCode := None;
  node_security :=
    Some match riskLevel <$> security endpoint with
         | Some high | Some critical => danger
         | Some medium => warning
         | _ => safe
         end;
  node_size := 10 + length (parameters endpoint) * 2;
  node_color := getEndpointColor endpoint
|}.

Definition paramId (endpoint : Endpoint) (index : nat) : string :=
  id endpoint +:+ "_param_" +:+ pretty index.

Definition paramNode (endpoint : Endpoint) (index : nat) (param : Param)
  : GraphNode := {|
  node_id := paramId endpoint index;
  node_name := name param;
  node_type := parameter_node;
  node_method := None;
  node_statusCode := None;
  node_security := None;
  node_size := 5;
  node_color := "#10b981"
|}.

(** Link endpoint to domain *)
Definition domainLink (endpoint : Endpoint) : GraphLink :=
  {| link_source := "domain"; link_target := id endpoint;
     link_type := contains; link_strength := 1 |}.

(** Link parameter to endpoint *)
Definition paramLink (endpoint : Endpoint) (index : nat) (param : Param)
  : GraphLink :=
  {| link_source := id endpoint; link_target := paramId endpoint index;
     link_type := contains; link_strength := 0.5 |}.

(** One turn of [results.endpoints.forEach]: the pushes to [nodes] and
    [links]; [None] when [new URL(endpoint.url)] throws. *)
Definition addEndpoint `{parser : Url.Parser} (graph : GraphData)
  (endpoint : Endpoint) : option GraphData :=
  match Url.new_URL (url endpoint) with
  | None => None
  | Some urlObj =>
      Some {|
        nodes := nodes graph
                   ++ endpointNode endpoint urlObj
                   :: imap (paramNode endpoint) (parameters endpoint);
        links := links graph
                   ++ domainLink endpoint
                   :: imap (paramLink endpoint) (parameters endpoint) |}
  end.

(** The same turn, skipped once an earlier one has thrown. *)
Definition pushEndpoint `{parser : Url.Parser} (graph : option GraphData)
  (endpoint : Endpoint) : option GraphData :=
  graph ← graph; addEndpoint graph endpoint.

(** The graph [updateGraphData] stores; [None] when it throws, in which
    case the store is not written. *)
Definition updateGraphData `{parser : Url.Parser}
  (results : Session.CrawlResult) : option GraphData :=
  foldl pushEndpoint
    (Some {| nodes := [domainNode results]; links := [] |})
    (Session.result_endpoints results).

(** [addToHistory]: keep last 10 *)
Definition addToHistory {A : Type} (result : A) (scanHistory : list A)
  : list A :=
  result :: take 9 scanHistory.

(** The fields of the store that [setResults] writes. *)
Record Store : Type := mkStore {
  results : option Session.CrawlResult;   (* currentScan.results *)
  isScanning : bool;                      (* currentScan.isScanning *)
  graphData : GraphData;
  scanHistory : list Session.CrawlResult
}.

Definition initial : Store :=
  {| results := None; isScanning := false;
     graphData := {| nodes := []; links := [] |}; scanHistory := [] |}.

(** [setResults]: the results are stored first; the graph and the history
    follow, unless [updateGraphData] throws. *)
Definition setResults `{parser : Url.Parser}
  (r : Session.CrawlResult) (store : Store)
  : Session.Result unit * Store :=
  let store :=
    {| results := Some r; isScanning := false;
       graphData := graphData store; scanHistory := scanHistory store |} in
  (* Update graph data *)
  match updateGraphData r with
  | None => (Session.Thrown "Invalid URL", store)
  | Some graph =>
      (* Add to history *)
      (Session.Returned tt,
       {| results := results store; isScanning := isScanning store;
          graphData := graph;
          scanHistory := addToHistory r (scanHistory store) |})
  end.

End ScannerStore.

(* ===================================================================== *)
(** * [src/components/scanner/ResultsDashboard.tsx]: filters and counts *)
(* ===================================================================== *)

Module Dashboard.
Import SpiderCrawler.

(** [filterBy] of the store *)
Record Filter : Type := mkFilter {
  filter_method : list string;
  filter_source : list string;
  filter_security : list string
}.

(** [clearFilters] *)
Definition clearFilters : string * Filter :=
  ("", {| filter_method := []; filter_source := []; filter_security := [] |}).

(** The strings of the two enumerations. *)
Definition source_name (s : Source) : string :=
  match s with
  | crawl => "crawl" | js => "js" | html => "html"
  | sitemap => "sitemap" | robots => "robots"
  end.

Definition severity_name (s : Severity) : string :=
  match s with
  | low => "low" | medium => "medium" | high => "high"
  | critical => "critical"
  end.

(** [endpoint.security?.riskLevel || 'low'] *)
Definition riskLevel_of (endpoint : Endpoint) : string :=
  match security endpoint with
  | Some sa => severity_name (riskLevel sa)
  | None => "low"
  end.

(** Filter and search endpoints *)
Definition filteredEndpoints (results : option Session.CrawlResult)
  (searchQuery : string) (filterBy : Filter) : list Endpoint :=
  match results with
  | None => []
  | Some results =>
      let filtered := Session.result_endpoints results in
      (* Apply search query *)
      let filtered :=
        if negb (String.eqb searchQuery "") then
          let query := Str.toLowerCase searchQuery in
          List.filter
            (fun endpoint =>
               Str.includes (Str.toLowerCase (url endpoint)) query
               || Str.includes (Str.toLowerCase (method endpoint)) query
               || existsb
                    (fun p => Str.includes (Str.toLowerCase (name p)) query)
                    (parameters endpoint))
            filtered
        else filtered in
      (* Apply method filter *)
      let filtered :=
        if bool_decide (0 < length (filter_method filterBy)) then
          List.filter
            (fun endpoint =>
               Arr.includes (filter_method filterBy) (method endpoint))
            filtered
        else filtered in
      (* Apply source filter *)
      let filtered :=
        if bool_decide (0 < length (filter_source filterBy)) then
          List.filter
            (fun endpoint =>
               Arr.includes (filter_source filterBy)
                 (source_name (source endpoint)))
            filtered
        else filtered in
      (* Apply security filter *)
      if bool_decide (0 < length (filter_security filterBy)) then
        List.filter
          (fun endpoint =>
             Arr.includes (filter_security filterBy) (riskLevel_of endpoint))
          filtered
      else filtered
  end.

(** [m.set(key, (m.get(key) || 0) + 1)] *)
Definition count (m : gmap string nat) (key : string) : gmap string nat :=
  <[key := default 0 (m !! key) + 1]> m.

Record Stats : Type := mkStats {
  methods : gmap string nat;
  sources : gmap string nat;
  securities : gmap string nat
}.

Definition stats (results : option Session.CrawlResult) : option Stats :=
  match results with
  | None => None
  | Some results =>
      Some
        (foldl
           (fun st endpoint =>
              {| (* Count methods *)
                 methods := count (methods st) (method endpoint);
                 (* Count sources *)
                 sources :=
                   count (sources st) (source_name (source endpoint));
                 (* Count security levels *)
                 securities :=
                   count (securities st) (riskLevel_of endpoint) |})
           {| methods := ∅; sources := ∅; securities := ∅ |}
           (Session.result_endpoints results))
  end.

(** What [handleMethodFilter], [handleSourceFilter] and
    [handleSecurityFilter] pass to [setFilter]. *)
Definition toggle (current : list string) (value : string) : list string :=
  if Arr.includes current value
  then List.filter (fun m => negb (String.eqb m value)) current
  else current ++ [value].

Definition handleMethodFilter (method : string) (filterBy : Filter)
  : Filter :=
  {| filter_method := toggle (filter_method filterBy) method;
     filter_source := filter_source filterBy;
     filter_security := filter_security filterBy |}.

Definition handleSourceFilter (source : string) (filterBy : Filter)
  : Filter :=
  {| filter_method := filter_method filterBy;
     filter_source := toggle (filter_source filterBy) source;
     filter_security := filter_security filterBy |}.

Definition handleSecurityFilter (security : string) (filterBy : Filter)
  : Filter :=
  {| filter_method := filter_method filterBy;
     filter_source := filter_source filterBy;
     filter_security := toggle (filter_security filterBy) security |}.

(** The number of endpoints that a key function sends to a key. *)
Definition tally (key_of : Endpoint -> string) (key : string)
  (endpoints : list Endpoint) : nat :=
  length (List.filter (fun e => String.eqb (key_of e) key) endpoints).

End Dashboard.

(* ===================================================================== *)
(** * [wasm/assembly/index.ts]: the URL scanner of the module *)
(* ===================================================================== *)

Module AssemblyUrls.

(** [content.substr(i, n)] and [content.substring(from, to)] *)
Definition substr (content : string) (i n : nat) : string :=
  Str.take n (Str.drop i content).

Definition substring (content : string) (from to : nat) : string :=
  Str.take (to - from) (Str.drop from content).

(** The test of the inner loop on the character at [urlEnd]: not white
    space (a code above 32), no quote, no closing parenthesis or brace. *)
Definition url_char (a : ascii) : bool :=
  (32 <? Str.code a)%N
  && negb (Ascii.eqb a WasmMatcher.dquote)
  && negb (Ascii.eqb a "'")
  && negb (Ascii.eqb a ")")
  && negb (Ascii.eqb a "}").

(** Find the end of the URL: [rest] is the content from [urlEnd] on, so
    [urlEnd < content.length] holds exactly when [rest] is not empty. *)
Fixpoint url_end (rest : string) (urlEnd : nat) : nat :=
  match rest with
  | String a rest' =>
      if url_char a then url_end rest' (S urlEnd) else urlEnd
  | EmptyString => urlEnd
  end.

(** The outer loop.  Every turn moves [i] forward, so the length of the
    content is fuel enough. *)
Fixpoint scan (fuel : nat) (content : string) (i : nat) : list string :=
  match fuel with
  | O => []
  | S fuel' =>
      (* i < content.length - 7, in signed arithmetic *)
      if bool_decide (i + 7 < String.length content) then
        if String.eqb (substr content i 7) "http://"
           || String.eqb (substr content i 8) "https://"
        then
          let urlStart := i in
          let urlEnd := url_end (Str.drop i content) i in
          (if bool_decide (urlStart < urlEnd)
           then [substring content urlStart urlEnd] else [])
          ++ scan fuel' content urlEnd
        else scan fuel' content (S i)
      else []
  end.

Definition extractURLs (content : string) : list string :=
  scan (String.length content) content 0.

End AssemblyUrls.
(* ===================================================================== *)
(** * Sample data *)
(* ===================================================================== *)

(** Concrete URLs and endpoints on which the crawler is evaluated, with the
    reference parser standing for [new URL]. *)

Module Samples.
Import SpiderCrawler.

Definition site : string := "https://example.com".

(** A link to an image below an [/api/] path. *)
Definition api_image : string := "https://example.com/api/logo.png".

(** What [new URL] makes of the two. *)
Definition site_parsed : Url.URL :=
  Url.mkURL "https:" "example.com" "example.com" "/" "" "" [].

Definition api_image_parsed : Url.URL :=
  Url.mkURL "https:" "example.com" "example.com" "/api/logo.png" "" "" [].

(** A plain-HTTP login URL with a path parameter and a query string. *)
Definition insecure_login : string :=
  "http://example.com/login/{tenant}?next=home".

(** What [createEndpoint(insecure_login, 'DELETE', 'crawl', 0)] returns. *)
Definition insecure_login_delete : Endpoint := {|
  id := "DELETE:http://example.com/login/{tenant}?next=home";
  url := insecure_login;
  method := "DELETE";
  parameters := [mkParam "next" query false; mkParam "tenant" path true];
  headers := [];
  responseTime := None;
  depth := 0;
  source := crawl;
  security := Some {|
    hasAuth := true;
    vulnerabilities := [insecureProtocol; destructiveOperation];
    riskLevel := high |}
|}.

(** The same URL found in a sitemap and then again as an HTML link. *)
Definition users_from_sitemap : Discovery :=
  mkDiscovery "https://example.com/api/users" "GET" sitemap 0 no_annotation.

Definition users_from_html : Discovery :=
  mkDiscovery "https://example.com/api/users" "GET" html 1 no_annotation.

Definition login_from_html : Discovery :=
  mkDiscovery "https://example.com/api/login" "POST" html 1 no_annotation.

Definition users_endpoint_html : Endpoint := {|
  id := "GET:https://example.com/api/users";
  url := "https://example.com/api/users";
  method := "GET";
  parameters := [];
  headers := [];
  responseTime := None;
  depth := 1;
  source := html;
  security := Some {|
    hasAuth := false; vulnerabilities := []; riskLevel := low |}
|}.


Definition flaky_navigation : Session.Environment :=
  Session.mkEnvironment true
    (fun _ => Session.NavigationFails "Navigation timeout of 10000 ms exceeded")
    (fun _ => Some "<html></html>").


(** A session limited to one page whose queue holds two URLs when the
    parallel crawl starts: a path the common-path discovery found and the
    base URL pushed by [crawl]. *)
Definition one_page : ScannerConfig := {|
  maxDepth := 8; maxPages := 1; respectRobots := false;
  includeExternalLinks := true; crawlDelay := 100;
  userAgent := userAgent defaultConfig;
  enableJavaScript := false; timeout := 10000
|}.

Definition two_urls : list string :=
  ["https://example.com/api"; "https://example.com"].

(** Both crawls are launched, the rate limiter lets both through, both
    fetches come back empty, both promises settle, and the loop ends. *)
Definition both_granted : list Parallel.Action :=
  [Parallel.Continue;
   Parallel.Wake 0 Parallel.Granted;
   Parallel.Wake 1 Parallel.Granted;
   Parallel.Wake 0 (Parallel.Fetched None);
   Parallel.Wake 1 (Parallel.Fetched None);
   Parallel.Wake 0 Parallel.Settle;
   Parallel.Wake 1 Parallel.Settle;
   Parallel.Continue;
   Parallel.Continue;
   Parallel.Continue].

End Samples.

(* ===================================================================== *)
(** * Sample runs of the parallel crawl loop *)
(* ===================================================================== *)

Module Runs.
Import SpiderCrawler.

(** The schedule [Samples.both_granted] in two halves: up to the point at
    which both crawls have passed the rate limiter, and from there on. *)
Definition until_granted : list Parallel.Action :=
  [Parallel.Continue;
   Parallel.Wake 0 Parallel.Granted;
   Parallel.Wake 1 Parallel.Granted].

Definition after_granted : list Parallel.Action :=
  [Parallel.Wake 0 (Parallel.Fetched None);
   Parallel.Wake 1 (Parallel.Fetched None);
   Parallel.Wake 0 Parallel.Settle;
   Parallel.Wake 1 Parallel.Settle;
   Parallel.Continue;
   Parallel.Continue;
   Parallel.Continue].

(** The state of the session of [Samples.one_page] on [Samples.two_urls]
    when both crawls are fetching. *)
Definition both_fetching : Parallel.State := {|
  Parallel.crawlQueue := [];
  Parallel.visitedUrls := {["https://example.com/api"; "https://example.com"]};
  Parallel.activeCrawls :=
    [Parallel.mkCrawl 0 "https://example.com/api" Parallel.AwaitingFetch;
     Parallel.mkCrawl 1 "https://example.com" Parallel.AwaitingFetch];
  Parallel.errors := [];
  Parallel.main := Parallel.Racing;
  Parallel.raced := false;
  Parallel.next_promise := 2
|}.

(** The state in which that session ends. *)
Definition both_done : Parallel.State := {|
  Parallel.crawlQueue := [];
  Parallel.visitedUrls := {["https://example.com/api"; "https://example.com"]};
  Parallel.activeCrawls := [];
  Parallel.errors := [];
  Parallel.main := Parallel.Finished;
  Parallel.raced := false;
  Parallel.next_promise := 2
|}.

End Runs.

(* ===================================================================== *)
(** * A sample sequential session *)
(* ===================================================================== *)

Module Walks.
Import SpiderCrawler.

(** A site of three pages that link to one another, and a rate limiter
    that rejects the second call. *)
Definition three_pages : Sequential.World := {|
  Sequential.grants :=
    fun n => if n =? 1 then Some "Rate limit exceeded" else None;
  Sequential.responds :=
    fun _ url =>
      if String.eqb url "https://example.com"
      then Sequential.Content
             ["https://example.com/a"; "https://example.com/b";
              "https://example.com/a"]
      else if String.eqb url "https://example.com/a"
      then Sequential.Content ["https://example.com"; "https://example.com/b"]
      else Sequential.NoContent
|}.

(** A session limited to two pages. *)
Definition two_pages : ScannerConfig := {|
  maxDepth := 3; maxPages := 2; respectRobots := false;
  includeExternalLinks := true; crawlDelay := 100;
  userAgent := userAgent defaultConfig;
  enableJavaScript := false; timeout := 10000
|}.

End Walks.

(* ===================================================================== *)
(** * Properties *)
(* ===================================================================== *)

(** ** String primitives *)

Lemma startsWith_spec s p :
Str.startsWith s p = true <-> exists t, s = p +:+ t.
Proof.
revert s; induction p as [|a p IH]; intros s; simpl.
- split; [intros _; by exists s | done].
- destruct s as [|b s]; simpl.
  + split; [done | intros [t Ht]; discriminate].
  + rewrite andb_true_iff, IH. split.
    * intros [Hab [t ->]]. apply Ascii.eqb_eq in Hab as ->. by exists t.
    * intros [t Ht]. injection Ht as -> ->. split; [apply Ascii.eqb_refl | by exists t].
Qed.

Lemma includes_spec s p :
Str.includes s p = true <-> exists u t, s = u +:+ p +:+ t.
Proof.
induction s as [|a s IH]; simpl.
- rewrite orb_false_r, startsWith_spec. split.
  + intros [t Ht]. by exists EmptyString, t.
  + intros [u [t Ht]]. destruct u; [by exists t | discriminate].
- rewrite orb_true_iff, startsWith_spec, IH. split.
  + intros [[t Ht] | [u [t Ht]]].
    * by exists EmptyString, t.
    * exists (String a u), t. simpl. by rewrite Ht.
  + intros [u [t Ht]]. destruct u as [|b u]; simpl in Ht.
    * left. by exists t.
    * right. injection Ht as -> ->. by exists u, t.
Qed.

Lemma endsWith_spec s p :
Str.endsWith s p = true <-> exists u, s = u +:+ p.
Proof.
induction s as [|a s IH]; cbn [Str.endsWith].
- rewrite orb_false_r, String.eqb_eq. split.
  + intros <-. by exists EmptyString.
  + intros [u Hu]. destruct u; [done | discriminate].
- rewrite orb_true_iff, String.eqb_eq, IH. split.
  + intros [<- | [u ->]]; [by exists EmptyString | by exists (String a u)].
  + intros [u Hu]. destruct u as [|b u]; simpl in Hu.
    * by left.
    * right. injection Hu as -> ->. by exists u.
Qed.

(** C9.  The domain validator on the five inputs of its test vector. *)
Theorem isValidDomain_test_vector :
  Utils.isValidDomain "example.com" = true /\
  Utils.isValidDomain "api.example.co.uk" = true /\
  Utils.isValidDomain "localhost" = true /\
  Utils.isValidDomain "192.168.1.1" = true /\
  Utils.isValidDomain "not a domain!!" = false.
Proof. repeat split; vm_compute; reflexivity. Qed.

(** C4.  The code has two scorers.  The two-count scorer gives 0 for no
    match and otherwise the base 0.3 plus the bonuses 0.2 (more than 1
    match), 0.2 (more than 5), 0.1 (more than 10) and 0.2 (more than 2
    patterns), clamped to [0, 1].  The scorer the pattern matcher calls
    follows another rule: the base 0.5 plus the bonuses 0.3, 0.2 and 0.3
    (the text of the pattern contains [api], [rest], [graphql]) and 0.1,
    0.1 (more than 1 match, more than 5), clamped to [0, 1]. *)
Theorem calculateConfidence_rule (patternCount matchCount : Z)
  (pattern_source : string) (matches : nat) :
  Wasm.calculateConfidence patternCount matchCount
  = Wasm.confidence_spec patternCount matchCount /\
  PatternMatcher.calculateConfidence pattern_source matches
  = PatternMatcher.confidence_spec pattern_source matches.
Proof.
  split.
  - unfold Wasm.calculateConfidence, Wasm.confidence_spec.
    rewrite !Z.gtb_ltb.
    destruct (matchCount =? 0)%Z; [reflexivity |].
    destruct (1 <? matchCount)%Z, (5 <? matchCount)%Z, (10 <? matchCount)%Z,
      (2 <? patternCount)%Z; vm_compute; reflexivity.
  - unfold PatternMatcher.calculateConfidence, PatternMatcher.confidence_spec.
    destruct (Str.includes pattern_source "api"),
      (Str.includes pattern_source "rest"),
      (Str.includes pattern_source "graphql"),
      (bool_decide (1 < matches)), (bool_decide (5 < matches));
      vm_compute; reflexivity.
Qed.

(** C5.  For a fixed pattern count the score does not decrease when the
    match count grows; for all inputs it lies in [0, 1]; and it is 0 for no
    match, whatever the pattern count. *)
Theorem calculateConfidence_monotone (patternCount m1 m2 : Z)
  (Hnonneg : (0 <= m1)%Z) (Hle : (m1 <= m2)%Z) :
  (Wasm.calculateConfidence patternCount m1
     <=? Wasm.calculateConfidence patternCount m2)%float = true /\
  (forall pc mc : Z,
     (0.0 <=? Wasm.calculateConfidence pc mc)%float = true /\
     (Wasm.calculateConfidence pc mc <=? 1.0)%float = true) /\
  (forall pc : Z, Wasm.calculateConfidence pc 0 = 0.0%float).
Proof.
  unfold Wasm.calculateConfidence. split; [| split].
  - rewrite !Z.gtb_ltb.
    destruct (Z.eqb_spec m1 0), (Z.eqb_spec m2 0); try lia;
    destruct (Z.ltb_spec 1 m1), (Z.ltb_spec 1 m2); try lia;
    destruct (Z.ltb_spec 5 m1), (Z.ltb_spec 5 m2); try lia;
    destruct (Z.ltb_spec 10 m1), (Z.ltb_spec 10 m2); try lia;
    destruct (2 <? patternCount)%Z; vm_compute; reflexivity.
  - intros pc mc.
    destruct (mc =? 0)%Z, (mc >? 1)%Z, (mc >? 5)%Z, (mc >? 10)%Z,
      (pc >? 2)%Z; vm_compute; split; reflexivity.
  - reflexivity.
Qed.

Lemma calculateConfidence_monotone_witness :
  (Wasm.calculateConfidence 3 1 <=? Wasm.calculateConfidence 3 11)%float
    = true /\
  (forall pc mc : Z,
     (0.0 <=? Wasm.calculateConfidence pc mc)%float = true /\
     (Wasm.calculateConfidence pc mc <=? 1.0)%float = true) /\
  (forall pc : Z, Wasm.calculateConfidence pc 0 = 0.0%float).
Proof. apply (calculateConfidence_monotone 3 1 11); lia. Defined.

(** The AssemblyScript twin follows the same rule in binary32, and has
    the same three properties. *)
Lemma assembly_calculateConfidence_rule (patternCount matchCount : Z) :
  AssemblyScript.calculateConfidence patternCount matchCount
  = AssemblyScript.confidence_spec patternCount matchCount.
Proof.
  unfold AssemblyScript.calculateConfidence, AssemblyScript.confidence_spec.
  rewrite !Z.gtb_ltb.
  destruct (matchCount =? 0)%Z; [reflexivity |].
  destruct (1 <? matchCount)%Z, (5 <? matchCount)%Z, (10 <? matchCount)%Z,
    (2 <? patternCount)%Z; vm_compute; reflexivity.
Qed.

Lemma assembly_calculateConfidence_monotone (patternCount m1 m2 : Z) :
  (0 <= m1)%Z -> (m1 <= m2)%Z ->
  SFleb (AssemblyScript.calculateConfidence patternCount m1)
        (AssemblyScript.calculateConfidence patternCount m2) = true /\
  SFleb (AssemblyScript.of_Z 0)
        (AssemblyScript.calculateConfidence patternCount m1) = true /\
  SFleb (AssemblyScript.calculateConfidence patternCount m1)
        (AssemblyScript.of_Z 1) = true /\
  AssemblyScript.calculateConfidence patternCount 0 = AssemblyScript.of_Z 0.
Proof.
  intros Hnonneg Hle. unfold AssemblyScript.calculateConfidence.
  rewrite !Z.gtb_ltb.
  destruct (Z.eqb_spec m1 0), (Z.eqb_spec m2 0); try lia;
  destruct (Z.ltb_spec 1 m1), (Z.ltb_spec 1 m2); try lia;
  destruct (Z.ltb_spec 5 m1), (Z.ltb_spec 5 m2); try lia;
  destruct (Z.ltb_spec 10 m1), (Z.ltb_spec 10 m2); try lia;
  destruct (2 <? patternCount)%Z; vm_compute; repeat split; reflexivity.
Qed.

(** The rule of C4 fails on the scorer the pattern matcher calls: for one
    match of the pattern [/\/graphql/g] it gives 0.8, where the rule gives
    0.3 or, with more than two patterns, 0.5 (and the two-count scorer
    0.3). *)
Lemma regex_matcher_confidence_example :
  PatternMatcher.calculateConfidence "\/graphql" 1 = 0.8%float /\
  Wasm.calculateConfidence 1 1 = 0.3%float /\
  Wasm.confidence_spec 1 1 = 0.3%float /\
  (forall patternCount : Z,
     Wasm.confidence_spec patternCount 1 = 0.3%float
     \/ Wasm.confidence_spec patternCount 1 = 0.5%float) /\
  (0.5 <? PatternMatcher.calculateConfidence "\/graphql" 1)%float = true.
Proof.
  repeat split; try (vm_compute; reflexivity).
  intros patternCount. unfold Wasm.confidence_spec. cbn [Z.eqb].
  destruct (2 <? patternCount)%Z; [right | left]; vm_compute; reflexivity.
Qed.

(** ** The security classifier *)

Section Classifier.
Context `{parser : Url.Parser}.
Import SpiderCrawler.

Lemma createEndpoint_fields url method source depth e :
  createEndpoint url method source depth = Some e ->
  id e = method +:+ ":" +:+ url /\ Types.url e = url /\
  Types.method e = method /\ Types.source e = source /\
  Types.depth e = depth /\
  security e = Some (analyzeEndpointSecurity url method).
Proof.
  unfold createEndpoint. destruct (Url.new_URL url); [|discriminate].
  intros [= <-]. repeat split.
Qed.

Lemma analyzeEndpointSecurity_cases url method :
  let sa := analyzeEndpointSecurity url method in
  (vulnerabilities sa, riskLevel sa) =
  match Str.startsWith url "http://", String.eqb method "DELETE" with
  | false, false => ([], low)
  | true, false => ([insecureProtocol], medium)
  | false, true => ([destructiveOperation], high)
  | true, true => ([insecureProtocol; destructiveOperation], high)
  end.
Proof.
  unfold analyzeEndpointSecurity.
  destruct (Str.startsWith url "http://"), (String.eqb method "DELETE");
    reflexivity.
Qed.

End Classifier.

(** C3.  On every created endpoint the classifier lists exactly the
    findings that are triggered: the insecure protocol (severity [medium])
    when the URL starts with [http://], and the destructive operation
    (severity [high]) when the method is DELETE, in that order.  The risk
    level is [high] for DELETE whatever the scheme, else [medium] for
    [http://], else [low]: at least [high] for DELETE, at least [medium]
    for [http://], and always the greatest severity among the findings
    listed.  [hasAuth] holds exactly when the URL text contains [/auth] or
    [/login]. *)
Theorem security_classification `{parser : Url.Parser} (url method : string)
  (source : Source) (depth : nat) (e : Endpoint)
  (Hcreated : SpiderCrawler.createEndpoint url method source depth = Some e) :
  exists sa : SecurityAnalysis,
    security e = Some sa /\
    (method = "DELETE" -> severity_le high (riskLevel sa)) /\
    (Str.startsWith url "http://" = true ->
     severity_le medium (riskLevel sa)) /\
    riskLevel sa = max_severity (vulnerabilities sa) /\
    (hasAuth sa = true <->
     Str.includes url "/auth" = true \/ Str.includes url "/login" = true) /\
    vulnerabilities sa
    = (if Str.startsWith url "http://"
       then [SpiderCrawler.insecureProtocol] else [])
      ++ (if String.eqb method "DELETE"
          then [SpiderCrawler.destructiveOperation] else []) /\
    riskLevel sa
    = (if String.eqb method "DELETE" then high
       else if Str.startsWith url "http://" then medium else low) /\
    severity SpiderCrawler.insecureProtocol = medium /\
    severity SpiderCrawler.destructiveOperation = high.
Proof.
  apply createEndpoint_fields in Hcreated as (_ & _ & _ & _ & _ & Hsec).
  exists (SpiderCrawler.analyzeEndpointSecurity url method).
  split; [exact Hsec |].
  pose proof (analyzeEndpointSecurity_cases url method) as Hcases.
  cbv zeta in Hcases.
  split; [| split; [| split; [| split; [| split; [| split]]]]].
  - intros ->. rewrite String.eqb_refl in Hcases.
    destruct (Str.startsWith url "http://"); injection Hcases as _ ->;
      unfold severity_le; simpl; lia.
  - intros Hhttp. rewrite Hhttp in Hcases.
    destruct (String.eqb method "DELETE"); injection Hcases as _ ->;
      unfold severity_le; simpl; lia.
  - destruct (Str.startsWith url "http://"), (String.eqb method "DELETE");
      injection Hcases as -> ->; reflexivity.
  - unfold SpiderCrawler.analyzeEndpointSecurity.
    destruct (Str.startsWith url "http://"), (String.eqb method "DELETE");
      cbn [hasAuth]; apply orb_true_iff.
  - destruct (Str.startsWith url "http://"), (String.eqb method "DELETE");
      injection Hcases as -> _; reflexivity.
  - destruct (Str.startsWith url "http://"), (String.eqb method "DELETE");
      injection Hcases as _ ->; reflexivity.
  - split; reflexivity.
Qed.

Lemma security_classification_witness :
  exists sa : SecurityAnalysis,
    security Samples.insecure_login_delete = Some sa /\
    ("DELETE" = "DELETE" -> severity_le high (riskLevel sa)) /\
    (Str.startsWith Samples.insecure_login "http://" = true ->
     severity_le medium (riskLevel sa)) /\
    riskLevel sa = max_severity (vulnerabilities sa) /\
    (hasAuth sa = true <->
     Str.includes Samples.insecure_login "/auth" = true
     \/ Str.includes Samples.insecure_login "/login" = true) /\
    vulnerabilities sa
    = (if Str.startsWith Samples.insecure_login "http://"
       then [SpiderCrawler.insecureProtocol] else [])
      ++ (if String.eqb "DELETE" "DELETE"
          then [SpiderCrawler.destructiveOperation] else []) /\
    riskLevel sa
    = (if String.eqb "DELETE" "DELETE" then high
       else if Str.startsWith Samples.insecure_login "http://"
            then medium else low) /\
    severity SpiderCrawler.insecureProtocol = medium /\
    severity SpiderCrawler.destructiveOperation = high.
Proof.
  apply (security_classification (parser := Url.parse_http)
           Samples.insecure_login "DELETE" crawl 0
           Samples.insecure_login_delete).
  vm_compute; reflexivity.
Defined.

(** ** Parameters of a created endpoint *)

(** C10.  The parameters of a created endpoint are the query keys of the
    URL, each with [required = false], followed by the [{name}] and [:name]
    tokens of the URL text as path parameters, each with [required = true];
    so [required] holds exactly for the parameters of kind [path]. *)
Theorem parameters_required `{parser : Url.Parser} (u m : string) (src : Source)
  (dep : nat) (e : Endpoint)
  (Hcreated : SpiderCrawler.createEndpoint u m src dep = Some e) :
  exists urlObj : Url.URL,
    Url.new_URL u = Some urlObj /\
    parameters e =
      map (fun key => mkParam key query false) (Url.searchParamsKeys urlObj)
      ++ map (fun token => mkParam (PatternMatcher.cleanParam token) path true)
           (Regex.match_all PatternMatcher.pathParamRegex u) /\
    Forall (fun p => (required p = true <-> type p = path) /\
                     (type p = query -> required p = false))
      (parameters e).
Proof.
  unfold SpiderCrawler.createEndpoint in Hcreated.
  unfold PatternMatcher.extractParameters in Hcreated.
  destruct (Url.new_URL u) as [urlObj|] eqn:Hparse; [|discriminate].
  injection Hcreated as <-. exists urlObj. split; [reflexivity |].
  cbn [parameters]. rewrite map_app, !map_map. cbn.
  split; [reflexivity |].
  apply Forall_app. split; apply List.Forall_forall; intros p Hp;
    apply in_map_iff in Hp as (x & <- & _); cbn; split; try done.
Qed.

Lemma parameters_required_witness :
  exists urlObj : Url.URL,
    Url.parse_http Samples.insecure_login = Some urlObj /\
    parameters Samples.insecure_login_delete =
      map (fun key => mkParam key query false) (Url.searchParamsKeys urlObj)
      ++ map (fun token => mkParam (PatternMatcher.cleanParam token) path true)
           (Regex.match_all PatternMatcher.pathParamRegex
              Samples.insecure_login) /\
    Forall (fun p => (required p = true <-> type p = path) /\
                     (type p = query -> required p = false))
      (parameters Samples.insecure_login_delete).
Proof.
  apply (parameters_required (parser := Url.parse_http)
           Samples.insecure_login "DELETE" crawl 0
           Samples.insecure_login_delete).
  vm_compute; reflexivity.
Defined.

(** ** The link-following decision *)

Section LinkPolicy.
Context `{parser : Url.Parser}.
Import SpiderCrawler.

Lemma shouldCrawlUrl_unparsed config u base :
  Url.new_URL u = None -> shouldCrawlUrl config u base = false.
Proof. unfold shouldCrawlUrl. by intros ->. Qed.

End LinkPolicy.

(** C6 as stated fails: a URL that looks like an API is still rejected
    when its path ends in a skipped extension. *)
Lemma shouldCrawlUrl_rejects_api_image :
  SpiderCrawler.looksLikeAPI Samples.api_image = true /\
  SpiderCrawler.shouldCrawlUrl (parser := Url.parse_http)
    SpiderCrawler.defaultConfig Samples.api_image Samples.site = false.
Proof. split; vm_compute; reflexivity. Qed.

(** C6, amended.  A URL whose path ends in a skipped extension is never
    followed, whether or not it looks like an API; a URL that looks like an
    API, has no such extension and passes the external-link test is always
    followed. *)
Theorem shouldCrawlUrl_extension_then_api `{parser : Url.Parser}
  (config : ScannerConfig) (u base : string) (urlObj baseObj : Url.URL)
  (Hurl : Url.new_URL u = Some urlObj)
  (Hbase : Url.new_URL base = Some baseObj) :
  (SpiderCrawler.hasSkipExtension urlObj = true ->
   SpiderCrawler.shouldCrawlUrl config u base = false) /\
  (SpiderCrawler.hasSkipExtension urlObj = false ->
   SpiderCrawler.looksLikeAPI u = true ->
   includeExternalLinks config = true
   \/ Url.hostname urlObj = Url.hostname baseObj
   \/ SpiderCrawler.isExternalAPI u urlObj = true ->
   SpiderCrawler.shouldCrawlUrl config u base = true).
Proof.
  unfold SpiderCrawler.shouldCrawlUrl. rewrite Hurl, Hbase. split.
  - intros ->. by destruct (_ && _).
  - intros -> -> Hgate.
    destruct Hgate as [-> | [-> | ->]]; cbn;
      rewrite ?String.eqb_refl, ?andb_false_r; reflexivity.
Qed.

Lemma shouldCrawlUrl_extension_then_api_witness :
  (SpiderCrawler.hasSkipExtension
     Samples.api_image_parsed
   = true ->
   SpiderCrawler.shouldCrawlUrl (parser := Url.parse_http)
     SpiderCrawler.defaultConfig Samples.api_image Samples.site = false) /\
  (SpiderCrawler.hasSkipExtension
     Samples.api_image_parsed
   = false ->
   SpiderCrawler.looksLikeAPI Samples.api_image = true ->
   includeExternalLinks SpiderCrawler.defaultConfig = true
   \/ Url.hostname Samples.api_image_parsed = Url.hostname Samples.site_parsed
   \/ SpiderCrawler.isExternalAPI Samples.api_image
        Samples.api_image_parsed
      = true ->
   SpiderCrawler.shouldCrawlUrl (parser := Url.parse_http)
     SpiderCrawler.defaultConfig Samples.api_image Samples.site = true).
Proof.
  apply (shouldCrawlUrl_extension_then_api (parser := Url.parse_http)
           SpiderCrawler.defaultConfig Samples.api_image Samples.site
           Samples.api_image_parsed Samples.site_parsed);
    vm_compute; reflexivity.
Defined.

(** ** The endpoint registry *)

Section Registry.
Context `{parser : Url.Parser}.
Import SpiderCrawler.

Lemma discovered_fields d e :
  discovered d = Some e ->
  id e = discovery_key d /\ identity e = (d_method d, d_url d) /\
  source e = d_source d /\ depth e = d_depth d.
Proof.
  unfold discovered. intros Hd.
  apply fmap_Some in Hd as (e0 & Hcreated & ->).
  apply createEndpoint_fields in Hcreated as (Hid & Hurl & Hm & Hs & Hd & _).
  unfold identity, discovery_key, key_of. cbn. by rewrite Hid, Hurl, Hm, Hs, Hd.
Qed.

Lemma record_well_keyed reg d : well_keyed reg -> well_keyed (record reg d).
Proof.
  intros Hreg. unfold record.
  destruct (discovered d) as [e|] eqn:Hd; [|done].
  apply discovered_fields in Hd as (Hid & Hident & _).
  intros k e'. rewrite lookup_insert. case_decide as Hk.
  - intros [= <-]. by rewrite <- Hk, Hid, Hident.
  - apply Hreg.
Qed.

Lemma foldl_record_well_keyed ds reg :
  well_keyed reg -> well_keyed (foldl record reg ds).
Proof.
  revert reg. induction ds as [|d ds IH]; intros reg Hreg; [done|].
  cbn. apply IH. by apply record_well_keyed.
Qed.

Lemma registry_well_keyed ds : well_keyed (registry ds).
Proof. apply foldl_record_well_keyed. intros k e. by rewrite lookup_empty. Qed.

(** In a well-keyed map no two entries have the same (method, url). *)
Lemma well_keyed_NoDup reg :
  well_keyed reg -> NoDup (identity <$> endpoints reg).
Proof.
  intros Hreg. apply (NoDup_fmap_1 key_of).
  unfold endpoints. rewrite <- !list_fmap_compose.
  replace (key_of ∘ identity ∘ snd <$> map_to_list reg)
    with ((map_to_list reg).*1); [apply NoDup_fst_map_to_list |].
  apply Forall_fmap_ext, Forall_forall. intros [k e] Hin. cbn.
  apply elem_of_map_to_list in Hin. by apply Hreg.
Qed.

(** A discovery with another key leaves an entry in place. *)
Lemma record_lookup_ne reg d k :
  discovery_key d <> k -> record reg d !! k = reg !! k.
Proof.
  intros Hne. unfold record.
  destruct (discovered d) as [e|] eqn:Hd; [|done].
  apply discovered_fields in Hd as (Hid & _).
  rewrite lookup_insert_ne; [done | by rewrite Hid].
Qed.

Lemma foldl_record_lookup_ne ds reg k :
  Forall (fun d => discovery_key d <> k) ds ->
  foldl record reg ds !! k = reg !! k.
Proof.
  revert reg. induction ds as [|d ds IH]; intros reg Hds; [done|].
  apply Forall_cons in Hds as [Hd Hds]. cbn.
  rewrite IH by done. by apply record_lookup_ne.
Qed.

(** The last discovery made under a key is the entry found there. *)
Lemma registry_last_write pre d post e :
  discovered d = Some e ->
  Forall (fun d' => discovery_key d' <> discovery_key d) post ->
  registry (pre ++ d :: post) !! discovery_key d = Some e.
Proof.
  intros Hd Hpost. unfold registry. rewrite foldl_app. cbn.
  rewrite foldl_record_lookup_ne by done.
  unfold record. rewrite Hd.
  apply discovered_fields in Hd as (<- & _). apply lookup_insert_eq.
Qed.

Lemma filter_identity_singleton (l : list Endpoint) e :
  NoDup (identity <$> l) -> e ∈ l ->
  filter (fun e' => identity e' = identity e) l = [e].
Proof.
  induction l as [|x l IH]; intros Hnd Hin; [by apply elem_of_nil in Hin|].
  rewrite fmap_cons in Hnd. apply NoDup_cons in Hnd as [Hx Hnd].
  apply elem_of_cons in Hin as [-> | Hin].
  - rewrite filter_cons_True by done. f_equal.
    destruct (filter _ l) as [|y l'] eqn:Hf; [done|].
    assert (y ∈ filter (fun e' => identity e' = identity x) l) as Hy
      by (rewrite Hf; left).
    apply list_elem_of_filter in Hy as [Hy1 Hy2].
    destruct Hx. rewrite <- Hy1. by apply list_elem_of_fmap_2.
  - rewrite filter_cons_False; [by apply IH|].
    intros Heq. destruct Hx. rewrite Heq. by apply list_elem_of_fmap_2.
Qed.

End Registry.

(** C2.  In the endpoint list of a result no two endpoints have the same
    (method, url) pair, and each endpoint is stored under the key
    [method:url]; after any sequence of discoveries, the endpoint of the
    last discovery made under a key is the one and only endpoint with that
    method and URL, carrying the source and depth of that last discovery. *)
Theorem registry_unique_last_write_wins `{parser : Url.Parser}
  (pre post : list SpiderCrawler.Discovery) (d : SpiderCrawler.Discovery)
  (e : Endpoint)
  (Hd : SpiderCrawler.discovered d = Some e)
  (Hpost : Forall (fun d' => SpiderCrawler.discovery_key d'
                            <> SpiderCrawler.discovery_key d) post) :
  (forall ds : list SpiderCrawler.Discovery,
     NoDup (SpiderCrawler.identity
              <$> SpiderCrawler.endpoints (SpiderCrawler.registry ds))) /\
  (forall (ds : list SpiderCrawler.Discovery) k e',
     SpiderCrawler.registry ds !! k = Some e' ->
     k = method e' +:+ ":" +:+ url e') /\
  let reg := SpiderCrawler.registry (pre ++ d :: post) in
  reg !! (SpiderCrawler.d_method d +:+ ":" +:+ SpiderCrawler.d_url d)
    = Some e /\
  filter (fun e' => SpiderCrawler.identity e' =
                    (SpiderCrawler.d_method d, SpiderCrawler.d_url d))
    (SpiderCrawler.endpoints reg) = [e] /\
  source e = SpiderCrawler.d_source d /\
  depth e = SpiderCrawler.d_depth d.
Proof.
  split; [intros ds; apply well_keyed_NoDup, registry_well_keyed |].
  split; [intros ds; apply registry_well_keyed |].
  intros reg.
  pose proof (well_keyed_NoDup _ (registry_well_keyed (pre ++ d :: post)))
    as Hnodup.
  pose proof (registry_last_write pre d post e Hd Hpost) as Hlast.
  pose proof (discovered_fields d e Hd) as (_ & Hident & Hsrc & Hdepth).
  split; [exact Hlast |]. split; [| done].
  rewrite <- Hident. apply filter_identity_singleton; [done|].
  unfold SpiderCrawler.endpoints.
  apply list_elem_of_fmap. exists (SpiderCrawler.discovery_key d, e).
  split; [done|]. by apply elem_of_map_to_list.
Qed.

Lemma registry_unique_last_write_wins_witness :
  (forall ds : list SpiderCrawler.Discovery,
     NoDup (SpiderCrawler.identity
              <$> SpiderCrawler.endpoints
                    (SpiderCrawler.registry (parser := Url.parse_http) ds))) /\
  (forall (ds : list SpiderCrawler.Discovery) k e',
     SpiderCrawler.registry (parser := Url.parse_http) ds !! k = Some e' ->
     k = method e' +:+ ":" +:+ url e') /\
  let reg :=
    SpiderCrawler.registry (parser := Url.parse_http)
      ([Samples.users_from_sitemap]
         ++ Samples.users_from_html :: [Samples.login_from_html]) in
  reg !! ("GET" +:+ ":" +:+ "https://example.com/api/users")
    = Some Samples.users_endpoint_html /\
  filter (fun e' => SpiderCrawler.identity e'
                    = ("GET", "https://example.com/api/users"))
    (SpiderCrawler.endpoints reg) = [Samples.users_endpoint_html] /\
  source Samples.users_endpoint_html = html /\
  depth Samples.users_endpoint_html = 1.
Proof.
  apply (registry_unique_last_write_wins (parser := Url.parse_http)
           [Samples.users_from_sitemap] [Samples.login_from_html]
           Samples.users_from_html Samples.users_endpoint_html).
  - vm_compute; reflexivity.
  - repeat constructor. vm_compute. discriminate.
Defined.

(** ** Sessions: validation and the fetch fallback *)

Module SessionFacts.
Import SpiderCrawler Session.

(** Runs the monadic code of the goal on the crawler it is applied to. *)
Ltac run_session :=
  unfold crawl, fetchPageContent, fetchWithPuppeteer, fetchWithAxios,
    initialize, cleanup, updateProgress, try_finally, try_catch, emit,
    set_browser, disable_javascript, push_error, modify, get, throw,
    mbind, M_bind, mret, M_ret;
  cbn.


End SessionFacts.



(** C8.  With JavaScript rendering requested, a failure of the browser (it
    cannot be launched, or it fails to open or to load the page) makes
    [fetchPageContent] fetch the same URL with the HTTP client; the failure
    is not thrown: the result is the body the HTTP client obtains, or
    [null] with an entry in the error log when that request fails too. *)
Theorem rendered_failure_falls_back (env : Session.Environment)
  (url : string) (c : Session.Crawler)
  (Hrequested : enableJavaScript (Session.config c) = true)
  (Hfailure :
     (Session.browser c = false /\ Session.launches env = false)
     \/ (Session.browser c = true
         /\ Session.rendering_fails (Session.renders env url))) :
  exists c1 c2 : Session.Crawler,
    Session.initialize env c = (Session.Returned tt, c1) /\
    Session.fetchPageContent env url c1
      = (Session.Returned (Session.responds env url), c2) /\
    last (Session.events c2) = Some (Session.HttpGet url) /\
    Session.errors c2 =
      Session.errors c ++
      match Session.responds env url with
      | Some _ => []
      | None => [mkCrawlError url "Failed to fetch: Request failed"]
      end.
Proof.
  destruct c as [cfg br vis found errs listened evs].
  destruct cfg as [md mp rr ie cd ua js tmo].
  cbn in Hrequested, Hfailure. subst js.
  destruct (Session.responds env url) as [data|] eqn:Hresponse;
    destruct Hfailure as [[-> Hlaunch] | [-> Hrender]];
    try (destruct (Session.renders env url) eqn:Hrenders; [| | done]);
    eexists; eexists;
    (split;
     [SessionFacts.run_session; rewrite ?Hlaunch; cbn; reflexivity |]);
    SessionFacts.run_session; rewrite ?Hrenders, ?Hresponse; cbn;
    (split; [reflexivity |]); cbn; rewrite ?last_snoc, ?app_nil_r; done.
Qed.

Lemma rendered_failure_falls_back_witness :
  exists c1 c2 : Session.Crawler,
    Session.initialize Samples.flaky_navigation
      (Session.mkCrawler SpiderCrawler.defaultConfig true ∅ ∅ [] true [])
      = (Session.Returned tt, c1) /\
    Session.fetchPageContent Samples.flaky_navigation Samples.site c1
      = (Session.Returned
           (Session.responds Samples.flaky_navigation Samples.site), c2) /\
    last (Session.events c2) = Some (Session.HttpGet Samples.site) /\
    Session.errors c2 =
      [] ++
      match Session.responds Samples.flaky_navigation Samples.site with
      | Some _ => []
      | None => [mkCrawlError Samples.site "Failed to fetch: Request failed"]
      end.
Proof.
  apply (rendered_failure_falls_back Samples.flaky_navigation Samples.site
           (Session.mkCrawler SpiderCrawler.defaultConfig true ∅ ∅ [] true [])).
  - reflexivity.
  - right. split; [reflexivity | exact I].
Defined.

(** ** The parallel crawl loop and the page budget *)

Module ParallelFacts.
Import SpiderCrawler Parallel.

Lemma pending_le_active st : pending st <= length (activeCrawls st).
Proof.
  unfold pending. induction (activeCrawls st) as [|c l IH]; cbn; [lia|].
  destruct (awaiting_rate c); cbn; lia.
Qed.

Lemma size_visit (visited : gset string) url :
  size (visited ∪ {[url]}) <= S (size visited).
Proof.
  destruct (decide (url ∈ visited)) as [Hin | Hout].
  - rewrite (comm_L (∪)), (subseteq_union_1_L {[url]} visited);
      [lia | by apply singleton_subseteq_l].
  - rewrite size_union by (by apply disjoint_singleton_r).
    rewrite size_singleton. lia.
Qed.

(** Moving a crawl to a phase other than [AwaitingRate] does not add to the
    pending crawls, and takes one away if the crawl was pending. *)
Lemma pending_set_phase_le p ph l :
  ph <> AwaitingRate ->
  length (List.filter awaiting_rate
            (map (fun c => if bool_decide (promise c = p)
                           then mkCrawl (promise c) (target c) ph else c) l))
  <= length (List.filter awaiting_rate l).
Proof.
  intros Hph. induction l as [|c l IH]; cbn [map List.filter]; [done|].
  destruct (bool_decide (promise c = p)).
  - replace (awaiting_rate (mkCrawl (promise c) (target c) ph)) with false
      by (unfold awaiting_rate; cbn; by destruct ph).
    destruct (awaiting_rate c); cbn [length]; lia.
  - destruct (awaiting_rate c); cbn [length]; lia.
Qed.

Lemma pending_set_phase_lt p ph l c :
  ph <> AwaitingRate ->
  List.find (fun c => bool_decide (promise c = p)) l = Some c ->
  phase c = AwaitingRate ->
  S (length (List.filter awaiting_rate
               (map (fun c => if bool_decide (promise c = p)
                              then mkCrawl (promise c) (target c) ph else c) l)))
  <= length (List.filter awaiting_rate l).
Proof.
  intros Hph. induction l as [|x l IH];
    cbn [map List.filter List.find]; [discriminate|].
  intros Hfind Hc.
  destruct (bool_decide (promise x = p)) eqn:Hx.
  - injection Hfind as ->.
    replace (awaiting_rate (mkCrawl (promise c) (target c) ph)) with false
      by (unfold awaiting_rate; cbn; by destruct ph).
    replace (awaiting_rate c) with true
      by (unfold awaiting_rate; by rewrite Hc).
    pose proof (pending_set_phase_le p ph l Hph). cbn [length]. lia.
  - specialize (IH Hfind Hc).
    destruct (awaiting_rate x); cbn [length]; lia.
Qed.

Lemma length_settle p l :
  length (List.filter (fun c => negb (bool_decide (promise c = p))) l)
  <= length l.
Proof.
  induction l as [|c l IH]; cbn; [lia|].
  destruct (negb _); cbn; lia.
Qed.

Lemma pending_settle p l :
  length (List.filter awaiting_rate
            (List.filter (fun c => negb (bool_decide (promise c = p))) l))
  <= length (List.filter awaiting_rate l).
Proof.
  induction l as [|c l IH]; cbn; [lia|].
  destruct (negb _); cbn; destruct (awaiting_rate c); cbn; lia.
Qed.

Section Budget.
Context `{parser : Url.Parser}.
Variable config : ScannerConfig.

Lemma start_within_budget queue : within_budget config (start queue).
Proof.
  unfold within_budget, pending. cbn. rewrite size_empty.
  unfold maxConcurrentCrawls. lia.
Qed.

Lemma launch_within_budget url st :
  length (activeCrawls st) < maxConcurrentCrawls ->
  within_budget config st -> within_budget config (launch config url st).
Proof.
  intros Hroom [Hactive Hbudget].
  pose proof (pending_le_active st) as Hpending.
  unfold within_budget, pending, launch, crawlSingle_entry,
    maxConcurrentCrawls in *.
  cbn [activeCrawls visitedUrls].
  rewrite length_app, List.filter_app, length_app. cbn.
  split; [lia|].
  destruct (bool_decide (url ∈ visitedUrls st)); cbn; [lia|].
  destruct (bool_decide (maxPages config <= size (visitedUrls st))) eqn:Hfull;
    cbn; [lia|].
  apply bool_decide_eq_false in Hfull. lia.
Qed.

Lemma fill_within_budget fuel st :
  within_budget config st -> within_budget config (fill config fuel st).
Proof.
  revert st. induction fuel as [|fuel IH]; intros st Hst; cbn; [done|].
  case_bool_decide as Hroom; [|done].
  destruct (crawlQueue st) as [|url queue] eqn:Hqueue; [done|].
  apply IH.
  destruct (negb _ && negb _); [|exact Hst].
  apply launch_within_budget; [exact Hroom | exact Hst].
Qed.

Lemma continue_within_budget st st' :
  continue config st = Some st' -> within_budget config st -> within_budget config st'.
Proof.
  unfold continue. intros Hstep Hst.
  destruct (main st).
  - destruct (negb _ && _).
    + pose proof (fill_within_budget (length (crawlQueue st)) st Hst) as Ha.
      destruct (bool_decide (activeCrawls _ = [])); by injection Hstep as <-.
    + by injection Hstep as <-.
  - destruct (raced st); [by injection Hstep as <- | discriminate].
  - destruct (bool_decide _); [by injection Hstep as <- | discriminate].
  - discriminate.
Qed.

Lemma resume_within_budget c w st st' :
  List.find (fun x => bool_decide (promise x = promise c))
    (activeCrawls st) = Some c ->
  resume config c w st = Some st' -> within_budget config st -> within_budget config st'.
Proof.
  intros Hc Hstep [Hactive Hbudget].
  unfold resume in Hstep. unfold within_budget, pending in *.
  destruct (phase c) eqn:Hphase, w as [| msg | [links'|] | | msg |];
    try discriminate; injection Hstep as <-;
    cbn [set_phase with_active with_queue visit log_error settle
         activeCrawls visitedUrls];
    rewrite ?length_map.
  - (* the rate limiter resolves: the URL is recorded *)
    pose proof (size_visit (visitedUrls st) (target c)).
    pose proof (pending_set_phase_lt (promise c) AwaitingFetch
                  (activeCrawls st) c ltac:(done) Hc Hphase).
    split; [done | lia].
  - pose proof (pending_set_phase_le (promise c) Settling
                  (activeCrawls st) ltac:(done)).
    split; [done | lia].
  - pose proof (pending_set_phase_le (promise c) (AwaitingExtraction links')
                  (activeCrawls st) ltac:(done)).
    split; [done | lia].
  - pose proof (pending_set_phase_le (promise c) Settling
                  (activeCrawls st) ltac:(done)).
    split; [done | lia].
  - pose proof (pending_set_phase_le (promise c) Settling
                  (activeCrawls st) ltac:(done)).
    split; [done | lia].
  - pose proof (pending_set_phase_le (promise c) Settling
                  (activeCrawls st) ltac:(done)).
    split; [done | lia].
  - pose proof (length_settle (promise c) (activeCrawls st)).
    pose proof (pending_settle (promise c) (activeCrawls st)).
    split; lia.
Qed.

Lemma step_within_budget a st st' :
  step config a st = Some st' -> within_budget config st -> within_budget config st'.
Proof.
  destruct a as [p w|]; cbn.
  - destruct (List.find _ _) as [c|] eqn:Hfind; [|discriminate].
    intros Hstep. apply (resume_within_budget c w); [|exact Hstep].
    apply List.find_some in Hfind as Hp.
    destruct Hp as [_ Hp]. apply bool_decide_eq_true in Hp. by rewrite Hp.
  - apply continue_within_budget.
Qed.

Lemma run_within_budget schedule st st' :
  run config schedule st = Some st' -> within_budget config st -> within_budget config st'.
Proof.
  revert st. induction schedule as [|a schedule IH]; intros st; cbn.
  - by intros [= <-].
  - destruct (step config a st) as [st1|] eqn:Hstep; [|discriminate].
    intros Hrun Hst. apply (IH st1 Hrun).
    by apply (step_within_budget a st).
Qed.

(** What the loop does guarantee: under every schedule the number of
    visited URLs exceeds the page budget by less than the number of
    concurrent crawls. *)
Lemma crawlParallel_visited_bound queue schedule st :
  run config schedule (start queue) = Some st ->
  size (visitedUrls st) <= maxPages config + (maxConcurrentCrawls - 1).
Proof.
  intros Hrun.
  destruct (run_within_budget schedule _ st Hrun (start_within_budget queue))
    as [_ Hbudget].
  lia.
Qed.

End Budget.

End ParallelFacts.

(** C1 fails on the loop as written.  With a budget of one page and two
    URLs in the queue, both crawls pass the guard of [crawlSingle] before
    either records its URL; the session completes with two visited URLs. *)
Theorem crawlParallel_exceeds_maxPages :
  maxPages Samples.one_page = 1 /\
  (fun st => (Parallel.main st, size (Parallel.visitedUrls st)))
    <$> Parallel.run (parser := Url.parse_http) Samples.one_page
          Samples.both_granted (Parallel.start Samples.two_urls)
  = Some (Parallel.Finished, 2).
Proof. split; [reflexivity | vm_compute; reflexivity]. Qed.

(* ===================================================================== *)
(** * Further properties of the sources *)
(* ===================================================================== *)

(** ** Sessions: resources and failures *)


(** X1.  [crawl] runs [cleanup] last on every path, whatever the stages do
    and whether its attempt returns or throws.  If no browser is open then,
    nothing is closed and the outcome is passed on.  If one is open,
    [browser.close()] is the last call made: when it resolves the handle is
    cleared and the outcome is passed on; when it rejects, the handle stays
    set and [crawl] rejects with that error, whatever its own outcome was.
    With no fault this is the [crawl] of the sessions above. *)
Theorem crawl_cleanup_last `{parser : Url.Parser}
  (env : Session.Environment) (faults : SessionFaults.Faults)
  (stages : string -> Session.M Session.CrawlResult)
  (domain : string) (c : Session.Crawler) :
  let '(attempted, c1) := SessionFaults.attempt env stages domain c in
  let '(outcome, c2) := SessionFaults.crawl env faults stages domain c in
  (if Session.browser c1 then
     Session.events c2 = Session.events c1 ++ [Session.CloseBrowser] /\
     match SessionFaults.browser_close_fails faults with
     | None => outcome = attempted /\ Session.browser c2 = false
     | Some msg =>
         outcome = Session.Thrown msg /\ Session.browser c2 = true
     end
   else outcome = attempted /\ c2 = c1) /\
  SessionFaults.crawl env SessionFaults.none stages domain c
  = Session.crawl env stages domain c.
Proof.
  unfold SessionFaults.crawl, Session.try_finally.
  destruct (SessionFaults.attempt env stages domain c) as [attempted c1]
    eqn:Hattempt.
  assert (SessionFaults.crawl env SessionFaults.none stages domain c
          = Session.crawl env stages domain c) as Hsame by reflexivity.
  unfold SessionFaults.crawl, Session.try_finally in Hsame.
  rewrite Hattempt in Hsame.
  unfold SessionFaults.cleanup, Session.get, Session.emit,
    Session.set_browser, Session.modify, Session.throw, mbind,
    Session.M_bind, mret, Session.M_ret in *.
  destruct (Session.browser c1) eqn:Hbrowser; cbn in *.
  - destruct (SessionFaults.browser_close_fails faults) as [msg|]; cbn;
      (split; [| exact Hsame]); repeat split; done.
  - split; [| exact Hsame]. by split.
Qed.

(** X2.  [fetchPageContent] never throws, in either mode and whatever the
    browser and the network do.  It returns [null] exactly when it has
    appended one entry for the URL to the error log; otherwise the log is
    unchanged.  It changes neither the configuration nor the visited set. *)
Theorem fetchPageContent_never_throws (env : Session.Environment)
  (url : string) (c : Session.Crawler) :
  exists (r : option string) (c' : Session.Crawler),
    Session.fetchPageContent env url c = (Session.Returned r, c') /\
    match r with
    | Some _ => Session.errors c' = Session.errors c
    | None => exists msg,
        Session.errors c' = Session.errors c ++ [mkCrawlError url msg]
    end /\
    Session.config c' = Session.config c /\
    Session.browser c' = Session.browser c /\
    Session.visitedUrls c' = Session.visitedUrls c.
Proof.
  destruct c as [cfg br vis found errs listened evs].
  destruct cfg as [md mp rr ie cd ua js tmo].
  destruct js, br;
    try (destruct (Session.renders env url) eqn:Hrenders);
    destruct (Session.responds env url) as [data|] eqn:Hresponse;
    eexists; eexists;
    SessionFacts.run_session; rewrite ?Hrenders, ?Hresponse; cbn;
    (split; [reflexivity |]); cbn; repeat split; eauto.
Qed.

(** X3.  [initialize] launches the browser at most once: it never throws,
    and a second call changes nothing, whether the launch succeeded (the
    browser is kept) or failed (JavaScript rendering is switched off). *)
Theorem initialize_idempotent (env : Session.Environment)
  (c : Session.Crawler) :
  exists c1 : Session.Crawler,
    Session.initialize env c = (Session.Returned tt, c1) /\
    Session.initialize env c1 = (Session.Returned tt, c1) /\
    (Session.browser c1 = true \/
     enableJavaScript (Session.config c1) = false).
Proof.
  destruct c as [cfg br vis found errs listened evs].
  destruct cfg as [md mp rr ie cd ua js tmo].
  destruct js, br, (Session.launches env) eqn:Hl;
    eexists; SessionFacts.run_session; rewrite ?Hl; cbn;
    (split; [reflexivity |]); SessionFacts.run_session;
    rewrite ?Hl; cbn; split; auto.
Qed.

(** ** The parallel crawl loop *)

Module ParallelMore.
Import SpiderCrawler Parallel.

Section Runs.
Context `{parser : Url.Parser}.
Variable config : ScannerConfig.

(** *** The visited set only grows *)

Lemma fill_visited fuel st :
  visitedUrls (fill config fuel st) = visitedUrls st.
Proof.
  revert st. induction fuel as [|fuel IH]; intros st; cbn; [done|].
  case_bool_decide; [|done].
  destruct (crawlQueue st) as [|url queue]; [done|].
  rewrite IH. by destruct (negb _ && negb _).
Qed.

Lemma step_visited_grows a st st' :
  step config a st = Some st' -> visitedUrls st ⊆ visitedUrls st'.
Proof.
  destruct a as [p w|]; cbn.
  - destruct (List.find _ _) as [c|]; [|discriminate].
    unfold resume.
    destruct (phase c), w as [| msg | [links'|] | | msg |];
      try discriminate; intros [= <-]; cbn; set_solver.
  - unfold continue.
    destruct (main st).
    + destruct (negb _ && _).
      * destruct (bool_decide _); intros [= <-]; cbn;
          by rewrite fill_visited.
      * by intros [= <-].
    + destruct (raced st); [by intros [= <-] | discriminate].
    + destruct (bool_decide _); [by intros [= <-] | discriminate].
    + discriminate.
Qed.

Lemma run_visited_grows schedule st st' :
  run config schedule st = Some st' -> visitedUrls st ⊆ visitedUrls st'.
Proof.
  revert st. induction schedule as [|a schedule IH]; intros st; cbn.
  - by intros [= <-].
  - destruct (step config a st) as [st1|] eqn:Hstep; [|discriminate].
    intros Hrun. etrans; [by eapply step_visited_grows | by apply IH].
Qed.

(** *** A finished loop has drained its crawls *)

Lemma fill_main fuel st : main (fill config fuel st) = main st.
Proof.
  revert st. induction fuel as [|fuel IH]; intros st; cbn; [done|].
  case_bool_decide; [|done].
  destruct (crawlQueue st) as [|url queue]; [done|].
  rewrite IH. by destruct (negb _ && negb _).
Qed.

Lemma step_drained a st st' :
  step config a st = Some st' ->
  (main st = Finished -> activeCrawls st = []) ->
  main st' = Finished -> activeCrawls st' = [].
Proof.
  destruct a as [p w|]; cbn.
  - destruct (List.find _ _) as [c|] eqn:Hfind; [|discriminate].
    intros Hstep Hst.
    assert (main st' = main st) as Hmain.
    { unfold resume in Hstep.
      destruct (phase c), w as [| msg | [links'|] | | msg |];
        try discriminate; by injection Hstep as <-. }
    rewrite Hmain. intros Hfin. rewrite (Hst Hfin) in Hfind. discriminate.
  - unfold continue. intros Hstep Hst.
    destruct (main st) eqn:Hmain.
    + destruct (negb _ && _).
      * destruct (bool_decide _); injection Hstep as <-; cbn;
          rewrite ?fill_main, ?Hmain; discriminate.
      * injection Hstep as <-. discriminate.
    + destruct (raced st); [injection Hstep as <- | ]; discriminate.
    + case_bool_decide as Hempty; [|discriminate].
      by injection Hstep as <-.
    + discriminate.
Qed.

Lemma run_drained schedule st st' :
  run config schedule st = Some st' ->
  (main st = Finished -> activeCrawls st = []) ->
  main st' = Finished -> activeCrawls st' = [].
Proof.
  revert st. induction schedule as [|a schedule IH]; intros st; cbn.
  - by intros [= <-].
  - destruct (step config a st) as [st1|] eqn:Hstep; [|discriminate].
    intros Hrun Hst. apply (IH st1 Hrun). by apply (step_drained a st).
Qed.

End Runs.

End ParallelMore.

(** X4.  Under every schedule, at every point of the parallel crawl, at
    most [maxConcurrentCrawls] (16) crawls are in flight, and the number of
    visited URLs exceeds the page budget by less than that number. *)
Theorem crawlParallel_concurrency_bound `{parser : Url.Parser}
  (config : ScannerConfig) (queue : list string)
  (schedule : list Parallel.Action) (st : Parallel.State)
  (Hrun : Parallel.run config schedule (Parallel.start queue) = Some st) :
  length (Parallel.activeCrawls st) <= 16 /\
  size (Parallel.visitedUrls st) <= maxPages config + 15.
Proof.
  destruct (ParallelFacts.run_within_budget config schedule _ st Hrun
              (ParallelFacts.start_within_budget config queue))
    as [Hactive Hbudget].
  unfold SpiderCrawler.maxConcurrentCrawls in *. split; lia.
Qed.

Lemma crawlParallel_concurrency_bound_witness :
  length (Parallel.activeCrawls Runs.both_done) <= 16 /\
  size (Parallel.visitedUrls Runs.both_done)
  <= maxPages Samples.one_page + 15.
Proof.
  apply (crawlParallel_concurrency_bound (parser := Url.parse_http)
           Samples.one_page Samples.two_urls Samples.both_granted).
  vm_compute; reflexivity.
Defined.

(** X5.  [crawlParallel] returns only when every crawl it launched has
    settled: under every schedule, once the loop has finished,
    [activeCrawls] is empty, and as long as a crawl is in flight the loop
    has not finished.  (The timers that the extraction of a page arms are
    not crawls: the loop does not await them, and the machine does not
    follow them.) *)
Theorem crawlParallel_finished_drained `{parser : Url.Parser}
  (config : ScannerConfig) (queue : list string)
  (schedule : list Parallel.Action) (st : Parallel.State)
  (Hrun : Parallel.run config schedule (Parallel.start queue) = Some st) :
  (Parallel.main st = Parallel.Finished -> Parallel.activeCrawls st = []) /\
  (Parallel.activeCrawls st <> [] ->
   Parallel.main st <> Parallel.Finished).
Proof.
  assert (Parallel.main st = Parallel.Finished ->
          Parallel.activeCrawls st = []) as Hdrained.
  { apply (ParallelMore.run_drained config schedule _ st Hrun).
    intros Hmain. discriminate. }
  split; [exact Hdrained |]. intros Hactive Hmain. by apply Hactive, Hdrained.
Qed.

Lemma crawlParallel_finished_drained_witness :
  (Parallel.main Runs.both_done = Parallel.Finished ->
   Parallel.activeCrawls Runs.both_done = []) /\
  (Parallel.activeCrawls Runs.both_done <> [] ->
   Parallel.main Runs.both_done <> Parallel.Finished).
Proof.
  apply (crawlParallel_finished_drained (parser := Url.parse_http)
           Samples.one_page Samples.two_urls Samples.both_granted).
  vm_compute; reflexivity.
Defined.

(** X6.  Under every schedule the set of visited URLs only grows: a URL
    recorded as visited is never forgotten during the crawl. *)
Theorem crawlParallel_visited_monotone `{parser : Url.Parser}
  (config : ScannerConfig) (before after : list Parallel.Action)
  (st0 st1 st2 : Parallel.State)
  (Hbefore : Parallel.run config before st0 = Some st1)
  (Hafter : Parallel.run config after st1 = Some st2) :
  Parallel.visitedUrls st0 ⊆ Parallel.visitedUrls st1 /\
  Parallel.visitedUrls st1 ⊆ Parallel.visitedUrls st2 /\
  size (Parallel.visitedUrls st1) <= size (Parallel.visitedUrls st2).
Proof.
  pose proof (ParallelMore.run_visited_grows config before st0 st1 Hbefore).
  pose proof (ParallelMore.run_visited_grows config after st1 st2 Hafter).
  split; [done |]. split; [done |]. by apply subseteq_size.
Qed.

Lemma crawlParallel_visited_monotone_witness :
  Parallel.visitedUrls (Parallel.start Samples.two_urls)
    ⊆ Parallel.visitedUrls Runs.both_fetching /\
  Parallel.visitedUrls Runs.both_fetching
    ⊆ Parallel.visitedUrls Runs.both_done /\
  size (Parallel.visitedUrls Runs.both_fetching)
  <= size (Parallel.visitedUrls Runs.both_done).
Proof.
  apply (crawlParallel_visited_monotone (parser := Url.parse_http)
           Samples.one_page Runs.until_granted Runs.after_granted).
  - vm_compute; reflexivity.
  - vm_compute; reflexivity.
Defined.

(** Runs the machine of the goal: unfolds its operations and settles the
    decidable tests that the context decides. *)
Ltac unfold_machine :=
  unfold Parallel.launch, Parallel.crawlSingle_entry, Parallel.with_queue,
    Parallel.with_main, Parallel.with_active, Parallel.set_phase,
    Parallel.visit, Parallel.log_error, Parallel.settle, Parallel.resume,
    Parallel.continue, Parallel.step, Parallel.start;
  cbn [Parallel.main Parallel.crawlQueue Parallel.visitedUrls
       Parallel.activeCrawls Parallel.next_promise Parallel.errors
       Parallel.raced Parallel.phase Parallel.promise Parallel.target
       Parallel.fill Parallel.run length List.find List.filter map
       negb andb orb app].

Ltac settle_test :=
  match goal with
  | |- context [@bool_decide ?P ?d] =>
      first
        [ let HP := fresh in
          assert P as HP
            by (first [ set_solver
                      | rewrite ?size_empty;
                        unfold SpiderCrawler.maxConcurrentCrawls; cbn; lia ]);
          rewrite (@bool_decide_eq_true_2 P d HP); clear HP
        | let HP := fresh in
          assert (~ P) as HP
            by (first [ set_solver
                      | rewrite ?size_empty;
                        unfold SpiderCrawler.maxConcurrentCrawls; cbn; lia
                      | discriminate ]);
          rewrite (@bool_decide_eq_false_2 P d HP); clear HP ]
  end.

Ltac run_machine := repeat (progress unfold_machine || settle_test).

(** X7.  The loop does not deduplicate the queue against the crawls in
    flight: a URL queued twice is launched twice, both crawls pass the guard
    of [crawlSingle], and both go on to fetch it. *)
Theorem crawlParallel_fetches_duplicates_twice `{parser : Url.Parser}
  (config : ScannerConfig) (url : string)
  (Hbudget : 1 <= maxPages config) (Hurl : url <> "") :
  exists st : Parallel.State,
    Parallel.run config
      [Parallel.Continue; Parallel.Wake 0 Parallel.Granted;
       Parallel.Wake 1 Parallel.Granted]
      (Parallel.start [url; url]) = Some st /\
    Parallel.activeCrawls st =
      [Parallel.mkCrawl 0 url Parallel.AwaitingFetch;
       Parallel.mkCrawl 1 url Parallel.AwaitingFetch] /\
    Parallel.visitedUrls st = {[url]}.
Proof.
  assert (String.eqb url "" = false) as Hne by by apply String.eqb_neq.
  eexists. split; [| split].
  - repeat (progress unfold_machine || settle_test || rewrite Hne).
    reflexivity.
  - reflexivity.
  - cbn [Parallel.visitedUrls].
    by rewrite (left_id_L ∅ (∪)), (idemp_L (∪)).
Qed.

Lemma crawlParallel_fetches_duplicates_twice_witness :
  exists st : Parallel.State,
    Parallel.run (parser := Url.parse_http) Samples.one_page
      [Parallel.Continue; Parallel.Wake 0 Parallel.Granted;
       Parallel.Wake 1 Parallel.Granted]
      (Parallel.start [Samples.site; Samples.site]) = Some st /\
    Parallel.activeCrawls st =
      [Parallel.mkCrawl 0 Samples.site Parallel.AwaitingFetch;
       Parallel.mkCrawl 1 Samples.site Parallel.AwaitingFetch] /\
    Parallel.visitedUrls st = {[Samples.site]}.
Proof.
  apply (crawlParallel_fetches_duplicates_twice (parser := Url.parse_http)
           Samples.one_page Samples.site).
  - cbn; lia.
  - discriminate.
Defined.

(** ** Arrays and regular expressions: auxiliary facts *)

Module ArrFacts.

Lemma elem_of_unique_from seen l x :
  x ∈ Arr.unique_from seen l <-> x ∈ l /\ x ∉ seen.
Proof.
  revert seen. induction l as [|y l IH]; intros seen; cbn.
  - rewrite elem_of_nil. tauto.
  - case_bool_decide as Hy.
    + rewrite IH, elem_of_cons. split; [tauto |].
      intros [[-> | Hx] Hseen]; [done | tauto].
    + rewrite !elem_of_cons, IH, elem_of_cons. split.
      * intros [-> | [Hx Hseen]]; [tauto |]. split; [tauto |]. tauto.
      * intros [[-> | Hx] Hseen]; [tauto |].
        destruct (decide (x = y)) as [-> | Hne]; [tauto |]. right. tauto.
Qed.

Lemma NoDup_unique_from seen l : NoDup (Arr.unique_from seen l).
Proof.
  revert seen. induction l as [|y l IH]; intros seen; cbn.
  - constructor.
  - case_bool_decide as Hy; [apply IH |].
    constructor; [| apply IH].
    rewrite elem_of_unique_from, elem_of_cons. tauto.
Qed.

Lemma elem_of_unique l x : x ∈ Arr.unique l <-> x ∈ l.
Proof.
  unfold Arr.unique. rewrite elem_of_unique_from, elem_of_nil. tauto.
Qed.

Lemma NoDup_unique l : NoDup (Arr.unique l).
Proof. apply NoDup_unique_from. Qed.

Lemma unique_nil l : Arr.unique l = [] <-> l = [].
Proof.
  split; [| by intros ->].
  destruct l as [|x l]; [done |]. intros Hnil.
  assert (x ∈ Arr.unique (x :: l)) as Hx by (apply elem_of_unique; left).
  rewrite Hnil in Hx. by apply elem_of_nil in Hx.
Qed.

End ArrFacts.

Module StrFacts.

Lemma append_cons (x : ascii) (a b : string) :
  String x a +:+ b = String x (a +:+ b).
Proof. reflexivity. Qed.

Lemma append_nil_l (a : string) : "" +:+ a = a.
Proof. reflexivity. Qed.

Lemma append_assoc (a b c : string) : (a +:+ b) +:+ c = a +:+ b +:+ c.
Proof.
  induction a as [|x a IH]; [done |]. by rewrite !append_cons, IH.
Qed.

Lemma append_nil_r (a : string) : a +:+ "" = a.
Proof. induction a as [|x a IH]; [done |]. by rewrite append_cons, IH. Qed.

Lemma length_append (a b : string) :
  String.length (a +:+ b) = String.length a + String.length b.
Proof.
  induction a as [|x a IH]; [done |]. rewrite append_cons. cbn. by rewrite IH.
Qed.

Lemma drop_append (a b : string) : Str.drop (String.length a) (a +:+ b) = b.
Proof.
  induction a as [|x a IH]; [by destruct b |]. by rewrite append_cons.
Qed.

Lemma take_append (a b : string) : Str.take (String.length a) (a +:+ b) = a.
Proof.
  induction a as [|x a IH]; [by destruct b |].
  rewrite append_cons. cbn. by rewrite IH.
Qed.

Lemma take_drop (n : nat) (s : string) : Str.take n s +:+ Str.drop n s = s.
Proof.
  revert s. induction n as [|n IH]; intros [|x s]; cbn; try done.
  by rewrite append_cons, IH.
Qed.

Lemma drop_drop (n m : nat) (s : string) :
  Str.drop m (Str.drop n s) = Str.drop (n + m) s.
Proof.
  revert s. induction n as [|n IH]; intros s; cbn; [done |].
  destruct s as [|x s]; [by destruct m | apply IH].
Qed.

Lemma length_drop (n : nat) (s : string) :
  String.length (Str.drop n s) = String.length s - n.
Proof.
  revert s. induction n as [|n IH]; intros [|x s]; cbn; try done; lia.
Qed.

Lemma drop_all (n : nat) (s : string) :
  String.length s <= n -> Str.drop n s = "".
Proof.
  revert s. induction n as [|n IH]; intros [|x s]; cbn; try done; try lia.
  intros Hle. apply IH. lia.
Qed.

(** A text that occurs at some position is included. *)
Lemma includes_drop (s p : string) (n : nat) :
  Str.startsWith (Str.drop n s) p = true -> Str.includes s p = true.
Proof.
  intros Hp. apply includes_spec.
  apply startsWith_spec in Hp as [t Ht].
  exists (Str.take n s), t. by rewrite <- Ht, take_drop.
Qed.

End StrFacts.

Module RegexFacts.
Import Regex.

(** A match consumes a prefix of the text at the cursor. *)
Lemma run_consumes r c c' :
  c' ∈ run r c -> exists w, c.2 = w +:+ c'.2.
Proof.
  revert c c'. induction r as [| p | r1 IH1 r2 IH2 | r1 IH1 r2 IH2 | r IH | | |];
    intros c c' Hin; cbn in Hin.
  - apply list_elem_of_singleton in Hin as ->. by exists "".
  - destruct c as [prev [|a s]]; cbn in Hin; [by apply elem_of_nil in Hin |].
    destruct (p a); [| by apply elem_of_nil in Hin].
    apply list_elem_of_singleton in Hin as ->. by exists (String a "").
  - apply list_elem_of_bind in Hin as (c1 & Hc' & Hc1).
    destruct (IH1 _ _ Hc1) as [w1 Hw1], (IH2 _ _ Hc') as [w2 Hw2].
    exists (w1 +:+ w2). rewrite StrFacts.append_assoc. by rewrite Hw1, Hw2.
  - apply elem_of_app in Hin as [Hin | Hin]; [by apply IH1 | by apply IH2].
  - remember (String.length c.2) as fuel eqn:Hfuel. clear Hfuel.
    revert c Hin. induction fuel as [|fuel IHf]; intros c Hin.
    + apply list_elem_of_singleton in Hin as ->. by exists "".
    + apply elem_of_app in Hin as [Hin | Hin].
      * apply list_elem_of_bind in Hin as (c1 & Hc' & Hc1).
        destruct (IH _ _ Hc1) as [w1 Hw1].
        case_bool_decide; [| by apply elem_of_nil in Hc'].
        destruct (IHf _ Hc') as [w2 Hw2].
        exists (w1 +:+ w2). rewrite StrFacts.append_assoc.
        by rewrite Hw1, Hw2.
      * apply list_elem_of_singleton in Hin as ->. by exists "".
  - destruct c as [[a|] s]; cbn in Hin; [by apply elem_of_nil in Hin |].
    apply list_elem_of_singleton in Hin as ->. by exists "".
  - destruct c as [prev [|a s]]; cbn in Hin; [| by apply elem_of_nil in Hin].
    apply list_elem_of_singleton in Hin as ->. by exists "".
  - destruct (xorb _ _); [| by apply elem_of_nil in Hin].
    apply list_elem_of_singleton in Hin as ->. by exists "".
Qed.

(** A literal text matches exactly itself. *)
Lemma run_str w c c' : c' ∈ run (str w) c -> c.2 = w +:+ c'.2.
Proof.
  revert c. induction w as [|a w IH]; intros c Hin; cbn in Hin.
  - by apply list_elem_of_singleton in Hin as ->.
  - apply list_elem_of_bind in Hin as (c1 & Hc' & Hc1).
    destruct c as [prev [|b s]]; cbn in Hc1; [by apply elem_of_nil in Hc1 |].
    destruct (Ascii.eqb a b) eqn:Hab; [| by apply elem_of_nil in Hc1].
    apply Ascii.eqb_eq in Hab as ->.
    apply list_elem_of_singleton in Hc1 as ->.
    apply IH in Hc'. cbn in *. by rewrite Hc'.
Qed.

(** The leftmost match starts at a suffix of the text searched. *)
Lemma find_start r prev s start stop :
  find r prev s = Some (start, stop) ->
  exists u prev', s = u +:+ start /\ stop ∈ run r (prev', start).
Proof.
  revert prev. induction s as [|a s IH]; intros prev; cbn.
  - destruct (run r (prev, "")) as [|c l] eqn:Hrun; [discriminate |].
    intros [= <- <-]. exists "", prev. split; [done |]. rewrite Hrun. left.
  - destruct (run r (prev, String a s)) as [|c l] eqn:Hrun.
    + intros Hfind. destruct (IH _ Hfind) as (u & prev' & -> & Hstop).
      by exists (String a u), prev'.
    + intros [= <- <-]. exists "", prev. split; [done |]. rewrite Hrun. left.
Qed.

(** The text between the start and the end of a match. *)
Lemma matched_run r prev start stop :
  stop ∈ run r (prev, start) -> start = matched start stop +:+ stop.2.
Proof.
  intros Hstop. destruct (run_consumes _ _ _ Hstop) as [w Hw]. cbn in Hw.
  unfold matched. rewrite Hw at 1 2 3.
  rewrite StrFacts.length_append.
  replace (String.length w + String.length stop.2 - String.length stop.2)
    with (String.length w) by lia.
  by rewrite StrFacts.take_append.
Qed.

(** Every match of a global search occurs in the text, at a place where
    the expression matches it. *)
Lemma match_all_from_occurs fuel r prev s m :
  m ∈ match_all_from fuel r prev s ->
  exists u v prev' stop,
    s = u +:+ m +:+ v /\ stop ∈ run r (prev', m +:+ v) /\ stop.2 = v.
Proof.
  revert prev s. induction fuel as [|fuel IH]; intros prev s; cbn.
  - intros Hin. by apply elem_of_nil in Hin.
  - destruct (find r prev s) as [[start stop]|] eqn:Hfind;
      [| intros Hin; by apply elem_of_nil in Hin].
    destruct (find_start _ _ _ _ _ Hfind) as (u & prev' & -> & Hstop).
    pose proof (matched_run _ _ _ _ Hstop) as Hstart.
    intros Hin. apply elem_of_cons in Hin as [-> | Hin].
    + exists u, stop.2, prev', stop. by rewrite <- Hstart.
    + assert (forall prev1 s1 u1,
                start = u1 +:+ s1 ->
                m ∈ match_all_from fuel r prev1 s1 ->
                exists u' v prev' stop,
                  u +:+ start = u' +:+ m +:+ v
                  /\ stop ∈ run r (prev', m +:+ v) /\ stop.2 = v) as Hrest.
      { intros prev1 s1 u1 -> Hm.
        destruct (IH _ _ Hm) as (u2 & v & prev2 & stop2 & -> & Hrun & Hv).
        exists (u +:+ u1 +:+ u2), v, prev2, stop2.
        by rewrite !StrFacts.append_assoc. }
      destruct (matched start stop) as [|x mm] eqn:Hm.
      * destruct start as [|a s'];
          [by apply elem_of_nil in Hin |].
        by apply (Hrest (Some a) s' (String a "")).
      * apply (Hrest stop.1 stop.2 (String x mm)); [| done].
        by rewrite Hstart at 1.
Qed.

Lemma match_all_occurs r s m :
  m ∈ match_all r s ->
  exists u v prev' stop,
    s = u +:+ m +:+ v /\ stop ∈ run r (prev', m +:+ v) /\ stop.2 = v.
Proof. apply match_all_from_occurs. Qed.

End RegexFacts.

(** ** [pattern-matcher.ts]: normalisation, scores and extraction *)

(** X8.  [normalizeEndpoint] returns [null] only for a relative endpoint (one
    that starts with a slash, or neither starts with [http] nor contains
    [://]) whose base URL cannot be parsed; an absolute endpoint is returned
    whatever the base is.  Every result ends with the endpoint text. *)
Theorem normalizeEndpoint_result `{parser : Url.Parser}
  (endpoint baseUrl : string) :
  (EndpointPatterns.normalizeEndpoint endpoint baseUrl = None <->
   Url.new_URL baseUrl = None /\
   (Str.startsWith endpoint "/" = true \/
    (Str.startsWith endpoint "http" = false /\
     Str.includes endpoint "://" = false))) /\
  (forall r, EndpointPatterns.normalizeEndpoint endpoint baseUrl = Some r ->
             Str.endsWith r endpoint = true).
Proof.
  unfold EndpointPatterns.normalizeEndpoint. split.
  - destruct (Str.startsWith endpoint "/") eqn:Hslash,
      (Str.startsWith endpoint "http") eqn:Hhttp,
      (Str.includes endpoint "://") eqn:Hscheme,
      (Url.new_URL baseUrl) as [base|]; cbn;
      split; try done; try (intros [? [? | [? ?]]]; done);
      intros _; split; auto.
  - intros r Hr. apply endsWith_spec.
    destruct (Str.startsWith endpoint "/"),
      (Str.startsWith endpoint "http"),
      (Str.includes endpoint "://"),
      (Url.new_URL baseUrl) as [base|]; cbn in Hr; try discriminate;
      injection Hr as <-;
      first [ by exists ""
            | by exists (Url.protocol base +:+ "//" +:+ Url.host base);
              rewrite !StrFacts.append_assoc
            | exists (Url.protocol base +:+ "//" +:+ Url.host base +:+ "/");
              by rewrite !StrFacts.append_assoc ].
Qed.

(** X9.  The score of the regular-expression matcher lies between 0.5 and
    1 for every pattern text and every number of matches, and it does not
    decrease when the number of matches grows. *)
Theorem regex_confidence_bounds (pattern_source : string) (n1 n2 : nat)
  (Hle : n1 <= n2) :
  (0.5 <=? PatternMatcher.calculateConfidence pattern_source n1)%float
    = true /\
  (PatternMatcher.calculateConfidence pattern_source n1
     <=? PatternMatcher.calculateConfidence pattern_source n2)%float
    = true /\
  (PatternMatcher.calculateConfidence pattern_source n2 <=? 1.0)%float
    = true.
Proof.
  unfold PatternMatcher.calculateConfidence.
  destruct (Str.includes pattern_source "api"),
    (Str.includes pattern_source "rest"),
    (Str.includes pattern_source "graphql");
    repeat case_bool_decide; try lia;
    vm_compute; repeat split; reflexivity.
Qed.

Lemma regex_confidence_bounds_witness :
  (0.5 <=? PatternMatcher.calculateConfidence "\/api\/v?\d*\/[a-zA-Z]+" 1)%float
    = true /\
  (PatternMatcher.calculateConfidence "\/api\/v?\d*\/[a-zA-Z]+" 1
     <=? PatternMatcher.calculateConfidence "\/api\/v?\d*\/[a-zA-Z]+" 7)%float
    = true /\
  (PatternMatcher.calculateConfidence "\/api\/v?\d*\/[a-zA-Z]+" 7
     <=? 1.0)%float = true.
Proof.
  apply (regex_confidence_bounds "\/api\/v?\d*\/[a-zA-Z]+" 1 7). lia.
Defined.

Module EndpointPatternsFacts.
Import EndpointPatterns.

(** The score of a pattern lies between 0.5 and 1. *)
Lemma confidence_range (pattern_source : string) (n : nat) :
  (0.5 <=? PatternMatcher.calculateConfidence pattern_source n)%float
    = true /\
  (PatternMatcher.calculateConfidence pattern_source n <=? 1.0)%float
    = true.
Proof.
  unfold PatternMatcher.calculateConfidence.
  destruct (Str.includes pattern_source "api"),
    (Str.includes pattern_source "rest"),
    (Str.includes pattern_source "graphql");
    repeat case_bool_decide; try lia;
    vm_compute; split; reflexivity.
Qed.

(** No two patterns of the list have the same text. *)
Lemma sources_injective (p p' : Pattern) :
  p ∈ API_PATTERNS -> p' ∈ API_PATTERNS -> source p = source p' -> p = p'.
Proof.
  intros Hp Hp' Hsource.
  assert (NoDup (source <$> API_PATTERNS)) as Hnodup
    by (apply (bool_decide_unpack _); vm_compute; exact I).
  apply list_elem_of_lookup in Hp as [i Hi], Hp' as [j Hj].
  assert (i = j) as ->; [| congruence].
  apply (NoDup_lookup _ i j (source p) Hnodup);
    rewrite list_lookup_fmap; [by rewrite Hi | by rewrite Hj, Hsource].
Qed.

Section Extraction.
Context `{parser : Url.Parser}.

(** The normalized matches of a pattern: what its expression matches in
    the content, normalized, without [null] and the empty string. *)
Lemma elem_of_normalized_matches p content baseUrl m :
  m ∈ normalized_matches p content baseUrl <->
  m <> "" /\
  exists raw, raw ∈ Regex.match_all (expr p) content /\
              normalizeEndpoint raw baseUrl = Some m.
Proof.
  unfold normalized_matches.
  rewrite list_elem_of_In, List.filter_In, <- list_elem_of_In,
    list_elem_of_omap, negb_true_iff, String.eqb_neq. tauto.
Qed.

Lemma extract_from_patterns content baseUrl (l : list Pattern) :
  let results :=
    flat_map
      (fun p =>
         let matches := normalized_matches p content baseUrl in
         if bool_decide (0 < length matches) then
           [ {| pattern := source p;
                matches := Arr.unique matches;
                confidence :=
                  PatternMatcher.calculateConfidence (source p)
                    (length matches) |} ]
         else []) l in
  pattern <$> results `sublist_of` source <$> l /\
  Forall
    (fun pm =>
       exists p, p ∈ l /\ normalized_matches p content baseUrl <> [] /\
                 pm = {| pattern := source p;
                         matches :=
                           Arr.unique (normalized_matches p content baseUrl);
                         confidence :=
                           PatternMatcher.calculateConfidence (source p)
                             (length (normalized_matches p content baseUrl))
                      |})
    results /\
  (forall p, p ∈ l -> normalized_matches p content baseUrl <> [] ->
             exists pm, pm ∈ results /\ pattern pm = source p).
Proof.
  induction l as [|p l (IH1 & IH2 & IH3)]; cbn -[normalized_matches].
  { split; [constructor |]. split; [constructor |].
    intros p Hp. by apply elem_of_nil in Hp. }
  case_bool_decide as Hlen; cbn -[normalized_matches].
  - split; [by constructor |]. split.
    + constructor.
      * exists p. split; [left |]. split; [| done].
        intros Hnil. rewrite Hnil in Hlen. cbn in Hlen. lia.
      * eapply Forall_impl; [exact IH2 |].
        intros pm (p' & Hp' & Hne & Hpm). exists p'.
        split; [by right | done].
    + intros p' Hp' Hne. apply elem_of_cons in Hp' as [-> | Hp'].
      * eexists. split; [left | done].
      * destruct (IH3 p' Hp' Hne) as (pm & Hpm & Hpattern).
        exists pm. split; [by right | done].
  - split; [by constructor |]. split.
    + eapply Forall_impl; [exact IH2 |].
      intros pm (p' & Hp' & Hne & Hpm). exists p'.
      split; [by right | done].
    + intros p' Hp' Hne. apply elem_of_cons in Hp' as [-> | Hp'].
      * destruct (normalized_matches p content baseUrl); [done |].
        cbn in Hlen. lia.
      * by apply IH3.
Qed.

End Extraction.

End EndpointPatternsFacts.

(** X10.  [extractEndpoints] reports each pattern at most once, in the
    order of [API_PATTERNS], and exactly the patterns that matched.  What
    it reports under a pattern are the texts the expression of that
    pattern matches in the content (each of them occurs there), normalized
    against the base URL, without [null] and the empty string: all of
    them, each once.  The score is that of the pattern for the number of
    matches before duplicates are removed; it lies between 0.5 and 1. *)
Theorem extractEndpoints_reports_matches `{parser : Url.Parser}
  (content baseUrl : string) :
  EndpointPatterns.pattern
    <$> EndpointPatterns.extractEndpoints content baseUrl
    `sublist_of` EndpointPatterns.source <$> EndpointPatterns.API_PATTERNS /\
  Forall
    (fun pm =>
       exists p,
         p ∈ EndpointPatterns.API_PATTERNS /\
         EndpointPatterns.pattern pm = EndpointPatterns.source p /\
         (forall m,
            m ∈ EndpointPatterns.matches pm <->
            m <> "" /\
            exists raw,
              raw ∈ Regex.match_all (EndpointPatterns.expr p) content /\
              EndpointPatterns.normalizeEndpoint raw baseUrl = Some m) /\
         EndpointPatterns.matches pm <> [] /\
         NoDup (EndpointPatterns.matches pm) /\
         EndpointPatterns.confidence pm
         = PatternMatcher.calculateConfidence (EndpointPatterns.source p)
             (length (EndpointPatterns.normalized_matches p content baseUrl))
         /\
         (0.5 <=? EndpointPatterns.confidence pm)%float = true /\
         (EndpointPatterns.confidence pm <=? 1.0)%float = true)
    (EndpointPatterns.extractEndpoints content baseUrl) /\
  (forall p,
     p ∈ EndpointPatterns.API_PATTERNS ->
     (exists pm,
        pm ∈ EndpointPatterns.extractEndpoints content baseUrl /\
        EndpointPatterns.pattern pm = EndpointPatterns.source p) <->
     (exists raw m,
        raw ∈ Regex.match_all (EndpointPatterns.expr p) content /\
        EndpointPatterns.normalizeEndpoint raw baseUrl = Some m /\
        m <> "")) /\
  (forall p raw,
     raw ∈ Regex.match_all (EndpointPatterns.expr p) content ->
     Str.includes content raw = true).
Proof.
  destruct (EndpointPatternsFacts.extract_from_patterns content baseUrl
              EndpointPatterns.API_PATTERNS) as (Horder & Hsound & Hcomplete).
  fold (EndpointPatterns.extractEndpoints content baseUrl)
    in Horder, Hsound, Hcomplete.
  split; [exact Horder |]. split; [| split].
  - eapply Forall_impl; [exact Hsound |].
    intros pm (p & Hp & Hne & ->). exists p.
    cbn -[EndpointPatterns.normalized_matches].
    destruct (EndpointPatternsFacts.confidence_range
                (EndpointPatterns.source p)
                (length (EndpointPatterns.normalized_matches p content
                           baseUrl))) as (Hlo & Hhi).
    split; [done |]. split; [done |]. split; [| split; [| split]].
    + intros m. rewrite ArrFacts.elem_of_unique.
      apply EndpointPatternsFacts.elem_of_normalized_matches.
    + by rewrite ArrFacts.unique_nil.
    + apply ArrFacts.NoDup_unique.
    + done.
  - intros p Hp. split.
    + intros (pm & Hpm & Hpattern).
      rewrite Forall_forall in Hsound.
      destruct (Hsound pm Hpm) as (p' & Hp' & Hne & ->).
      cbn in Hpattern.
      assert (p' = p) as ->
        by by apply EndpointPatternsFacts.sources_injective.
      destruct (EndpointPatterns.normalized_matches p content baseUrl)
        as [|m l] eqn:Hmatches; [done |].
      assert (m ∈ EndpointPatterns.normalized_matches p content baseUrl)
        as Hm by (rewrite Hmatches; left).
      apply EndpointPatternsFacts.elem_of_normalized_matches in Hm
        as (Hnonempty & raw & Hraw & Hnorm).
      by exists raw, m.
    + intros (raw & m & Hraw & Hnorm & Hnonempty).
      apply Hcomplete; [done |].
      assert (m ∈ EndpointPatterns.normalized_matches p content baseUrl)
        as Hm.
      { apply EndpointPatternsFacts.elem_of_normalized_matches.
        split; [done |]. by exists raw. }
      intros Hnil. rewrite Hnil in Hm. by apply elem_of_nil in Hm.
  - intros p raw Hraw.
    apply RegexFacts.match_all_occurs in Hraw
      as (u & v & prev' & stop & -> & _).
    apply includes_spec. by exists u, v.
Qed.

(** ** [wasm-pattern-matcher.ts]: pattern positions *)

Module WasmMatcherFacts.
Import WasmMatcher.

(** [find_at] returns the first place at which the pattern occurs. *)
Lemma find_at_Some p s pos n :
  find_at p s pos = Some n ->
  exists k, n = pos + k /\ Str.startsWith (Str.drop k s) p = true /\
            forall j, j < k -> Str.startsWith (Str.drop j s) p = false.
Proof.
  revert pos. induction s as [|a s IH]; intros pos; cbn [find_at].
  - destruct (Str.startsWith "" p) eqn:Hp; [| discriminate].
    intros [= <-]. exists 0. split; [lia |]. split; [done |]. lia.
  - destruct (Str.startsWith (String a s) p) eqn:Hp.
    + intros [= <-]. exists 0. split; [lia |]. split; [done |]. lia.
    + intros Hfind. destruct (IH _ Hfind) as (k & -> & Hk & Hfirst).
      exists (S k). split; [lia |]. split; [done |].
      intros [|j] Hj; [done |]. apply Hfirst. lia.
Qed.

Lemma find_at_includes p s pos :
  is_Some (find_at p s pos) <-> Str.includes s p = true.
Proof.
  revert pos. induction s as [|a s IH]; intros pos;
    cbn [find_at Str.includes].
  - destruct (Str.startsWith "" p); cbn; [by split; eauto |].
    split; [intros [? ?]; discriminate | discriminate].
  - destruct (Str.startsWith (String a s) p); cbn; [by split; eauto |].
    apply IH.
Qed.

Lemma indexOf_Some s p from n :
  indexOf s p from = Some n ->
  Nat.min from (String.length s) <= n /\
  Str.startsWith (Str.drop n s) p = true /\
  forall j, Nat.min from (String.length s) <= j -> j < n ->
            Str.startsWith (Str.drop j s) p = false.
Proof.
  unfold indexOf. intros Hfind.
  apply find_at_Some in Hfind as (k & -> & Hk & Hfirst).
  rewrite StrFacts.drop_drop in Hk. split; [lia |]. split; [done |].
  intros j Hlo Hhi.
  replace j with (Nat.min from (String.length s)
                  + (j - Nat.min from (String.length s))) by lia.
  rewrite <- StrFacts.drop_drop. apply Hfirst. lia.
Qed.

(** The array a scan returns is made of pairs. *)
Lemma scan_pairs_app fuel content p i index rest :
  pairs (scan fuel content p i index ++ rest)
  = pairs (scan fuel content p i index) ++ pairs rest.
Proof.
  revert index. induction fuel as [|fuel IH]; intros index; cbn [scan];
    [done |].
  case_bool_decide; [| done].
  destruct (indexOf content p index) as [found|]; [| done].
  cbn [app pairs]. by rewrite IH.
Qed.

Lemma scan_length fuel content p i index :
  length (scan fuel content p i index)
  = 2 * length (pairs (scan fuel content p i index)).
Proof.
  revert index. induction fuel as [|fuel IH]; intros index; cbn [scan];
    [done |].
  case_bool_decide; [| done].
  destruct (indexOf content p index) as [found|]; [| done].
  cbn [length pairs]. rewrite IH. lia.
Qed.

(** Every pair of a scan is an occurrence of the pattern at or after the
    starting index, and the occurrences reported do not overlap. *)
Lemma scan_sound fuel content p i index :
  Forall (fun '(i', found) =>
            i' = i /\ index <= found /\
            Str.startsWith (Str.drop found content) p = true)
    (pairs (scan fuel content p i index)).
Proof.
  revert index. induction fuel as [|fuel IH]; intros index; cbn [scan];
    [constructor |].
  case_bool_decide as Hindex; [| constructor].
  destruct (indexOf content p index) as [found|] eqn:Hfound; [| constructor].
  apply indexOf_Some in Hfound as (Hlo & Hocc & _).
  cbn [pairs]. constructor; [split; [done |]; split; [lia | done] |].
  eapply Forall_impl; [apply IH |].
  intros [i' found'] (-> & Hle & Hocc'). split; [done |]. split; [lia | done].
Qed.

(** The length of the content is fuel enough for a pattern that is not
    empty. *)
Lemma scan_fuel fuel content p i index :
  p <> "" -> String.length content <= index + fuel ->
  scan (S fuel) content p i index = scan fuel content p i index.
Proof.
  intros Hp. revert index. induction fuel as [|fuel IH]; intros index Hfuel.
  - cbn [scan]. rewrite bool_decide_eq_false_2; [done | lia].
  - cbn [scan] in *. case_bool_decide as Hindex; [| done].
    destruct (indexOf content p index) as [found|] eqn:Hfound; [| done].
    do 2 f_equal. apply indexOf_Some in Hfound as (Hlo & _ & _).
    assert (0 < String.length p) by (destruct p; [done | cbn; lia]).
    specialize (IH (found + String.length p) ltac:(lia)).
    cbn [scan] in IH. exact IH.
Qed.

End WasmMatcherFacts.

(** X11.  The array [matchAPIPatterns] returns is a sequence of (pattern
    index, position) pairs: its length is even, every index designates one
    of the eight patterns, and at every reported position that pattern
    does occur in the content. *)
Theorem matchAPIPatterns_sound (content : string) :
  length (WasmMatcher.matchAPIPatterns content)
  = 2 * length (WasmMatcher.pairs (WasmMatcher.matchAPIPatterns content)) /\
  Forall (fun '(i, found) =>
            exists p, WasmMatcher.patterns !! i = Some p /\
                      Str.startsWith (Str.drop found content) p = true)
    (WasmMatcher.pairs (WasmMatcher.matchAPIPatterns content)).
Proof.
  unfold WasmMatcher.matchAPIPatterns, WasmMatcher.patterns.
  cbn [imap concat compose]. split.
  - rewrite !WasmMatcherFacts.scan_pairs_app, !length_app,
      !WasmMatcherFacts.scan_length. cbn [WasmMatcher.pairs length]. lia.
  - rewrite !WasmMatcherFacts.scan_pairs_app.
    repeat (apply Forall_app; split); [.. | constructor];
      (eapply Forall_impl; [apply WasmMatcherFacts.scan_sound |]);
      intros [i found] (-> & _ & Hocc); eexists; (split; [| exact Hocc]);
      reflexivity.
Qed.

(** X12.  [matchAPIPatterns] misses no pattern: a pattern that occurs in
    the content is reported, with the position of its first occurrence;
    and more fuel than the length of the content changes nothing, so the
    loop of the source has ended by then. *)
Theorem matchAPIPatterns_complete (content p : string) (i : nat)
  (Hpattern : WasmMatcher.patterns !! i = Some p)
  (Hoccurs : Str.includes content p = true) :
  (exists found,
     (i, found) ∈ WasmMatcher.pairs (WasmMatcher.matchAPIPatterns content) /\
     Str.startsWith (Str.drop found content) p = true /\
     forall j, j < found -> Str.startsWith (Str.drop j content) p = false) /\
  forall extra,
    WasmMatcher.scan (String.length content + extra) content p i 0
    = WasmMatcher.scan (String.length content) content p i 0.
Proof.
  assert (p <> "" /\ 0 < String.length content) as [Hp Hcontent].
  { unfold WasmMatcher.patterns in Hpattern.
    do 8 (destruct i as [|i]; [injection Hpattern as <-;
                               (split; [done |]);
                               destruct content; [discriminate | cbn; lia] |]).
    discriminate. }
  split.
  - destruct (proj2 (WasmMatcherFacts.find_at_includes p content 0) Hoccurs)
      as [found Hfound].
    assert (WasmMatcher.indexOf content p 0 = Some found) as Hindex
      by (unfold WasmMatcher.indexOf; by rewrite Nat.min_0_l).
    pose proof (WasmMatcherFacts.indexOf_Some _ _ _ _ Hindex)
      as (_ & Hocc & Hfirst).
    exists found. split; [| split; [done |]].
    + assert ((i, found)
              ∈ WasmMatcher.pairs
                  (WasmMatcher.scan (String.length content) content p i 0))
        as Hin.
      { assert (forall fuel, 0 < fuel ->
                  (i, found)
                  ∈ WasmMatcher.pairs (WasmMatcher.scan fuel content p i 0))
          as Hfirst_pair; [| by apply Hfirst_pair].
        intros [|fuel] Hfuel; [lia |].
        cbn [WasmMatcher.scan]. rewrite bool_decide_eq_true_2 by lia.
        rewrite Hindex. cbn [WasmMatcher.pairs]. left. }
      unfold WasmMatcher.matchAPIPatterns, WasmMatcher.patterns in *.
      cbn [imap concat compose].
      rewrite !WasmMatcherFacts.scan_pairs_app, !elem_of_app.
      do 8 (destruct i as [|i]; [injection Hpattern as <-; tauto |]).
      discriminate.
    + intros j Hj. apply Hfirst; [| done]. rewrite Nat.min_0_l. lia.
  - intros extra. induction extra as [|extra IH].
    + by rewrite Nat.add_0_r.
    + rewrite Nat.add_succ_r, WasmMatcherFacts.scan_fuel; [done | done | lia].
Qed.

Lemma matchAPIPatterns_complete_witness :
  (exists found,
     (6, found)
     ∈ WasmMatcher.pairs
         (WasmMatcher.matchAPIPatterns "GET /api/users and /users") /\
     Str.startsWith (Str.drop found "GET /api/users and /users") "/users"
       = true /\
     forall j, j < found ->
       Str.startsWith (Str.drop j "GET /api/users and /users") "/users"
       = false) /\
  forall extra,
    WasmMatcher.scan
      (String.length "GET /api/users and /users" + extra)
      "GET /api/users and /users" "/users" 6 0
    = WasmMatcher.scan (String.length "GET /api/users and /users")
        "GET /api/users and /users" "/users" 6 0.
Proof.
  apply (matchAPIPatterns_complete "GET /api/users and /users" "/users" 6);
    reflexivity.
Defined.

(** ** [wasm-pattern-matcher.ts]: URLs in a text *)

Module UrlRegexFacts.
Import Regex.

Lemma append_cancel_r (a b v : string) : a +:+ v = b +:+ v -> a = b.
Proof.
  intros Heq.
  assert (String.length a = String.length b) as Hlen.
  { apply (f_equal String.length) in Heq.
    rewrite !StrFacts.length_append in Heq. lia. }
  rewrite <- (StrFacts.take_append a v), Heq, Hlen.
  apply StrFacts.take_append.
Qed.

Lemma run_chr p c c' :
  c' ∈ run (Chr p) c -> exists a, c.2 = String a c'.2 /\ p a = true.
Proof.
  destruct c as [prev [|a s]]; cbn; intros Hin;
    [by apply elem_of_nil in Hin |].
  destruct (p a) eqn:Hp; [| by apply elem_of_nil in Hin].
  apply list_elem_of_singleton in Hin as ->. by exists a.
Qed.

(** A repetition of a character class consumes characters of the class
    only. *)
Lemma run_star_chr p c c' :
  c' ∈ run (Star (Chr p)) c ->
  exists w, c.2 = w +:+ c'.2 /\
            Forall (fun a => p a = true) (String.list_ascii_of_string w).
Proof.
  cbn [run]. remember (String.length c.2) as fuel eqn:Hfuel. clear Hfuel.
  revert c. induction fuel as [|fuel IH]; intros c Hin.
  - apply list_elem_of_singleton in Hin as ->. exists "". by split.
  - apply elem_of_app in Hin as [Hin | Hin].
    + apply list_elem_of_bind in Hin as (c1 & Hc' & Hc1).
      apply run_chr in Hc1 as (a & Ha & Hp).
      case_bool_decide; [| by apply elem_of_nil in Hc'].
      destruct (IH _ Hc') as (w & Hw & Hall).
      exists (String a w). split.
      * by rewrite Ha, Hw.
      * cbn. by constructor.
    + apply list_elem_of_singleton in Hin as ->. exists "". by split.
Qed.

Lemma list_ascii_of_string_append (a b : string) :
  String.list_ascii_of_string (a +:+ b)
  = String.list_ascii_of_string a ++ String.list_ascii_of_string b.
Proof.
  induction a as [|x a IH]; [done |].
  rewrite StrFacts.append_cons. cbn. by rewrite IH.
Qed.

(** What [urlRegex] matches: a scheme, and at least one more character;
    none of its characters is a delimiter. *)
Lemma run_urlRegex c c' :
  c' ∈ run WasmMatcher.urlRegex c ->
  exists scheme rest,
    c.2 = scheme +:+ rest +:+ c'.2 /\
    (scheme = "http://" \/ scheme = "https://") /\
    rest <> "" /\
    Forall (fun a => WasmMatcher.url_char a = true)
      (String.list_ascii_of_string (scheme +:+ rest)).
Proof.
  unfold WasmMatcher.urlRegex, cats, plus, opt. intros Hin.
  apply list_elem_of_bind in Hin as (c1 & Hin & H1).
  apply list_elem_of_bind in Hin as (c2 & Hin & H2).
  apply list_elem_of_bind in Hin as (c3 & Hin & H3).
  apply list_elem_of_bind in Hin as (c4 & Hin & H4).
  apply list_elem_of_singleton in Hin as ->.
  apply list_elem_of_bind in H4 as (c5 & H6 & H5).
  apply RegexFacts.run_str in H1, H3.
  apply run_chr in H5 as (a & Ha & Hp).
  apply run_star_chr in H6 as (w & Hw & Hall).
  assert (c3.2 = String a w +:+ c4.2) as Hrest by by rewrite Ha, Hw.
  apply elem_of_app in H2 as [H2 | H2].
  - apply run_chr in H2 as (s & Hs & Heq).
    apply Ascii.eqb_eq in Heq as <-.
    exists "https://", (String a w). split; [| split; [by right |]].
    + by rewrite H1, Hs, H3, Hrest.
    + split; [done |]. rewrite list_ascii_of_string_append.
      apply Forall_app. split; [by repeat constructor |].
      cbn. by constructor.
  - apply list_elem_of_singleton in H2 as ->.
    exists "http://", (String a w). split; [| split; [by left |]].
    + by rewrite H1, H3, Hrest.
    + split; [done |]. rewrite list_ascii_of_string_append.
      apply Forall_app. split; [by repeat constructor |].
      cbn. by constructor.
Qed.

End UrlRegexFacts.

(** X13.  [extractURLs] returns no URL twice.  Every URL it returns occurs
    in the content, starts with [http://] or [https://], has at least one
    character after the scheme, and contains no white space, quote,
    closing parenthesis or closing brace. *)
Theorem extractURLs_sound (content : string) :
  NoDup (WasmMatcher.extractURLs content) /\
  Forall
    (fun url =>
       Str.includes content url = true /\
       (exists scheme rest,
          url = scheme +:+ rest /\
          (scheme = "http://" \/ scheme = "https://") /\ rest <> "") /\
       Forall (fun a => WasmMatcher.url_char a = true)
         (String.list_ascii_of_string url))
    (WasmMatcher.extractURLs content).
Proof.
  unfold WasmMatcher.extractURLs. split; [apply ArrFacts.NoDup_unique |].
  apply Forall_forall. intros url Hurl.
  rewrite ArrFacts.elem_of_unique in Hurl.
  apply RegexFacts.match_all_occurs in Hurl
    as (u & v & prev' & stop & Hcontent & Hrun & Hstop).
  apply UrlRegexFacts.run_urlRegex in Hrun
    as (scheme & rest & Hmatch & Hscheme & Hrest & Hall).
  cbn [snd] in Hmatch. rewrite Hstop in Hmatch.
  rewrite <- StrFacts.append_assoc in Hmatch.
  apply UrlRegexFacts.append_cancel_r in Hmatch as ->.
  split; [| split; [by exists scheme, rest | done]].
  apply includes_spec. by exists u, v.
Qed.

(** ** The sequential crawl *)

Module SequentialFacts.
Import SpiderCrawler Sequential.

Section Invariants.
Context `{parser : Url.Parser}.
Variable config : ScannerConfig.
Variable world : World.

(** A property of the state that every step of a crawl preserves. *)
Variable P : State -> Prop.
Hypothesis P_refused :
  forall url msg st, P st -> P (log_error url msg (consume st)).
Hypothesis P_fetched :
  forall url st,
    P st -> url ∉ visitedUrls st ->
    size (visitedUrls st) < maxPages config ->
    P (fetch url (visit url (consume st))).
Hypothesis P_failed :
  forall url msg st, P st -> P (log_error url msg st).

Lemma for_each_preserves (body body' : string -> State -> option State)
  (links : list string) (st : State) :
  (forall link st1, P st1 ->
     exists st2, body link st1 = Some st2 /\ body' link st1 = Some st2 /\
                 P st2 /\ visitedUrls st1 ⊆ visitedUrls st2) ->
  P st ->
  exists st', for_each body links st = Some st' /\
              for_each body' links st = Some st' /\
              P st' /\ visitedUrls st ⊆ visitedUrls st'.
Proof.
  clear P_refused P_fetched P_failed.
  intros Hbody. revert st. induction links as [|link links IH]; intros st HP.
  - by exists st.
  - destruct (Hbody link st HP) as (st1 & H1 & H1' & HP1 & Hsub1).
    destruct (IH st1 HP1) as (st2 & H2 & H2' & HP2 & Hsub2).
    exists st2. cbn. rewrite H1, H1'. repeat split; try done. set_solver.
Qed.

(** With fuel for the levels down to [maxDepth], a call returns; the
    property is kept, the visited set has only grown, and more fuel gives
    the same state. *)
Lemma crawlRecursive_preserves fuel url depth st more :
  S (S (maxDepth config) - depth) <= fuel ->
  P st ->
  exists st', crawlRecursive config world fuel url depth st = Some st' /\
              crawlRecursive config world (fuel + more) url depth st
              = Some st' /\
              P st' /\ visitedUrls st ⊆ visitedUrls st'.
Proof using Type*.
  revert url depth st. induction fuel as [|fuel IH]; intros url depth st;
    [lia |].
  intros Hfuel HP. cbn [crawlRecursive Nat.add].
  case_bool_decide as Hdepth; cbn [orb]; [by exists st |].
  case_bool_decide as Hpages; cbn [orb]; [by exists st |].
  case_bool_decide as Hvisited; [by exists st |].
  destruct (grants world (consumed st)) as [msg|].
  { eexists. repeat split; try done. by apply P_refused. }
  assert (P (fetch url (visit url (consume st)))) as HP'
    by (apply P_fetched; [done | done | lia]).
  assert (visitedUrls st
          ⊆ visitedUrls (fetch url (visit url (consume st)))) as Hsub
    by (cbn; set_solver).
  destruct (responds world _ url) as [| links | msg].
  - by eexists.
  - edestruct (for_each_preserves
                 (fun link st =>
                    if shouldCrawlUrl config link url
                    then crawlRecursive config world fuel link (S depth) st
                    else Some st)
                 (fun link st =>
                    if shouldCrawlUrl config link url
                    then crawlRecursive config world (fuel + more) link
                           (S depth) st
                    else Some st)
                 links (fetch url (visit url (consume st))))
      as (st' & H1 & H2 & HP2 & Hsub2); [| done |].
    + intros link st1 HP1. destruct (shouldCrawlUrl config link url).
      * apply IH; [lia | done].
      * by exists st1.
    + exists st'. repeat split; try done. set_solver.
  - eexists. repeat split; try done. by apply P_failed.
Qed.

End Invariants.

Lemma within_budget_start config : within_budget config start.
Proof.
  unfold within_budget, start; cbn. rewrite size_empty.
  split; [lia |]. split; [constructor |]. split; [| constructor].
  intros url. by rewrite elem_of_nil, elem_of_empty.
Qed.

Lemma within_budget_fetched config url st :
  within_budget config st -> url ∉ visitedUrls st ->
  size (visitedUrls st) < maxPages config ->
  within_budget config (fetch url (visit url (consume st))).
Proof.
  intros (Hsize & Hnodup & Hfetched & Hreported) Hnew Hroom.
  assert (size (visitedUrls st ∪ {[url]}) = S (size (visitedUrls st)))
    as Hgrown.
  { rewrite size_union by (by apply disjoint_singleton_r).
    rewrite size_singleton. lia. }
  unfold within_budget; cbn. rewrite Hgrown.
  split; [lia |]. split; [| split].
  - apply NoDup_app. split; [done |]. split; [| apply NoDup_singleton].
    intros u Hu Hin. apply list_elem_of_singleton in Hin as ->.
    by apply Hnew, Hfetched.
  - intros u. rewrite elem_of_app, elem_of_union, Hfetched,
      list_elem_of_singleton, elem_of_singleton. tauto.
  - apply Forall_app. split; [done |]. constructor; [lia | constructor].
Qed.

(** The page budget alone is kept as well. *)
Lemma crawlRecursive_size `{parser : Url.Parser} config world
  fuel url depth st more :
  S (S (maxDepth config) - depth) <= fuel ->
  size (visitedUrls st) <= maxPages config ->
  exists st', crawlRecursive config world fuel url depth st = Some st' /\
              crawlRecursive config world (fuel + more) url depth st
              = Some st' /\
              size (visitedUrls st') <= maxPages config /\
              visitedUrls st ⊆ visitedUrls st'.
Proof.
  apply (crawlRecursive_preserves config world
           (fun st => size (visitedUrls st) <= maxPages config)).
  - intros u msg s Hs. exact Hs.
  - intros u s Hs Hnew Hroom. cbn.
    rewrite size_union by (by apply disjoint_singleton_r).
    rewrite size_singleton. lia.
  - intros u msg s Hs. exact Hs.
Qed.

End SequentialFacts.

(** X14.  A call of [crawlRecursive] returns, whatever the rate limiter,
    the network and the extractions do: the recursion is at most
    [maxDepth + 1] levels deep, and nothing is thrown.  It never forgets a
    visited URL, and it keeps the page budget: if no more than [maxPages]
    URLs were visited before the call, no more are visited after it. *)
Theorem crawlRecursive_keeps_budget `{parser : Url.Parser}
  (config : ScannerConfig) (world : Sequential.World)
  (fuel : nat) (url : string) (depth : nat) (st : Sequential.State)
  (Hfuel : S (S (maxDepth config) - depth) <= fuel)
  (Hbudget : size (Sequential.visitedUrls st) <= maxPages config) :
  exists st' : Sequential.State,
    Sequential.crawlRecursive config world fuel url depth st = Some st' /\
    (forall more,
       Sequential.crawlRecursive config world (fuel + more) url depth st
       = Some st') /\
    Sequential.visitedUrls st ⊆ Sequential.visitedUrls st' /\
    size (Sequential.visitedUrls st') <= maxPages config.
Proof.
  destruct (SequentialFacts.crawlRecursive_size config world
              fuel url depth st 0 Hfuel Hbudget)
    as (st' & Hrun & _ & Hsize & Hsub).
  exists st'. split; [done |]. split; [| done].
  intros more.
  destruct (SequentialFacts.crawlRecursive_size config world
              fuel url depth st more Hfuel Hbudget)
    as (st'' & Hrun' & Hmore & _ & _).
  congruence.
Qed.

Lemma crawlRecursive_keeps_budget_witness :
  exists st' : Sequential.State,
    Sequential.crawlRecursive (parser := Url.parse_http) Walks.two_pages
      Walks.three_pages 5 Samples.site 0 Sequential.start = Some st' /\
    (forall more,
       Sequential.crawlRecursive (parser := Url.parse_http) Walks.two_pages
         Walks.three_pages (5 + more) Samples.site 0 Sequential.start
       = Some st') /\
    Sequential.visitedUrls Sequential.start ⊆ Sequential.visitedUrls st' /\
    size (Sequential.visitedUrls st') <= maxPages Walks.two_pages.
Proof.
  apply (crawlRecursive_keeps_budget (parser := Url.parse_http)
           Walks.two_pages Walks.three_pages 5 Samples.site 0
           Sequential.start).
  - cbn; lia.
  - vm_compute; lia.
Defined.

(** X15.  A sequential session fetches no URL twice: the URLs fetched are
    exactly the URLs visited, so no more than [maxPages] pages are
    fetched, and no progress update reports more pages than that. *)
Theorem crawlRecursive_fetches_once `{parser : Url.Parser}
  (config : ScannerConfig) (world : Sequential.World) (url : string) :
  exists st' : Sequential.State,
    Sequential.crawlRecursive config world (maxDepth config + 2) url 0
      Sequential.start = Some st' /\
    NoDup (Sequential.fetched st') /\
    (forall u, u ∈ Sequential.fetched st'
               <-> u ∈ Sequential.visitedUrls st') /\
    length (Sequential.fetched st') <= maxPages config /\
    Forall (fun pages => pages <= maxPages config)
      (Sequential.reported st').
Proof.
  destruct (SequentialFacts.crawlRecursive_preserves config world
              (Sequential.within_budget config)
              ltac:(by intros u msg s Hs)
              (SequentialFacts.within_budget_fetched config)
              ltac:(by intros u msg s Hs)
              (maxDepth config + 2) url 0 Sequential.start 0
              ltac:(lia)
              (SequentialFacts.within_budget_start config))
    as (st' & Hrun & _ & (Hsize & Hnodup & Hfetched & Hreported) & _).
  exists st'. repeat split; try done; try apply Hfetched.
  assert (length (Sequential.fetched st')
          = size (Sequential.visitedUrls st')) as ->; [| done].
  rewrite <- (size_list_to_set (C := gset string)) by done.
  f_equal. apply set_eq. intros u. by rewrite elem_of_list_to_set, Hfetched.
Qed.

(** ** [scanner-store.ts]: the history and the graph *)

(** X16.  The history never holds more than ten results, and after any
    sequence of scans it holds the ten most recent ones, newest first. *)
Theorem addToHistory_keeps_last_ten {A : Type} (rs : list A) :
  foldl (fun scanHistory result =>
           ScannerStore.addToHistory result scanHistory) [] rs
  = take 10 (reverse rs) /\
  forall (result : A) (scanHistory : list A),
    length (ScannerStore.addToHistory result scanHistory) <= 10.
Proof.
  split.
  - assert (forall h : list A,
              foldl (fun scanHistory result =>
                       ScannerStore.addToHistory result scanHistory)
                (take 10 h) rs
              = take 10 (reverse rs ++ h)) as Hgen.
    { induction rs as [|r rs IH]; intros h; [done |].
      cbn [foldl]. unfold ScannerStore.addToHistory at 2.
      rewrite take_take. change (r :: take (9 `min` 10) h)
        with (take 10 (r :: h)).
      rewrite IH, reverse_cons, <- app_assoc. done. }
    specialize (Hgen []). by rewrite app_nil_r in Hgen.
  - intros result scanHistory. unfold ScannerStore.addToHistory. cbn.
    rewrite length_take. lia.
Qed.

Module GraphFacts.
Import SpiderCrawler ScannerStore.

Section Graph.
Context `{parser : Url.Parser}.

Lemma foldl_step_None l : foldl pushEndpoint None l = None.
Proof. by induction l. Qed.

(** The fold throws exactly when some URL does not parse. *)
Lemma foldl_step_throws l g0 :
  foldl pushEndpoint (Some g0) l = None
  <-> Exists (fun e => Url.new_URL (url e) = None) l.
Proof.
  revert g0. induction l as [|e l IH]; intros g0; cbn.
  - split; [discriminate | intros H; inversion H].
  - unfold addEndpoint. destruct (Url.new_URL (url e)) as [u|] eqn:Hu.
    + rewrite IH, Exists_cons, Hu. split; [by right |].
      intros [? | ?]; [discriminate | done].
    + rewrite foldl_step_None, Exists_cons. split; [by left | done].
Qed.

(** The fold succeeds exactly when every URL parses. *)
Lemma foldl_step_is_Some l g0 :
  is_Some (foldl pushEndpoint (Some g0) l)
  <-> Forall (fun e => is_Some (Url.new_URL (url e))) l.
Proof.
  revert g0. induction l as [|e l IH]; intros g0; cbn.
  - split; [constructor | by eexists].
  - unfold addEndpoint. destruct (Url.new_URL (url e)) as [u|] eqn:Hu.
    + rewrite IH, Forall_cons, Hu. split; [| tauto].
      intros Hl. split; [by eexists | done].
    + rewrite foldl_step_None, Forall_cons, Hu.
      split; [intros [? ?]; discriminate | intros [[? ?] _]; discriminate].
Qed.


End Graph.

End GraphFacts.


Module RegistryFacts.
Import SpiderCrawler.

Section Parsed.
Context `{parser : Url.Parser}.

(** Only URLs that parse make it into the registry. *)
Lemma discovered_parses d e :
  discovered d = Some e -> is_Some (Url.new_URL (url e)).
Proof.
  unfold discovered, createEndpoint.
  destruct (Url.new_URL (d_url d)) as [u|] eqn:Hu; [| discriminate].
  intros [= <-]. cbn. rewrite Hu. by eexists.
Qed.

Lemma foldl_record_parses ds reg :
  map_Forall (fun _ e => is_Some (Url.new_URL (url e))) reg ->
  map_Forall (fun _ e => is_Some (Url.new_URL (url e))) (foldl record reg ds).
Proof.
  revert reg. induction ds as [|d ds IH]; intros reg Hreg; [done |].
  cbn. apply IH. unfold record.
  destruct (discovered d) as [e|] eqn:Hd; [| done].
  apply map_Forall_insert_2; [by eapply discovered_parses | done].
Qed.

Lemma registry_parses ds :
  Forall (fun e => is_Some (Url.new_URL (url e)))
    (endpoints (registry ds)).
Proof.
  apply Forall_forall. intros e He. unfold endpoints in He.
  apply list_elem_of_fmap in He as ([k e'] & -> & Hin).
  apply elem_of_map_to_list in Hin.
  apply (foldl_record_parses ds ∅) in Hin; [done |].
  apply map_Forall_empty.
Qed.

End Parsed.

End RegistryFacts.

(** X18.  [setResults] stores the results and ends the scan before it
    builds the graph.  If the URL of some endpoint cannot be parsed it then
    throws, and leaves the graph and the history as they were; otherwise it
    stores the new graph and puts the results at the head of the history.
    The endpoints of the crawler's registry always take the second path:
    every one of them has a URL that parses. *)
Theorem setResults_outcome `{parser : Url.Parser}
  (r : Session.CrawlResult) (store : ScannerStore.Store) :
  let '(outcome, store') := ScannerStore.setResults r store in
  ScannerStore.results store' = Some r /\
  ScannerStore.isScanning store' = false /\
  match outcome with
  | Session.Thrown _ =>
      Exists (fun e => Url.new_URL (url e) = None)
        (Session.result_endpoints r) /\
      ScannerStore.graphData store' = ScannerStore.graphData store /\
      ScannerStore.scanHistory store' = ScannerStore.scanHistory store
  | Session.Returned _ =>
      ScannerStore.updateGraphData r
      = Some (ScannerStore.graphData store') /\
      ScannerStore.scanHistory store'
      = r :: take 9 (ScannerStore.scanHistory store)
  end /\
  ((exists ds, Session.result_endpoints r
               = SpiderCrawler.endpoints (SpiderCrawler.registry ds)) ->
   outcome = Session.Returned tt).
Proof.
  unfold ScannerStore.setResults.
  destruct (ScannerStore.updateGraphData r) as [graph|] eqn:Hgraph; cbn.
  - repeat split; done.
  - apply GraphFacts.foldl_step_throws in Hgraph.
    repeat split; try done.
    intros [ds Hds]. rewrite Hds in Hgraph.
    apply Exists_exists in Hgraph as (e & He & Hnone).
    pose proof (RegistryFacts.registry_parses ds) as Hall.
    rewrite Forall_forall in Hall. destruct (Hall e He) as [u Hu].
    congruence.
Qed.

(** ** [ResultsDashboard.tsx]: counts and filters *)

Module DashboardFacts.
Import SpiderCrawler Dashboard.

Lemma sum_comm (z1 z2 y : nat) : z1 + (z2 + y) = z2 + (z1 + y).
Proof. lia. Qed.

(** Counting a key adds one to its count, leaves the other counts alone,
    and adds one to the sum of all counts. *)
Lemma count_lookup m key k :
  default 0 (count m key !! k)
  = default 0 (m !! k) + (if String.eqb key k then 1 else 0).
Proof.
  unfold count. destruct (String.eqb key k) eqn:Hk.
  - apply String.eqb_eq in Hk as ->. by rewrite lookup_insert_eq.
  - apply String.eqb_neq in Hk. rewrite lookup_insert_ne by done. lia.
Qed.

Lemma count_positive m key :
  map_Forall (fun _ n => 0 < n) m ->
  map_Forall (fun _ n => 0 < n) (count m key).
Proof. intros Hm. apply map_Forall_insert_2; [lia | done]. Qed.

Lemma count_total m key :
  map_fold (fun _ n acc => n + acc) 0 (count m key)
  = S (map_fold (fun _ n acc => n + acc) 0 m).
Proof.
  unfold count. destruct (m !! key) as [n|] eqn:Hkey; cbn.
  - rewrite <- insert_delete_eq.
    rewrite map_fold_insert_L;
      [| intros; apply sum_comm | apply lookup_delete_eq].
    rewrite (map_fold_delete_L _ _ key n m);
      [lia | intros; apply sum_comm | done].
  - rewrite map_fold_insert_L; [done | intros; apply sum_comm | done].
Qed.

(** The three maps after the endpoints [l] have been counted into [st]. *)
Lemma foldl_counts (l : list Endpoint) (st : Stats) :
  let st' :=
    foldl
      (fun st endpoint =>
         {| methods := count (methods st) (method endpoint);
            sources := count (sources st) (source_name (source endpoint));
            securities := count (securities st) (riskLevel_of endpoint) |})
      st l in
  (forall k, default 0 (methods st' !! k)
             = default 0 (methods st !! k) + tally method k l) /\
  (forall k, default 0 (sources st' !! k)
             = default 0 (sources st !! k)
               + tally (fun e => source_name (source e)) k l) /\
  (forall k, default 0 (securities st' !! k)
             = default 0 (securities st !! k) + tally riskLevel_of k l) /\
  map_fold (fun _ n acc => n + acc) 0 (methods st')
  = map_fold (fun _ n acc => n + acc) 0 (methods st) + length l /\
  map_fold (fun _ n acc => n + acc) 0 (sources st')
  = map_fold (fun _ n acc => n + acc) 0 (sources st) + length l /\
  map_fold (fun _ n acc => n + acc) 0 (securities st')
  = map_fold (fun _ n acc => n + acc) 0 (securities st) + length l /\
  (map_Forall (fun _ n => 0 < n) (methods st) ->
   map_Forall (fun _ n => 0 < n) (methods st')) /\
  (map_Forall (fun _ n => 0 < n) (sources st) ->
   map_Forall (fun _ n => 0 < n) (sources st')) /\
  (map_Forall (fun _ n => 0 < n) (securities st) ->
   map_Forall (fun _ n => 0 < n) (securities st')).
Proof.
  revert st. induction l as [|e l IH]; intros st; cbn [foldl].
  - unfold tally; cbn. repeat split; intros; try done; lia.
  - destruct (IH {| methods := count (methods st) (method e);
                    sources := count (sources st) (source_name (source e));
                    securities := count (securities st) (riskLevel_of e) |})
      as (Hm & Hs & Hr & Htm & Hts & Htr & Hpos & Hpos_s & Hpos_r).
    cbn [methods sources securities] in *.
    unfold tally in *. cbn [List.filter length].
    repeat split.
    + intros k. rewrite Hm, count_lookup.
      destruct (String.eqb (method e) k); cbn [length]; lia.
    + intros k. rewrite Hs, count_lookup.
      destruct (String.eqb (source_name (source e)) k); cbn [length]; lia.
    + intros k. rewrite Hr, count_lookup.
      destruct (String.eqb (riskLevel_of e) k); cbn [length]; lia.
    + rewrite Htm, count_total. lia.
    + rewrite Hts, count_total. lia.
    + rewrite Htr, count_total. lia.
    + intros Hst. by apply Hpos, count_positive.
    + intros Hst. by apply Hpos_s, count_positive.
    + intros Hst. by apply Hpos_r, count_positive.
Qed.

(** A map of positive counts, read with 0 for a missing key, determines
    its entries. *)
Lemma lookup_positive (m : gmap string nat) (k : string) (n : nat) :
  map_Forall (fun _ n => 0 < n) m ->
  default 0 (m !! k) = n ->
  m !! k = match n with 0 => None | S _ => Some n end.
Proof.
  intros Hpos Hn. destruct (m !! k) as [x|] eqn:Hk; cbn in Hn; subst.
  - apply Hpos in Hk. by destruct n; [lia |].
  - done.
Qed.

Lemma filter_sublist {A} (f : A -> bool) (l : list A) :
  List.filter f l `sublist_of` l.
Proof.
  induction l as [|x l IH]; cbn; [done |].
  destruct (f x); by constructor.
Qed.

Lemma elem_of_filter {A} (f : A -> bool) (l : list A) (x : A) :
  x ∈ List.filter f l <-> x ∈ l /\ f x = true.
Proof. rewrite !list_elem_of_In. apply List.filter_In. Qed.

End DashboardFacts.

(** X19.  The counts of the dashboard are exact.  Each of the three maps
    (methods, sources, risk levels) holds, for every key, the number of
    endpoints that have it, and no entry at all (never a zero) for a key
    no endpoint has; the counts of each map add up to the number of
    endpoints. *)
Theorem stats_counts (results : Session.CrawlResult) :
  exists st : Dashboard.Stats,
    Dashboard.stats (Some results) = Some st /\
    (forall k,
       Dashboard.methods st !! k
       = match Dashboard.tally method k (Session.result_endpoints results)
         with
         | 0 => None
         | S n => Some (S n)
         end) /\
    (forall k,
       Dashboard.sources st !! k
       = match Dashboard.tally
                 (fun e => Dashboard.source_name (source e)) k
                 (Session.result_endpoints results)
         with
         | 0 => None
         | S n => Some (S n)
         end) /\
    (forall k,
       Dashboard.securities st !! k
       = match Dashboard.tally Dashboard.riskLevel_of k
                 (Session.result_endpoints results)
         with
         | 0 => None
         | S n => Some (S n)
         end) /\
    map_fold (fun _ n acc => n + acc) 0 (Dashboard.methods st)
    = length (Session.result_endpoints results) /\
    map_fold (fun _ n acc => n + acc) 0 (Dashboard.sources st)
    = length (Session.result_endpoints results) /\
    map_fold (fun _ n acc => n + acc) 0 (Dashboard.securities st)
    = length (Session.result_endpoints results).
Proof.
  unfold Dashboard.stats. eexists. split; [reflexivity |].
  destruct (DashboardFacts.foldl_counts (Session.result_endpoints results)
              {| Dashboard.methods := ∅; Dashboard.sources := ∅;
                 Dashboard.securities := ∅ |})
    as (Hm & Hs & Hr & Htm & Hts & Htr & Hpos & Hpos_s & Hpos_r).
  cbn [Dashboard.methods Dashboard.sources Dashboard.securities] in *.
  rewrite map_fold_empty in Htm, Hts, Htr.
  split; [| split; [| split; [| done]]]; intros k.
  - rewrite (DashboardFacts.lookup_positive _ k _
               (Hpos (map_Forall_empty _)) (Hm k)).
    rewrite lookup_empty. cbn. by destruct (Dashboard.tally _ _ _).
  - rewrite (DashboardFacts.lookup_positive _ k _
               (Hpos_s (map_Forall_empty _)) (Hs k)).
    rewrite lookup_empty. cbn. by destruct (Dashboard.tally _ _ _).
  - rewrite (DashboardFacts.lookup_positive _ k _
               (Hpos_r (map_Forall_empty _)) (Hr k)).
    rewrite lookup_empty. cbn. by destruct (Dashboard.tally _ _ _).
Qed.

(** X20.  Clicking a filter value toggles it: the value is selected
    afterwards exactly if it was not before, no other value changes, no
    value is ever listed twice, and a second click on a value that was not
    selected restores the list. *)
Theorem toggle_flips (current : list string) (value : string) :
  (value ∈ Dashboard.toggle current value <-> value ∉ current) /\
  (forall other, other <> value ->
     (other ∈ Dashboard.toggle current value <-> other ∈ current)) /\
  (NoDup current -> NoDup (Dashboard.toggle current value)) /\
  (value ∉ current ->
   Dashboard.toggle (Dashboard.toggle current value) value = current).
Proof.
  unfold Dashboard.toggle, Arr.includes.
  assert (forall l : list string,
            value ∉ l ->
            List.filter (fun m => negb (String.eqb m value)) l = l) as Hkeep.
  { induction l as [|x l IH]; intros Hl; [done |]. cbn.
    apply not_elem_of_cons in Hl as [Hx Hl].
    apply not_eq_sym, String.eqb_neq in Hx. rewrite Hx. cbn.
    by rewrite IH. }
  case_bool_decide as Hin.
  - split; [| split; [| split]].
    + split; [| done]. intros Hv.
      apply DashboardFacts.elem_of_filter in Hv as [_ Hv].
      by rewrite String.eqb_refl in Hv.
    + intros other Hne. rewrite DashboardFacts.elem_of_filter.
      apply String.eqb_neq in Hne. rewrite Hne. cbn. tauto.
    + intros Hnd.
      apply (sublist_NoDup _ current Hnd), DashboardFacts.filter_sublist.
    + done.
  - split; [| split; [| split]].
    + split; [done |]. intros _. apply elem_of_app. right. left.
    + intros other Hne. rewrite elem_of_app, list_elem_of_singleton. tauto.
    + intros Hnd. apply NoDup_app. split; [done |].
      split; [| apply NoDup_singleton].
      intros x Hx Hx'. by apply list_elem_of_singleton in Hx' as ->.
    + intros _. rewrite bool_decide_eq_true_2
        by (apply elem_of_app; right; left).
      rewrite List.filter_app, Hkeep by done. cbn.
      rewrite String.eqb_refl. cbn. apply app_nil_r.
Qed.

(** X21.  The list the dashboard shows is a sub-list of the endpoints, in
    their order; every endpoint shown passes each filter that has a
    selected value; with the filters cleared every endpoint is shown; and
    after a click on one method, from cleared filters, exactly the
    endpoints with that method are shown. *)
Theorem filteredEndpoints_sound (results : Session.CrawlResult)
  (searchQuery : string) (filterBy : Dashboard.Filter) (m : string) :
  Dashboard.filteredEndpoints (Some results) searchQuery filterBy
    `sublist_of` Session.result_endpoints results /\
  Forall
    (fun e =>
       (Dashboard.filter_method filterBy <> [] ->
        method e ∈ Dashboard.filter_method filterBy) /\
       (Dashboard.filter_source filterBy <> [] ->
        Dashboard.source_name (source e)
        ∈ Dashboard.filter_source filterBy) /\
       (Dashboard.filter_security filterBy <> [] ->
        Dashboard.riskLevel_of e ∈ Dashboard.filter_security filterBy))
    (Dashboard.filteredEndpoints (Some results) searchQuery filterBy) /\
  Dashboard.filteredEndpoints (Some results)
    Dashboard.clearFilters.1 Dashboard.clearFilters.2
  = Session.result_endpoints results /\
  Dashboard.filteredEndpoints (Some results) Dashboard.clearFilters.1
    (Dashboard.handleMethodFilter m Dashboard.clearFilters.2)
  = List.filter (fun e => String.eqb (method e) m)
      (Session.result_endpoints results).
Proof.
  split; [| split; [| split]].
  - unfold Dashboard.filteredEndpoints.
    destruct (negb (String.eqb searchQuery "")); repeat case_bool_decide;
      repeat (etrans; [apply DashboardFacts.filter_sublist |]); done.
  - apply Forall_forall. intros e He.
    unfold Dashboard.filteredEndpoints, Arr.includes in He.
    assert (forall l : list string, l <> [] -> 0 < length l) as Hlen
      by (intros [|? ?] ?; [done | cbn; lia]).
    repeat split; intros Hsel; apply Hlen in Hsel;
      repeat case_bool_decide; try lia;
      repeat match goal with
        | H : _ ∈ List.filter _ _ |- _ =>
            apply DashboardFacts.elem_of_filter in H as [H ?]
        | H : _ ∈ (if ?b then _ else _) |- _ => destruct b
        | H : bool_decide _ = true |- _ => apply bool_decide_eq_true in H
        end; done.
  - reflexivity.
  - cbn. apply List.filter_ext. intros e.
    unfold Arr.includes. destruct (String.eqb (method e) m) eqn:Hm.
    + apply String.eqb_eq in Hm as ->. apply bool_decide_eq_true. left.
    + apply bool_decide_eq_false. intros Hin.
      apply list_elem_of_singleton in Hin. apply String.eqb_neq in Hm. done.
Qed.

(** ** [utils.ts]: what [isValidDomain] strips *)

Module CleaningFacts.
Import Regex Utils.

(** No match anywhere, when no match can start at any suffix. *)
Lemma find_None r prev s :
  (forall prev' u v, s = u +:+ v -> run r (prev', v) = []) ->
  find r prev s = None.
Proof.
  revert prev. induction s as [|a s IH]; intros prev Hnone; cbn.
  - by rewrite (Hnone prev "" "").
  - rewrite (Hnone prev "" (String a s)) by done.
    apply IH. intros prev' u v ->. by apply (Hnone prev' (String a u) v).
Qed.

(** A text without a slash has no protocol and no path to strip. *)
Lemma run_protocolRegex_slash c c' :
  c' ∈ run protocolRegex c -> Str.includes c.2 "/" = true.
Proof.
  unfold protocolRegex, cats, opt. intros Hin.
  apply list_elem_of_bind in Hin as (c1 & Hin & H1).
  apply list_elem_of_bind in Hin as (c2 & Hin & H2).
  apply list_elem_of_bind in Hin as (c3 & Hin & H3).
  apply list_elem_of_bind in Hin as (c4 & Hin & H4).
  apply (RegexFacts.run_consumes Bol) in H1 as [w1 Hw1].
  apply (RegexFacts.run_consumes (str "http")) in H2 as [w2 Hw2].
  apply (RegexFacts.run_consumes (Alt (lit "s") Eps)) in H3 as [w3 Hw3].
  apply (RegexFacts.run_str "://") in H4.
  apply includes_spec. exists (w1 +:+ w2 +:+ w3 +:+ ":"), ("/" +:+ c4.2).
  rewrite Hw1, Hw2, Hw3, H4, !StrFacts.append_assoc. done.
Qed.

Lemma run_pathRegex_slash c c' :
  c' ∈ run pathRegex c -> Str.startsWith c.2 "/" = true.
Proof.
  unfold pathRegex, cats. intros Hin.
  apply list_elem_of_bind in Hin as (c1 & _ & H1).
  apply (UrlRegexFacts.run_chr (Ascii.eqb "/")) in H1 as (a & -> & Ha).
  cbn [Str.startsWith]. by rewrite Ha.
Qed.

Lemma includes_suffix (u v p : string) :
  Str.includes v p = true -> Str.includes (u +:+ v) p = true.
Proof.
  intros Hv. apply includes_spec in Hv as (a & b & ->).
  apply includes_spec. exists (u +:+ a), b.
  by rewrite StrFacts.append_assoc.
Qed.

Lemma replace_protocol_none (host : string) :
  Str.includes host "/" = false -> replace protocolRegex "" host = host.
Proof.
  intros Hhost. unfold replace. rewrite find_None; [done |].
  intros prev' u v ->.
  destruct (run protocolRegex (prev', v)) as [|c l] eqn:Hrun; [done |].
  assert (c ∈ run protocolRegex (prev', v)) as Hc by (rewrite Hrun; left).
  apply run_protocolRegex_slash in Hc. cbn in Hc.
  apply (includes_suffix u) in Hc. congruence.
Qed.

Lemma replace_path_none (host : string) :
  Str.includes host "/" = false -> replace pathRegex "" host = host.
Proof.
  intros Hhost. unfold replace. rewrite find_None; [done |].
  intros prev' u v ->.
  destruct (run pathRegex (prev', v)) as [|c l] eqn:Hrun; [done |].
  assert (c ∈ run pathRegex (prev', v)) as Hc by (rewrite Hrun; left).
  apply run_pathRegex_slash in Hc. cbn in Hc.
  apply (StrFacts.includes_drop v "/" 0), (includes_suffix u) in Hc.
  congruence.
Qed.

(** A match at the very start of the text is the one found. *)
Lemma find_head r prev s c l :
  run r (prev, s) = c :: l -> find r prev s = Some (s, c).
Proof. intros Hrun. destruct s; cbn; by rewrite Hrun. Qed.

Lemma replace_head r s c l :
  run r (None, s) = c :: l -> replace r "" s = c.2.
Proof.
  intros Hrun. unfold replace. rewrite (find_head _ _ _ _ _ Hrun).
  by rewrite Nat.sub_diag.
Qed.

(** The protocol at the head of a text is stripped. *)
Lemma replace_protocol_http (rest : string) :
  replace protocolRegex "" ("http://" +:+ rest) = rest.
Proof. by apply (replace_head _ _ (Some "/"%char, rest) []). Qed.

Lemma replace_protocol_https (rest : string) :
  replace protocolRegex "" ("https://" +:+ rest) = rest.
Proof. by apply (replace_head _ _ (Some "/"%char, rest) []). Qed.

(** A greedy repetition of a character class first runs over every
    leading character of the class. *)
Lemma run_star_chr_cons p prev a s :
  p a = true ->
  run (Star (Chr p)) (prev, String a s)
  = run (Star (Chr p)) (Some a, s) ++ [(prev, String a s)].
Proof.
  intros Hp. cbn. rewrite Hp. cbn.
  rewrite bool_decide_eq_true_2 by lia. by rewrite app_nil_r.
Qed.

Lemma run_star_chr_all p prev s :
  Forall (fun a => p a = true) (String.list_ascii_of_string s) ->
  exists c l, run (Star (Chr p)) (prev, s) = c :: l /\ c.2 = "".
Proof.
  revert prev. induction s as [|a s IH]; intros prev Hall.
  - by exists (prev, ""), [].
  - cbn in Hall. apply Forall_cons in Hall as [Ha Hall].
    destruct (IH (Some a) Hall) as (c & l & Hrun & Hc).
    exists c, (l ++ [(prev, String a s)]).
    by rewrite run_star_chr_cons, Hrun.
Qed.

(** The leftmost match of [pathRegex] starts at the first slash and runs
    to the end of the text, when no line terminator follows the slash. *)
Lemma run_pathRegex_all prev path :
  Forall (fun a => Str.is_newline a = false)
    (String.list_ascii_of_string path) ->
  exists c l, run pathRegex (prev, "/" +:+ path) = c :: l /\ c.2 = "".
Proof.
  intros Hpath.
  destruct (run_star_chr_all (fun a => negb (Str.is_newline a))
              (Some "/"%char) path) as (c & l & Hrun & Hc).
  { eapply Forall_impl; [exact Hpath |]. intros a Ha. by rewrite Ha. }
  change (run pathRegex (prev, "/" +:+ path))
    with ((c2 ← run (Star dot) (Some "/"%char, path);
           c3 ← run Eol c2; run Eps c3) ++ []).
  unfold dot. rewrite Hrun. destruct c as [last rest]. cbn in Hc. subst rest.
  eexists. eexists. split; [reflexivity | done].
Qed.

Lemma find_pathRegex host path prev :
  Str.includes host "/" = false ->
  Forall (fun a => Str.is_newline a = false)
    (String.list_ascii_of_string path) ->
  exists c, find pathRegex prev (host +:+ "/" +:+ path)
            = Some ("/" +:+ path, c) /\ c.2 = "".
Proof.
  intros Hhost Hpath. revert prev.
  induction host as [|a host IH]; intros prev.
  - destruct (run_pathRegex_all prev path Hpath) as (c & l & Hrun & Hc).
    exists c. split; [| done]. by apply (find_head _ _ _ _ l).
  - cbn [Str.includes Str.startsWith] in Hhost.
    apply orb_false_iff in Hhost as [Ha Hhost].
    rewrite andb_true_r in Ha.
    destruct (IH Hhost (Some a)) as (c & Hfind & Hc).
    exists c. split; [| done].
    rewrite StrFacts.append_cons. cbn [find].
    replace (run pathRegex (prev, String a (host +:+ "/" +:+ path)))
      with (@nil cursor); [done |].
    unfold pathRegex, cats, lit. cbn [run snd]. by rewrite Ha.
Qed.

(** Everything from the first slash on is stripped, when no line
    terminator follows it. *)
Lemma replace_path (host path : string) :
  Str.includes host "/" = false ->
  Forall (fun a => Str.is_newline a = false)
    (String.list_ascii_of_string path) ->
  replace pathRegex "" (host +:+ "/" +:+ path) = host.
Proof.
  intros Hhost Hpath.
  destruct (find_pathRegex host path None Hhost Hpath) as (c & Hfind & Hc).
  unfold replace. rewrite Hfind, Hc, StrFacts.length_append.
  replace (String.length host + String.length ("/" +:+ path)
           - String.length ("/" +:+ path)) with (String.length host) by lia.
  by rewrite StrFacts.take_append, !StrFacts.append_nil_r.
Qed.

End CleaningFacts.

(** X22.  [isValidDomain] judges the host only: a leading [http://] or
    [https://] and everything from the first slash on are stripped before
    the tests, so a URL is valid exactly if its host (with its port, if
    any) is. *)
Theorem isValidDomain_ignores_scheme_and_path (scheme host path : string)
  (Hscheme : scheme = "http://" \/ scheme = "https://")
  (Hhost : Str.includes host "/" = false)
  (Hpath : Forall (fun a => Str.is_newline a = false)
             (String.list_ascii_of_string path)) :
  Utils.isValidDomain (scheme +:+ host +:+ "/" +:+ path)
  = Utils.isValidDomain host /\
  Utils.isValidDomain (scheme +:+ host) = Utils.isValidDomain host.
Proof.
  assert (Regex.replace Utils.pathRegex ""
            (Regex.replace Utils.protocolRegex ""
               (scheme +:+ host +:+ "/" +:+ path))
          = Regex.replace Utils.pathRegex ""
              (Regex.replace Utils.protocolRegex "" host)) as Hfull.
  { destruct Hscheme as [-> | ->];
      rewrite ?CleaningFacts.replace_protocol_http,
        ?CleaningFacts.replace_protocol_https,
        CleaningFacts.replace_path, CleaningFacts.replace_protocol_none,
        CleaningFacts.replace_path_none; done. }
  assert (Regex.replace Utils.pathRegex ""
            (Regex.replace Utils.protocolRegex "" (scheme +:+ host))
          = Regex.replace Utils.pathRegex ""
              (Regex.replace Utils.protocolRegex "" host)) as Hscheme_only.
  { destruct Hscheme as [-> | ->];
      rewrite ?CleaningFacts.replace_protocol_http,
        ?CleaningFacts.replace_protocol_https,
        CleaningFacts.replace_protocol_none; done. }
  unfold Utils.isValidDomain. by rewrite Hfull, Hscheme_only.
Qed.

Lemma isValidDomain_ignores_scheme_and_path_witness :
  Utils.isValidDomain
    ("https://" +:+ "api.example.com:8443" +:+ "/" +:+ "v1/users?id=1")
  = Utils.isValidDomain "api.example.com:8443" /\
  Utils.isValidDomain ("https://" +:+ "api.example.com:8443")
  = Utils.isValidDomain "api.example.com:8443".
Proof.
  apply (isValidDomain_ignores_scheme_and_path
           "https://" "api.example.com:8443" "v1/users?id=1").
  - by right.
  - reflexivity.
  - vm_compute. repeat constructor.
Defined.

(** ** Sessions: what [crawl] does with the outcome of its stages *)



(** ** The endpoint registry: what it holds *)

Module RegistryContents.
Import SpiderCrawler.

Section Contents.
Context `{parser : Url.Parser}.

Lemma discovered_is_Some d :
  is_Some (discovered d) <-> is_Some (Url.new_URL (d_url d)).
Proof.
  unfold discovered, createEndpoint.
  destruct (Url.new_URL (d_url d)); cbn; split; intros [? ?];
    by eauto.
Qed.

Lemma discovered_id d e : discovered d = Some e -> id e = discovery_key d.
Proof.
  unfold discovered, createEndpoint.
  destruct (Url.new_URL (d_url d)); [| discriminate]. by intros [= <-].
Qed.

(** The entry under a key is the last discovery made under that key whose
    URL parses. *)
Lemma foldl_record_lookup ds reg k :
  foldl record reg ds !! k
  = match last (omap (fun d => if bool_decide (discovery_key d = k)
                               then discovered d else None) ds) with
    | Some e => Some e
    | None => reg !! k
    end.
Proof.
  revert reg. induction ds as [|d ds IH]; intros reg; [done |].
  cbn [foldl]. rewrite IH. csimpl. unfold record at 1.
  destruct (decide (discovery_key d = k)) as [Hk | Hk].
  - rewrite (bool_decide_eq_true_2 _ Hk).
    destruct (discovered d) as [e|] eqn:Hd; [| done].
    rewrite last_cons. destruct (last _); [done |].
    apply discovered_id in Hd. rewrite Hd, Hk. apply lookup_insert_eq.
  - rewrite (bool_decide_eq_false_2 _ Hk).
    destruct (last _); [done |].
    destruct (discovered d) as [e|] eqn:Hd; [| done].
    apply discovered_id in Hd. rewrite lookup_insert_ne; [done |].
    by rewrite Hd.
Qed.

Lemma foldl_record_size ds reg :
  size (foldl record reg ds) <= size reg + length ds.
Proof.
  revert reg. induction ds as [|d ds IH]; intros reg; cbn; [lia |].
  etrans; [apply IH |]. unfold record.
  destruct (discovered d) as [e|]; [| lia].
  rewrite map_size_insert. destruct (reg !! id e); cbn; lia.
Qed.

End Contents.

End RegistryContents.

(** X24.  The registry holds an entry under a key exactly if some
    discovery with that method and URL had a URL that parses: nothing is
    invented and nothing that parses is lost.  It never holds more entries
    than discoveries were made, and making the same discoveries a second
    time changes nothing. *)
Theorem registry_contents `{parser : Url.Parser}
  (ds : list SpiderCrawler.Discovery) :
  (forall k,
     is_Some (SpiderCrawler.registry ds !! k) <->
     exists d, d ∈ ds /\ SpiderCrawler.discovery_key d = k /\
               is_Some (Url.new_URL (SpiderCrawler.d_url d))) /\
  size (SpiderCrawler.registry ds) <= length ds /\
  SpiderCrawler.registry (ds ++ ds) = SpiderCrawler.registry ds.
Proof.
  unfold SpiderCrawler.registry. split; [| split].
  - intros k. rewrite RegistryContents.foldl_record_lookup, lookup_empty.
    split.
    + intros Hsome.
      destruct (last _) as [e|] eqn:Hlast; [| by destruct Hsome].
      apply last_Some_elem_of, list_elem_of_omap in Hlast
        as (d & Hd & Hsel).
      case_bool_decide as Hk; [| discriminate].
      exists d. split; [done |]. split; [done |].
      apply RegistryContents.discovered_is_Some. by eexists.
    + intros (d & Hd & Hk & Hparse).
      apply RegistryContents.discovered_is_Some in Hparse as [e He].
      destruct (last _) as [e'|] eqn:Hlast; [by eexists |].
      apply last_None in Hlast.
      assert (e ∈ omap (fun d => if bool_decide
                                      (SpiderCrawler.discovery_key d = k)
                                 then SpiderCrawler.discovered d else None)
                    ds) as Hin.
      { apply list_elem_of_omap. exists d. split; [done |].
        by rewrite bool_decide_eq_true_2. }
      rewrite Hlast in Hin. by apply elem_of_nil in Hin.
  - pose proof (RegistryContents.foldl_record_size ds ∅) as Hsize.
    by rewrite map_size_empty in Hsize.
  - apply map_eq. intros k.
    rewrite !RegistryContents.foldl_record_lookup, omap_app, last_app.
    by destruct (last _).
Qed.

(** ** [wasm/assembly/index.ts]: the URL scanner *)

Module AssemblyUrlsFacts.
Import AssemblyUrls.

(** Where the inner loop stops: it has run over characters of a URL only,
    and it stands at the end of the text or at a delimiter. *)
Lemma url_end_spec rest n :
  exists k,
    url_end rest n = n + k /\ k <= String.length rest /\
    Forall (fun a => url_char a = true)
      (String.list_ascii_of_string (Str.take k rest)) /\
    (forall a r, Str.drop k rest = String a r -> url_char a = false).
Proof.
  revert n. induction rest as [|a rest IH]; intros n; cbn [url_end].
  - exists 0. split; [lia |]. split; [done |]. split; [constructor |].
    intros a r. discriminate.
  - destruct (url_char a) eqn:Ha.
    + destruct (IH (S n)) as (k & Hk & Hlen & Hall & Hstop).
      exists (S k). split; [lia |]. split; [cbn; lia |].
      split; [cbn; by constructor | done].
    + exists 0. split; [lia |]. split; [cbn; lia |].
      split; [constructor |]. intros a' r [= <- <-]. done.
Qed.

(** The inner loop runs over a prefix made of URL characters. *)
Lemma url_end_prefix p rest n :
  Forall (fun a => url_char a = true) (String.list_ascii_of_string p) ->
  n + String.length p <= url_end (p +:+ rest) n.
Proof.
  revert n. induction p as [|a p IH]; intros n Hall.
  - rewrite StrFacts.append_nil_l.
    destruct (url_end_spec rest n) as (k & -> & _). cbn. lia.
  - cbn in Hall. apply Forall_cons in Hall as [Ha Hall].
    rewrite StrFacts.append_cons. cbn [url_end String.length].
    rewrite Ha. specialize (IH (S n) Hall). lia.
Qed.

(** A text whose first characters are those of [p] starts with [p]. *)
Lemma take_eqb (p s : string) :
  String.eqb (Str.take (String.length p) s) p = true ->
  s = p +:+ Str.drop (String.length p) s.
Proof.
  intros Heq. apply String.eqb_eq in Heq.
  by rewrite <- Heq at 1; rewrite StrFacts.take_drop.
Qed.

Lemma take_take_le (n m : nat) (s : string) :
  n <= m -> Str.take n (Str.take m s) = Str.take n s.
Proof.
  revert m s. induction n as [|n IH]; intros [|m] [|a s] Hle; cbn;
    try done; try lia.
  rewrite IH; [done | lia].
Qed.

(** What one turn of the outer loop finds at a place where a scheme
    starts. *)
Lemma url_at content i scheme :
  Forall (fun a => url_char a = true) (String.list_ascii_of_string scheme) ->
  String.eqb (substr content i (String.length scheme)) scheme = true ->
  let urlEnd := url_end (Str.drop i content) i in
  i + String.length scheme <= urlEnd /\
  Str.startsWith (substring content i urlEnd) scheme = true /\
  Str.includes content (substring content i urlEnd) = true /\
  Forall (fun a => url_char a = true)
    (String.list_ascii_of_string (substring content i urlEnd)).
Proof.
  intros Hscheme Heq. cbv zeta. unfold substr, substring in *.
  apply take_eqb in Heq.
  pose proof (url_end_prefix scheme
                (Str.drop (String.length scheme) (Str.drop i content)) i
                Hscheme) as Hlong.
  rewrite <- Heq in Hlong.
  destruct (url_end_spec (Str.drop i content) i)
    as (k & Hk & Hlen & Hall & _).
  rewrite Hk in *.
  replace (i + k - i) with k by lia.
  split; [done |]. split; [| split; [| done]].
  - apply startsWith_spec.
    exists (Str.drop (String.length scheme) (Str.take k (Str.drop i content))).
    rewrite <- (StrFacts.take_drop (String.length scheme)
                  (Str.take k (Str.drop i content))) at 1.
    f_equal. rewrite take_take_le by lia.
    apply String.eqb_eq. rewrite Heq at 1.
    rewrite StrFacts.take_append. apply String.eqb_refl.
  - apply includes_spec.
    exists (Str.take i content), (Str.drop k (Str.drop i content)).
    by rewrite StrFacts.take_drop, StrFacts.take_drop.
Qed.

Lemma url_scan_sound fuel content i :
  Forall
    (fun url =>
       (Str.startsWith url "http://" = true
        \/ Str.startsWith url "https://" = true) /\
       Str.includes content url = true /\
       Forall (fun a => url_char a = true)
         (String.list_ascii_of_string url))
    (scan fuel content i).
Proof.
  revert i. induction fuel as [|fuel IH]; intros i; cbn [scan];
    [constructor |].
  case_bool_decide as Hi; [| constructor].
  destruct (String.eqb (substr content i 7) "http://") eqn:Hhttp;
    cbn [orb].
  - apply Forall_app. split; [| apply IH].
    case_bool_decide; [| constructor].
    destruct (url_at content i "http://") as (_ & Hs & Hin & Hall);
      [by repeat constructor | done |].
    constructor; [| constructor]. split; [by left | done].
  - destruct (String.eqb (substr content i 8) "https://") eqn:Hhttps;
      [| apply IH].
    apply Forall_app. split; [| apply IH].
    case_bool_decide; [| constructor].
    destruct (url_at content i "https://") as (_ & Hs & Hin & Hall);
      [by repeat constructor | done |].
    constructor; [| constructor]. split; [by right | done].
Qed.

Lemma scan_S fuel content i :
  scan (S fuel) content i
  = if bool_decide (i + 7 < String.length content) then
      if String.eqb (substr content i 7) "http://"
         || String.eqb (substr content i 8) "https://"
      then
        (if bool_decide (i < url_end (Str.drop i content) i)
         then [substring content i (url_end (Str.drop i content) i)]
         else [])
        ++ scan fuel content (url_end (Str.drop i content) i)
      else scan fuel content (S i)
    else [].
Proof. reflexivity. Qed.

(** The length of what is left to scan is fuel enough. *)
Lemma url_scan_fuel fuel content i :
  String.length content <= i + fuel ->
  scan (S fuel) content i = scan fuel content i.
Proof.
  revert i. induction fuel as [|fuel IH]; intros i Hfuel.
  - cbn [scan]. rewrite bool_decide_eq_false_2; [done | lia].
  - rewrite (scan_S (S fuel) content i), (scan_S fuel content i).
    destruct (bool_decide (i + 7 < String.length content)) eqn:Hi;
      [| done].
    apply bool_decide_eq_true in Hi.
    destruct (String.eqb (substr content i 7) "http://") eqn:Hhttp;
      cbn [orb].
    + f_equal. apply IH.
      destruct (url_at content i "http://") as (Hlong & _);
        [by repeat constructor | done |]. cbn in Hlong. lia.
    + destruct (String.eqb (substr content i 8) "https://") eqn:Hhttps.
      * f_equal. apply IH.
        destruct (url_at content i "https://") as (Hlong & _);
          [by repeat constructor | done |]. cbn in Hlong. lia.
      * apply IH. lia.
Qed.

End AssemblyUrlsFacts.

(** X25.  Every URL the scanner of the WebAssembly module returns occurs
    in the content, starts with [http://] or [https://], and contains no
    white space, quote, closing parenthesis or closing brace.  The scan
    ends: more turns than the content has characters change nothing. *)
Theorem assembly_extractURLs_sound (content : string) :
  Forall
    (fun url =>
       (Str.startsWith url "http://" = true
        \/ Str.startsWith url "https://" = true) /\
       Str.includes content url = true /\
       Forall (fun a => AssemblyUrls.url_char a = true)
         (String.list_ascii_of_string url))
    (AssemblyUrls.extractURLs content) /\
  forall extra,
    AssemblyUrls.scan (String.length content + extra) content 0
    = AssemblyUrls.extractURLs content.
Proof.
  split; [apply AssemblyUrlsFacts.url_scan_sound |].
  unfold AssemblyUrls.extractURLs.
  intros extra. induction extra as [|extra IH].
  - by rewrite Nat.add_0_r.
  - rewrite Nat.add_succ_r, AssemblyUrlsFacts.url_scan_fuel; [done | lia].
Qed.

(** ** [shouldCrawlUrl]: what a followed link satisfies *)

(** X26.  A link is followed only if it and the page it was found on
    both parse, its path does not end in a skipped extension, and it
    stays on the host of the page unless external links are enabled or it
    is an external API.  A link that does not look like an API is followed
    only if it starts with none of [mailto:], [tel:], [javascript:] and
    [ftp:], and is not a bare fragment. *)
Theorem shouldCrawlUrl_only_if `{parser : Url.Parser}
  (config : ScannerConfig) (url baseUrl : string)
  (Hfollowed : SpiderCrawler.shouldCrawlUrl config url baseUrl = true) :
  exists urlObj baseObj : Url.URL,
    Url.new_URL url = Some urlObj /\
    Url.new_URL baseUrl = Some baseObj /\
    SpiderCrawler.hasSkipExtension urlObj = false /\
    (includeExternalLinks config = true
     \/ Url.hostname urlObj = Url.hostname baseObj
     \/ SpiderCrawler.isExternalAPI url urlObj = true) /\
    (SpiderCrawler.looksLikeAPI url = true
     \/ (Forall (fun proto => Str.startsWith url proto = false)
           SpiderCrawler.skippedProtocols /\
         (Url.hash urlObj = "" \/ Url.search urlObj <> ""))).
Proof.
  unfold SpiderCrawler.shouldCrawlUrl in Hfollowed.
  destruct (Url.new_URL url) as [urlObj|]; [| discriminate].
  destruct (Url.new_URL baseUrl) as [baseObj|]; [| discriminate].
  exists urlObj, baseObj. split; [done |]. split; [done |].
  destruct (negb (includeExternalLinks config)
            && negb (String.eqb (Url.hostname urlObj) (Url.hostname baseObj))
            && negb (SpiderCrawler.isExternalAPI url urlObj)) eqn:Hgate;
    [discriminate |].
  destruct (SpiderCrawler.hasSkipExtension urlObj) eqn:Hskip;
    [discriminate |].
  split; [done |]. split.
  { apply andb_false_iff in Hgate as [Hgate | Hgate];
      [apply andb_false_iff in Hgate as [Hgate | Hgate] |];
      apply negb_false_iff in Hgate.
    - by left.
    - right. left. by apply String.eqb_eq.
    - right. by right. }
  destruct (SpiderCrawler.looksLikeAPI url) eqn:Hlooks; [by left |].
  right.
  destruct (existsb _ SpiderCrawler.skippedProtocols) eqn:Hproto;
    [discriminate |].
  split.
  - apply Forall_forall. intros proto Hin.
    destruct (Str.startsWith url proto) eqn:Hstarts; [| done].
    assert (existsb (fun proto => Str.startsWith url proto)
              SpiderCrawler.skippedProtocols = true) as Hex.
    { apply existsb_exists. exists proto. by rewrite <- list_elem_of_In. }
    congruence.
  - destruct (String.eqb (Url.hash urlObj) "") eqn:Hhash;
      [left; by apply String.eqb_eq |].
    destruct (String.eqb (Url.search urlObj) "") eqn:Hsearch;
      [discriminate |].
    right. by apply String.eqb_neq.
Qed.

Lemma shouldCrawlUrl_only_if_witness :
  exists urlObj baseObj : Url.URL,
    Url.parse_http "https://example.com/docs/intro" = Some urlObj /\
    Url.parse_http Samples.site = Some baseObj /\
    SpiderCrawler.hasSkipExtension urlObj = false /\
    (includeExternalLinks SpiderCrawler.defaultConfig = true
     \/ Url.hostname urlObj = Url.hostname baseObj
     \/ SpiderCrawler.isExternalAPI "https://example.com/docs/intro" urlObj
        = true) /\
    (SpiderCrawler.looksLikeAPI "https://example.com/docs/intro" = true
     \/ (Forall
           (fun proto =>
              Str.startsWith "https://example.com/docs/intro" proto = false)
           SpiderCrawler.skippedProtocols /\
         (Url.hash urlObj = "" \/ Url.search urlObj <> ""))).
Proof.
  apply (shouldCrawlUrl_only_if (parser := Url.parse_http)
           SpiderCrawler.defaultConfig "https://example.com/docs/intro"
           Samples.site).
  vm_compute; reflexivity.
Defined.

(** ** The parallel crawl loop never waits in vain *)

Module ParallelLive.
Import SpiderCrawler Parallel.

Section Live.
Context `{parser : Url.Parser}.
Variable config : ScannerConfig.

Lemma fill_raced fuel st : raced (fill config fuel st) = raced st.
Proof.
  revert st. induction fuel as [|fuel IH]; intros st; cbn; [done|].
  case_bool_decide; [|done].
  destruct (crawlQueue st) as [|url queue]; [done|].
  rewrite IH. by destruct (negb _ && negb _).
Qed.

(** [Promise.race] is only awaited on a set that is not empty. *)
Lemma step_race_has_crawls a st st' :
  step config a st = Some st' ->
  (main st = Racing -> raced st = false -> activeCrawls st <> []) ->
  main st' = Racing -> raced st' = false -> activeCrawls st' <> [].
Proof.
  destruct a as [p w|]; cbn.
  - destruct (List.find _ _) as [c|] eqn:Hfind; [|discriminate].
    assert (activeCrawls st <> []) as Hactive
      by (intros Hnil; rewrite Hnil in Hfind; discriminate).
    intros Hstep _. unfold resume in Hstep.
    destruct (phase c), w as [| msg | [links'|] | | msg |];
      try discriminate; injection Hstep as <-; cbn;
      try (intros _ Hraced; discriminate);
      intros _ _ Hnil; by apply fmap_nil_inv in Hnil.
  - unfold continue. intros Hstep Hst.
    destruct (main st) eqn:Hmain.
    + destruct (negb _ && _).
      * case_bool_decide as Hempty; injection Hstep as <-; cbn.
        -- rewrite ParallelMore.fill_main, Hmain. discriminate.
        -- done.
      * injection Hstep as <-. discriminate.
    + destruct (raced st); [injection Hstep as <- | ]; discriminate.
    + case_bool_decide; [injection Hstep as <- |]; discriminate.
    + discriminate.
Qed.

Lemma run_race_has_crawls schedule st st' :
  run config schedule st = Some st' ->
  (main st = Racing -> raced st = false -> activeCrawls st <> []) ->
  main st' = Racing -> raced st' = false -> activeCrawls st' <> [].
Proof.
  revert st. induction schedule as [|a schedule IH]; intros st; cbn.
  - by intros [= <-].
  - destruct (step config a st) as [st1|] eqn:Hstep; [|discriminate].
    intros Hrun Hst. apply (IH st1 Hrun).
    by apply (step_race_has_crawls a st).
Qed.

(** A crawl in flight can always be resumed. *)
Lemma crawl_resumable c l st :
  activeCrawls st = c :: l ->
  exists w st', step config (Wake (promise c) w) st = Some st'.
Proof.
  intros Hactive. cbn. rewrite Hactive. cbn.
  rewrite bool_decide_eq_true_2 by done. unfold resume.
  destruct (phase c).
  - exists Granted. by eexists.
  - exists (Fetched None). by eexists.
  - exists Extracted. by eexists.
  - exists Settle. by eexists.
Qed.

End Live.

End ParallelLive.

(** X27.  The parallel crawl never hangs: at every point under every
    schedule, as long as [crawlParallel] has not returned, either a crawl
    in flight can be resumed or [crawlParallel] itself can go on.  In
    particular [Promise.race] is never awaited on an empty set. *)
Theorem crawlParallel_no_deadlock `{parser : Url.Parser}
  (config : ScannerConfig) (queue : list string)
  (schedule : list Parallel.Action) (st : Parallel.State)
  (Hrun : Parallel.run config schedule (Parallel.start queue) = Some st)
  (Hrunning : Parallel.main st <> Parallel.Finished) :
  (exists a st', Parallel.step config a st = Some st') /\
  (Parallel.main st = Parallel.Racing ->
   Parallel.raced st = false -> Parallel.activeCrawls st <> []).
Proof.
  assert (Parallel.main st = Parallel.Racing ->
          Parallel.raced st = false -> Parallel.activeCrawls st <> [])
    as Hrace.
  { apply (ParallelLive.run_race_has_crawls config schedule _ st Hrun).
    discriminate. }
  split; [| exact Hrace].
  destruct (Parallel.activeCrawls st) as [|c l] eqn:Hactive.
  - exists Parallel.Continue. cbn. unfold Parallel.continue.
    destruct (Parallel.main st) eqn:Hmain.
    + destruct (negb _ && _); [case_bool_decide |]; by eexists.
    + destruct (Parallel.raced st); [by eexists |].
      by destruct Hrace.
    + rewrite Hactive. by eexists.
    + done.
  - destruct (ParallelLive.crawl_resumable config c l st Hactive)
      as (w & st' & Hstep).
    by exists (Parallel.Wake (Parallel.promise c) w), st'.
Qed.

Lemma crawlParallel_no_deadlock_witness :
  (exists a st',
     Parallel.step (parser := Url.parse_http) Samples.one_page a
       Runs.both_fetching = Some st') /\
  (Parallel.main Runs.both_fetching = Parallel.Racing ->
   Parallel.raced Runs.both_fetching = false ->
   Parallel.activeCrawls Runs.both_fetching <> []).
Proof.
  apply (crawlParallel_no_deadlock (parser := Url.parse_http)
           Samples.one_page Samples.two_urls Runs.until_granted).
  - vm_compute; reflexivity.
  - discriminate.
Defined.

(** ** Pages are closed *)

